(** * ERA5 request scripts for CROCO: calendar arithmetic and request assembly

    A shallow embedding of [ERA5_utilities.py], [ERA5_request.py] and
    [ERA5_analysis_request.py].  Python integers are [Z]; [//] and [%] with
    a positive divisor are [Z.div] and [Z.modulo]; strings are [string];
    dictionaries are [gmap string _]; a raised exception is the [Raise]
    branch of [result]. *)

From Stdlib Require Import ZArith String Ascii List Lia DecimalString DecimalPos.
From stdpp Require Import gmap strings list.

Local Open Scope Z_scope.

(** ** The parts of the Python runtime the scripts call *)

Module Py.

(** Exceptions the scripts can meet.  [KeyError] carries the missing key, as
    Python's does; [KeyError] and [IndexError] are the two subclasses of
    [LookupError]. *)
Inductive exn : Type :=
  | ValueError
  | OverflowError
  | IllegalMonthError
  | KeyError (key : string)
  | IndexError
  | ClientError.

Definition is_LookupError (e : exn) : bool :=
  match e with
  | KeyError _ | IndexError => true
  | _ => false
  end.

Inductive result (A : Type) : Type :=
  | Ok (a : A)
  | Raise (e : exn).
Arguments Ok {A} a.
Arguments Raise {A} e.

Definition bind {A B : Type} (r : result A) (k : A -> result B) : result B :=
  match r with
  | Ok a => k a
  | Raise e => Raise e
  end.

(** *** [calendar] *)

(** [calendar.isleap] *)
Definition isleap (year : Z) : bool :=
  (year mod 4 =? 0) && (negb (year mod 100 =? 0) || (year mod 400 =? 0)).

(** [calendar.mdays], indexed from January = 1. *)
Definition mdays (month : Z) : Z :=
  match month with
  | 1 => 31 | 2 => 28 | 3 => 31 | 4 => 30 | 5 => 31 | 6 => 30
  | 7 => 31 | 8 => 31 | 9 => 30 | 10 => 31 | 11 => 30 | 12 => 31
  | _ => 0
  end.

(** [calendar.monthrange(year, month)[1]].  The first component (the weekday
    of the first day) is never read by the scripts; since Python 3.8 its
    computation folds an out-of-range year into 2000..2399 and so does not
    raise. *)
Definition monthrange_ndays (year month : Z) : result Z :=
  if (1 <=? month) && (month <=? 12)
  then Ok (mdays month + (if (month =? 2) && isleap year then 1 else 0))
  else Raise IllegalMonthError.

(** *** [datetime] *)

Definition MINYEAR : Z := 1.
Definition MAXYEAR : Z := 9999.

(** A [datetime.date].  [datetime.datetime(y, m, d)] is modelled by the same
    record: the scripts build it with the time of day left at midnight and
    read only [year], [month], [day] and the ordinal. *)
Record date : Type := mkdate { year : Z; month : Z; day : Z }.

(** [datetime._days_in_month], called with a month already checked. *)
Definition days_in_month (year month : Z) : Z :=
  mdays month + (if (month =? 2) && isleap year then 1 else 0).

(** The field check of the constructor. *)
Definition check_date_fields (y m d : Z) : bool :=
  (MINYEAR <=? y) && (y <=? MAXYEAR) &&
  (1 <=? m) && (m <=? 12) &&
  (1 <=? d) && (d <=? days_in_month y m).

(** The C implementation of [datetime] reads each integer argument into a
    C [int] and raises [OverflowError] when it does not fit. *)
Definition INT_MIN : Z := -2147483648.
Definition INT_MAX : Z := 2147483647.

Definition fits_int (n : Z) : bool := (INT_MIN <=? n) && (n <=? INT_MAX).

(** [datetime.date(y, m, d)]: the arguments are read as C ints, then the
    fields are checked. *)
Definition datetime_date (y m d : Z) : result date :=
  if fits_int y && fits_int m && fits_int d then
    if check_date_fields y m d then Ok (mkdate y m d) else Raise ValueError
  else Raise OverflowError.

Definition valid_date (D : date) : bool :=
  check_date_fields (year D) (month D) (day D).

(** [datetime._days_before_year] *)
Definition days_before_year (year : Z) : Z :=
  let y := year - 1 in
  y * 365 + y / 4 - y / 100 + y / 400.

(** [datetime._DAYS_BEFORE_MONTH] *)
Definition DAYS_BEFORE_MONTH (month : Z) : Z :=
  match month with
  | 1 => 0 | 2 => 31 | 3 => 59 | 4 => 90 | 5 => 120 | 6 => 151
  | 7 => 181 | 8 => 212 | 9 => 243 | 10 => 273 | 11 => 304 | 12 => 334
  | _ => -1
  end.

(** [datetime._days_before_month] *)
Definition days_before_month (year month : Z) : Z :=
  DAYS_BEFORE_MONTH month + (if (2 <? month) && isleap year then 1 else 0).

(** [datetime._ymd2ord]; [date.toordinal] applies it to the fields. *)
Definition ymd2ord (year month day : Z) : Z :=
  days_before_year year + days_before_month year month + day.

Definition toordinal (D : date) : Z := ymd2ord (year D) (month D) (day D).

Definition DI400Y : Z := 146097.
Definition DI100Y : Z := 36524.
Definition DI4Y : Z := 1461.

(** [datetime._ord2ymd] *)
Definition ord2ymd (n : Z) : Z * Z * Z :=
  let n := n - 1 in
  let n400 := n / DI400Y in
  let n := n mod DI400Y in
  let year := n400 * 400 + 1 in
  let n100 := n / DI100Y in
  let n := n mod DI100Y in
  let n4 := n / DI4Y in
  let n := n mod DI4Y in
  let n1 := n / 365 in
  let n := n mod 365 in
  let year := year + (n100 * 100 + n4 * 4 + n1) in
  if (n1 =? 4) || (n100 =? 4) then (year - 1, 12, 31)
  else
    let leapyear := (n1 =? 3) && (negb (n4 =? 24) || (n100 =? 3)) in
    let month := Z.shiftr (n + 50) 5 in
    let preceding :=
      DAYS_BEFORE_MONTH month + (if (2 <? month) && leapyear then 1 else 0) in
    if n <? preceding then
      let month := month - 1 in
      let preceding :=
        preceding - (mdays month + (if (month =? 2) && leapyear then 1 else 0)) in
      (year, month, n - preceding + 1)
    else (year, month, n - preceding + 1).

(** [datetime.date.fromordinal]: the ordinal is read as a C int, ordinals
    below 1 are refused, and the constructor refuses a year past [MAXYEAR]. *)
Definition fromordinal (n : Z) : result date :=
  if fits_int n then
    if n <? 1 then Raise ValueError
    else let '(y, m, d) := ord2ymd n in datetime_date y m d
  else Raise OverflowError.

(** *** [str] *)

(** [str(i)] for an integer. *)
Definition str_int (i : Z) : string := NilZero.string_of_int (Z.to_int i).

Fixpoint zeros (k : nat) : string :=
  match k with
  | O => EmptyString
  | S k => String "0" (zeros k)
  end.

(** [s.zfill(width)]: zeros go after a leading sign. *)
Definition zfill (width : nat) (s : string) : string :=
  let fill := (width - String.length s)%nat in
  match s with
  | String c rest =>
      if (Ascii.eqb c "+" || Ascii.eqb c "-")%bool
      then String c (zeros fill +:+ rest)
      else zeros fill +:+ s
  | EmptyString => zeros fill
  end.

(** [s.upper()] on ASCII text: the letters a..z move to A..Z, every other
    character stays.  On other text [str.upper] follows the case mapping of
    the Unicode database, which is not embedded here: where a property below
    says what the upper case of an identifier is, it is stated for ASCII
    text ([ascii_text]). *)
Definition upper_ascii (c : ascii) : ascii :=
  let k := nat_of_ascii c in
  if ((97 <=? k) && (k <=? 122))%nat then ascii_of_nat (k - 32) else c.

Fixpoint upper (s : string) : string :=
  match s with
  | EmptyString => EmptyString
  | String c rest => String (upper_ascii c) (upper rest)
  end.

(** [s.isascii()] *)
Fixpoint ascii_text (s : string) : bool :=
  match s with
  | EmptyString => true
  | String c rest => (nat_of_ascii c <? 128)%nat && ascii_text rest
  end.

(** [d.strftime('%Y-%m-%d')].  Python hands the format to the C library:
    with glibc, the C library of Linux, [%Y] is the year in decimal without zero
    fill (['999-01-01'] for the first day of the year 999), and [%m] and [%d]
    are zero-filled to two digits. *)
Definition strftime_Ymd (D : date) : string :=
  str_int (year D) +:+ "-" +:+ zfill 2 (str_int (month D))
    +:+ "-" +:+ zfill 2 (str_int (day D)).

(** [l[i]] on a list. *)
Definition getitem {A : Type} (l : list A) (i : nat) : result A :=
  match l !! i with
  | Some x => Ok x
  | None => Raise IndexError
  end.

End Py.

Import Py.

Notation "'try' x '<-' r 'in' k" := (Py.bind r (fun x => k))
  (at level 10, x name, r at level 100, k at level 200).

(** ** [ERA5_utilities.py] *)

Module Utilities.

Definition addmonths4date (date : Py.date) (addmonths : Z) : result Py.date :=
  let month := month date - 1 + addmonths in
  let year := year date + month / 12 in
  let month := month mod 12 + 1 in
  try ndays <- monthrange_ndays year month in
  let day := Z.min (Py.day date) ndays in
  datetime_date year month day.

End Utilities.


(** ** What both request scripts share *)

(** A value stored in the request dictionary: a string, or the list of the
    four bounds of the area. *)
Inductive pyval : Type :=
  | PStr (s : string)
  | PArea (bounds : list Z).

(** One call [c.retrieve(product, options, output)]. *)
Record call : Type := mkcall {
  c_product : string;
  c_options : gmap string pyval;
  c_output : string
}.

(** One target month with its padded limits, both already formatted: what an
    iteration of the monthly loop hands to the loop over the variables. *)
Record window : Type := mkwindow {
  w_year : Z;
  w_month : Z;
  w_start : string;
  w_end : string
}.

(** A loop leaves the calls it made and, when it stopped on an exception,
    that exception. *)
Definition outcome (A : Type) : Type := (list A * option exn)%type.

(** [d[key]] on a dictionary. *)
Definition dict_getitem {V : Type} (d : gmap string V) (key : string) : result V :=
  match d !! key with
  | Some v => Ok v
  | None => Raise (KeyError key)
  end.

(** ** [ERA5_request.py] *)

Module Request.

(** The user options, and the working directory the script is started in. *)
Record config : Type := mkconfig {
  year_start : Z;
  month_start : Z;
  year_end : Z;
  month_end : Z;
  n_overlap : Z;
  time : string;
  varea : list Z;
  variables : list string;
  main_dir : string
}.

Definition era5_dir (cfg : config) : string := main_dir cfg +:+ "/ERA5".

(** Lines 102-115: the padded limits of the month, as strings. *)
Definition datestr_overlap (n_overlap year month : Z) : result (string * string) :=
  try days_in_month <- monthrange_ndays year month in
  try date_start <- datetime_date year month 1 in
  try date_end <- datetime_date year month days_in_month in
  let n_start := toordinal date_start in
  let n_end := toordinal date_end in
  try d_start <- fromordinal (n_start - n_overlap) in
  let datestr_start_overlap := strftime_Ymd d_start in
  try d_end <- fromordinal (n_end + n_overlap) in
  let datestr_end_overlap := strftime_Ymd d_end in
  Ok (datestr_start_overlap, datestr_end_overlap).

(** Line 118. *)
Definition vdate (w : window) : string := w_start w +:+ "/" +:+ w_end w.

(** Line 156. *)
Definition fname (vname : string) (year month : Z) : string :=
  "ERA5_ecmwf_" +:+ upper vname +:+ "_Y" +:+ str_int year +:+ "M"
    +:+ zfill 2 (str_int month) +:+ ".nc".

(** Lines 129-153: the dictionary of the request and the product. *)
Definition options (vdate vlong vlevt : string) (varea : list Z) (time : string)
  : gmap string pyval :=
  let options : gmap string pyval :=
    <["format" := PStr "netcdf"]> (
    <["area" := PArea varea]> (
    <["levtype" := PStr vlevt]> (
    <["variable" := PStr vlong]> (
    <["date" := PStr vdate]> (
    <["type" := PStr "an"]> (
    <["product_type" := PStr "reanalysis"]> ∅)))))) in
  let options :=
    if String.eqb vlong "sea_surface_temperature"
    then <["time" := PStr "12"]> options
    else <["time" := PStr time]> options in
  if (String.eqb vlong "specific_humidity" || String.eqb vlong "relative_humidity")%bool
  then <["pressure_level" := PStr "1000"]> options
  else options.

Definition product (vlong : string) : string :=
  if (String.eqb vlong "specific_humidity" || String.eqb vlong "relative_humidity")%bool
  then "reanalysis-era5-pressure-levels"
  else "reanalysis-era5-single-levels".

Section Script.

Variable cfg : config.
(** The table read from [ERA5_variables.json]. *)
Variable era5 : gmap string (list string).
(** The client of the archive ([cdsapi.Client()] and its [retrieve]): it
    answers a call or raises.  The messages printed before each call are
    left out. *)
Variable retrieve : call -> result unit.

(** Lines 123-157: what one variable asks of the archive. *)
Definition request (w : window) (vname : string) : result call :=
  try entry <- dict_getitem era5 vname in
  try vlong <- getitem entry 0 in
  try entry <- dict_getitem era5 vname in
  try vlevt <- getitem entry 3 in
  let options := options (vdate w) vlong vlevt (varea cfg) (time cfg) in
  let product := product vlong in
  let fname := fname vname (w_year w) (w_month w) in
  let output := era5_dir cfg +:+ "/" +:+ fname in
  Ok (mkcall product options output).

(** Lines 121-177: the loop over the variables, for one month. *)
Fixpoint variables_loop (w : window) (vs : list string) : outcome call :=
  match vs with
  | [] => ([], None)
  | vname :: rest =>
      match request w vname with
      | Raise e => ([], Some e)
      | Ok c =>
          match retrieve c with
          | Raise e => ([c], Some e)
          | Ok _ =>
              let '(calls, exc) := variables_loop w rest in (c :: calls, exc)
          end
      end
  end.

(** Lines 96-182: the loop over the months, [j] iterations left.  What is
    done with each month's window is a parameter: the script runs the loop
    over the variables, the generator below only hands the window out. *)
Fixpoint monthly_loop {A : Type} (consume : window -> outcome A)
    (j : nat) (monthly_date : date) : outcome A :=
  match j with
  | O => ([], None)
  | S j =>
      let year := Py.year monthly_date in
      let month := Py.month monthly_date in
      match datestr_overlap (n_overlap cfg) year month with
      | Raise e => ([], Some e)
      | Ok (datestr_start_overlap, datestr_end_overlap) =>
          let w := mkwindow year month datestr_start_overlap datestr_end_overlap in
          match consume w with
          | (out, Some e) => (out, Some e)
          | (out, None) =>
              match Utilities.addmonths4date monthly_date 1 with
              | Raise e => (out, Some e)
              | Ok monthly_date =>
                  let '(outs, exc) := monthly_loop consume j monthly_date in
                  (out ++ outs, exc)
              end
          end
      end
  end.

(** Lines 85-93: the limits, the length of the loop, and the loop. *)
Definition monthly_dates {A : Type} (consume : window -> outcome A) : outcome A :=
  match datetime_date (year_start cfg) (month_start cfg) 1 with
  | Raise e => ([], Some e)
  | Ok monthly_date_start =>
      match datetime_date (year_end cfg) (month_end cfg) 1 with
      | Raise e => ([], Some e)
      | Ok monthly_date_end =>
          let len_monthly_dates :=
            (Py.year monthly_date_end - Py.year monthly_date_start) * 12
            + (Py.month monthly_date_end - Py.month monthly_date_start) + 1 in
          monthly_loop consume (Z.to_nat len_monthly_dates) monthly_date_start
      end
  end.

(** The date-window generator: the monthly loop that yields each window. *)
Definition date_windows : outcome window :=
  monthly_dates (fun w => ([w], None)).

(** The script: the calls it makes to the archive and how it ends. *)
Definition script : outcome call :=
  monthly_dates (fun w => variables_loop w (variables cfg)).

End Script.

(** The same loops for a client that need not answer the same call the same
    way twice, as the archive is reached over the network: [client k c] is
    its answer to the call [c] when [k] calls were made before it in the
    run.  [variables_loop], [monthly_loop] and [script] are the case of a
    client whose answer depends on the call alone. *)
Section Run.

Variable cfg : config.
Variable era5 : gmap string (list string).
Variable client : nat -> call -> result unit.

(** Lines 121-177, [k] calls made before. *)
Fixpoint variables_run (k : nat) (w : window) (vs : list string) : outcome call :=
  match vs with
  | [] => ([], None)
  | vname :: rest =>
      match request cfg era5 w vname with
      | Raise e => ([], Some e)
      | Ok c =>
          match client k c with
          | Raise e => ([c], Some e)
          | Ok _ =>
              let '(calls, exc) := variables_run (S k) w rest in (c :: calls, exc)
          end
      end
  end.

(** Lines 96-182, [k] calls made before and [j] iterations left. *)
Fixpoint monthly_run (consume : nat -> window -> outcome call)
    (k j : nat) (monthly_date : date) : outcome call :=
  match j with
  | O => ([], None)
  | S j =>
      let year := Py.year monthly_date in
      let month := Py.month monthly_date in
      match datestr_overlap (n_overlap cfg) year month with
      | Raise e => ([], Some e)
      | Ok (datestr_start_overlap, datestr_end_overlap) =>
          let w := mkwindow year month datestr_start_overlap datestr_end_overlap in
          match consume k w with
          | (out, Some e) => (out, Some e)
          | (out, None) =>
              match Utilities.addmonths4date monthly_date 1 with
              | Raise e => (out, Some e)
              | Ok monthly_date =>
                  let '(outs, exc) :=
                    monthly_run consume (k + length out) j monthly_date in
                  (out ++ outs, exc)
              end
          end
      end
  end.

(** Lines 85-93 and the loop, no call made before. *)
Definition run_dates (consume : nat -> window -> outcome call) : outcome call :=
  match datetime_date (year_start cfg) (month_start cfg) 1 with
  | Raise e => ([], Some e)
  | Ok monthly_date_start =>
      match datetime_date (year_end cfg) (month_end cfg) 1 with
      | Raise e => ([], Some e)
      | Ok monthly_date_end =>
          let len_monthly_dates :=
            (Py.year monthly_date_end - Py.year monthly_date_start) * 12
            + (Py.month monthly_date_end - Py.month monthly_date_start) + 1 in
          monthly_run consume 0 (Z.to_nat len_monthly_dates) monthly_date_start
      end
  end.

Definition run : outcome call :=
  run_dates (fun k w => variables_run k w (variables cfg)).

End Run.

End Request.

(** ** [ERA5_analysis_request.py] *)

Module Analysis.

Record config : Type := mkconfig {
  year_start : Z;
  month_start : Z;
  year_end : Z;
  month_end : Z;
  n_overlap : Z;
  time : string;
  area : list Z;
  variables : list string;
  main_dir : string
}.

Definition era5_dir (cfg : config) : string := main_dir cfg +:+ "/ERA5_analysis".

(** Lines 107-112. *)
Definition add_months (sourcedate : date) (months : Z) : result date :=
  let month := Py.month sourcedate - 1 + months in
  let year := Py.year sourcedate + month / 12 in
  let month := month mod 12 + 1 in
  try ndays <- monthrange_ndays year month in
  let day := Z.min (Py.day sourcedate) ndays in
  datetime_date year month day.

(** Lines 135-148: the padded limits of the month, as strings. *)
Definition date_overlap (n_overlap year month : Z) : result (string * string) :=
  try days_in_month <- monthrange_ndays year month in
  try first <- datetime_date year month 1 in
  let n_start := toordinal first in
  try last <- datetime_date year month days_in_month in
  let n_end := toordinal last in
  let n_start_overlap := n_start - n_overlap in
  let n_end_overlap := n_end + n_overlap in
  try d_start <- fromordinal n_start_overlap in
  let date_start_overlap := strftime_Ymd d_start in
  try d_end <- fromordinal n_end_overlap in
  let date_end_overlap := strftime_Ymd d_end in
  Ok (date_start_overlap, date_end_overlap).

(** Line 151. *)
Definition date (w : window) : string := w_start w +:+ "/" +:+ w_end w.

(** Line 189. *)
Definition fname (vabbr : string) (year month : Z) : string :=
  "ERA5_ecmwf_" +:+ vabbr +:+ "_Y" +:+ str_int year +:+ "M"
    +:+ zfill 2 (str_int month) +:+ ".nc".

(** Lines 162-186: the dictionary of the request and the product. *)
Definition options (date vname vlevt : string) (area : list Z) (time : string)
  : gmap string pyval :=
  let options : gmap string pyval :=
    <["format" := PStr "netcdf"]> (
    <["area" := PArea area]> (
    <["levtype" := PStr vlevt]> (
    <["variable" := PStr vname]> (
    <["date" := PStr date]> (
    <["type" := PStr "an"]> (
    <["product_type" := PStr "reanalysis"]> ∅)))))) in
  let options :=
    if String.eqb vname "sea_surface_temperature"
    then <["time" := PStr "12"]> options
    else <["time" := PStr time]> options in
  if (String.eqb vname "specific_humidity" || String.eqb vname "relative_humidity")%bool
  then <["pressure_level" := PStr "1000"]> options
  else options.

Definition product (vname : string) : string :=
  if (String.eqb vname "specific_humidity" || String.eqb vname "relative_humidity")%bool
  then "reanalysis-era5-pressure-levels"
  else "reanalysis-era5-single-levels".

Section Script.

Variable cfg : config.
(** The table read from [era5_variables.json]. *)
Variable era5 : gmap string (list string).
(** The client of the archive: it answers a call or raises. *)
Variable retrieve : call -> result unit.

(** Lines 156-190: what one variable asks of the archive. *)
Definition request (w : window) (vname : string) : result call :=
  try entry <- dict_getitem era5 vname in
  try vlevt <- getitem entry 1 in
  try entry <- dict_getitem era5 vname in
  try vabbr <- getitem entry 2 in
  let options := options (date w) vname vlevt (area cfg) (time cfg) in
  let product := product vname in
  let fname := fname vabbr (w_year w) (w_month w) in
  let output := era5_dir cfg +:+ "/" +:+ fname in
  Ok (mkcall product options output).

(** Lines 154-210: the loop over the variables, for one month. *)
Fixpoint variables_loop (w : window) (vs : list string) : outcome call :=
  match vs with
  | [] => ([], None)
  | vname :: rest =>
      match request w vname with
      | Raise e => ([], Some e)
      | Ok c =>
          match retrieve c with
          | Raise e => ([c], Some e)
          | Ok _ =>
              let '(calls, exc) := variables_loop w rest in (c :: calls, exc)
          end
      end
  end.

(** Lines 129-215: the loop over the months, [j] iterations left, with what
    is done with each month's window as a parameter. *)
Fixpoint mdates_loop {A : Type} (consume : window -> outcome A)
    (j : nat) (mdate : Py.date) : outcome A :=
  match j with
  | O => ([], None)
  | S j =>
      let year := Py.year mdate in
      let month := Py.month mdate in
      match date_overlap (n_overlap cfg) year month with
      | Raise e => ([], Some e)
      | Ok (date_start_overlap, date_end_overlap) =>
          let w := mkwindow year month date_start_overlap date_end_overlap in
          match consume w with
          | (out, Some e) => (out, Some e)
          | (out, None) =>
              match add_months mdate 1 with
              | Raise e => (out, Some e)
              | Ok mdate =>
                  let '(outs, exc) := mdates_loop consume j mdate in
                  (out ++ outs, exc)
              end
          end
      end
  end.

(** Lines 119-126: the limits, the length of the loop, and the loop. *)
Definition mdates {A : Type} (consume : window -> outcome A) : outcome A :=
  match datetime_date (year_start cfg) (month_start cfg) 1 with
  | Raise e => ([], Some e)
  | Ok mdate_start =>
      match datetime_date (year_end cfg) (month_end cfg) 1 with
      | Raise e => ([], Some e)
      | Ok mdate_end =>
          let len_mdates :=
            (Py.year mdate_end - Py.year mdate_start) * 12
            + (Py.month mdate_end - Py.month mdate_start) + 1 in
          mdates_loop consume (Z.to_nat len_mdates) mdate_start
      end
  end.

(** The date-window generator: the monthly loop that yields each window. *)
Definition date_windows : outcome window :=
  mdates (fun w => ([w], None)).

(** The script: the calls it makes to the archive and how it ends. *)
Definition script : outcome call :=
  mdates (fun w => variables_loop w (variables cfg)).

End Script.

(** The same loops for a client that need not answer the same call the same
    way twice: [client k c] is its answer to the call [c] when [k] calls
    were made before it in the run. *)
Section Run.

Variable cfg : config.
Variable era5 : gmap string (list string).
Variable client : nat -> call -> result unit.

(** Lines 154-210, [k] calls made before. *)
Fixpoint variables_run (k : nat) (w : window) (vs : list string) : outcome call :=
  match vs with
  | [] => ([], None)
  | vname :: rest =>
      match request cfg era5 w vname with
      | Raise e => ([], Some e)
      | Ok c =>
          match client k c with
          | Raise e => ([c], Some e)
          | Ok _ =>
              let '(calls, exc) := variables_run (S k) w rest in (c :: calls, exc)
          end
      end
  end.

(** Lines 129-215, [k] calls made before and [j] iterations left. *)
Fixpoint mdates_run (consume : nat -> window -> outcome call)
    (k j : nat) (mdate : Py.date) : outcome call :=
  match j with
  | O => ([], None)
  | S j =>
      let year := Py.year mdate in
      let month := Py.month mdate in
      match date_overlap (n_overlap cfg) year month with
      | Raise e => ([], Some e)
      | Ok (date_start_overlap, date_end_overlap) =>
          let w := mkwindow year month date_start_overlap date_end_overlap in
          match consume k w with
          | (out, Some e) => (out, Some e)
          | (out, None) =>
              match add_months mdate 1 with
              | Raise e => (out, Some e)
              | Ok mdate =>
                  let '(outs, exc) := mdates_run consume (k + length out) j mdate in
                  (out ++ outs, exc)
              end
          end
      end
  end.

(** Lines 119-126 and the loop, no call made before. *)
Definition run_dates (consume : nat -> window -> outcome call) : outcome call :=
  match datetime_date (year_start cfg) (month_start cfg) 1 with
  | Raise e => ([], Some e)
  | Ok mdate_start =>
      match datetime_date (year_end cfg) (month_end cfg) 1 with
      | Raise e => ([], Some e)
      | Ok mdate_end =>
          let len_mdates :=
            (Py.year mdate_end - Py.year mdate_start) * 12
            + (Py.month mdate_end - Py.month mdate_start) + 1 in
          mdates_run consume 0 (Z.to_nat len_mdates) mdate_start
      end
  end.

Definition run : outcome call :=
  run_dates (fun k w => variables_run k w (variables cfg)).

End Run.

End Analysis.


(** * Reference notions the properties are stated with *)

(** The date a month advance aims at. *)
Definition advanced (D : date) (n : Z) : date :=
  let y := year D + (month D - 1 + n) / 12 in
  let m := (month D - 1 + n) mod 12 + 1 in
  mkdate y m (Z.min (day D) (days_in_month y m)).

(** The day after and the day before in the calendar; there is none past
    the last supported day, 9999-12-31, nor before the first, 0001-01-01. *)
Definition next_day (D : date) : option date :=
  if day D <? days_in_month (year D) (month D)
  then Some (mkdate (year D) (month D) (day D + 1))
  else if month D <? 12 then Some (mkdate (year D) (month D + 1) 1)
  else if year D <? MAXYEAR then Some (mkdate (year D + 1) 1 1)
  else None.

Definition prev_day (D : date) : option date :=
  if 1 <? day D then Some (mkdate (year D) (month D) (day D - 1))
  else if 1 <? month D
  then Some (mkdate (year D) (month D - 1) (days_in_month (year D) (month D - 1)))
  else if MINYEAR <? year D then Some (mkdate (year D - 1) 12 31)
  else None.

(** [D] plus, and minus, [k] days, one day at a time. *)
Fixpoint days_later (k : nat) (D : date) : option date :=
  match k with
  | O => Some D
  | S k => match next_day D with
           | Some D' => days_later k D'
           | None => None
           end
  end.

Fixpoint days_earlier (k : nat) (D : date) : option date :=
  match k with
  | O => Some D
  | S k => match prev_day D with
           | Some D' => days_earlier k D'
           | None => None
           end
  end.

(** The ordinal of 9999-12-31. *)
Definition MAXORDINAL : Z := 3652059.

(** The window the specification asks for month [m] of year [y] with [V]
    days of overlap: from the first day of the month minus [V] days to its
    last day plus [V] days, each written as [strftime] writes a date. *)
Definition reference_window (V y m : Z) : option window :=
  match days_earlier (Z.to_nat V) (mkdate y m 1),
        days_later (Z.to_nat V) (mkdate y m (days_in_month y m)) with
  | Some d_start, Some d_end =>
      Some (mkwindow y m (strftime_Ymd d_start) (strftime_Ymd d_end))
  | _, _ => None
  end.

(** Months counted from year 0: consecutive months have consecutive ranks. *)
Definition month_rank (y m : Z) : Z := y * 12 + (m - 1).

(** A year and a month the calendar of the library has. *)
Definition valid_month (y m : Z) : Prop := 1 <= y <= 9999 /\ 1 <= m <= 12.

(** The options of the analysis script, read as options of the main one. *)
Definition as_request (c : Analysis.config) : Request.config :=
  Request.mkconfig (Analysis.year_start c) (Analysis.month_start c)
    (Analysis.year_end c) (Analysis.month_end c) (Analysis.n_overlap c)
    (Analysis.time c) (Analysis.area c) (Analysis.variables c)
    (Analysis.main_dir c).

(** The characters 0 .. 9. *)
Definition is_digit (c : ascii) : bool :=
  ((48 <=? nat_of_ascii c) && (nat_of_ascii c <=? 57))%nat.

(** The rule on the sampling hours, for the call made for a variable whose
    canonical name is [vlong]: the call carries this name under "variable",
    and under "time" the hour 12 for the sea surface temperature and the
    configured [hours] for any other variable. *)
Definition hours_rule (hours vlong : string) (c : call) : Prop :=
  c_options c !! "variable" = Some (PStr vlong)
  /\ (vlong = "sea_surface_temperature" ->
      c_options c !! "time" = Some (PStr "12"))
  /\ (vlong <> "sea_surface_temperature" ->
      c_options c !! "time" = Some (PStr hours)).

(** The rule on the pressure level and the product, for the call made for a
    variable whose canonical name is [vlong]. *)
Definition pressure_rule (vlong : string) (c : call) : Prop :=
  c_options c !! "variable" = Some (PStr vlong)
  /\ (vlong = "specific_humidity" \/ vlong = "relative_humidity" ->
      c_options c !! "pressure_level" = Some (PStr "1000")
      /\ c_product c = "reanalysis-era5-pressure-levels")
  /\ (vlong <> "specific_humidity" -> vlong <> "relative_humidity" ->
      c_options c !! "pressure_level" = None
      /\ c_product c = "reanalysis-era5-single-levels").

(** A small table in the layout of [ERA5_variables.json] (long name first,
    level type fourth), for the examples. *)
Definition example_table : gmap string (list string) :=
  <["sst" := ["sea_surface_temperature"; "SST"; "K"; "sfc"] ]> (
  <["q" := ["specific_humidity"; "Q"; "kg kg**-1"; "pl"] ]> ∅).

(** A table of the main script with two identifiers that differ in case
    only, and a table in the layout of the analysis script (level type
    second, abbreviation third) that gives two variables one abbreviation. *)
Definition case_table : gmap string (list string) :=
  <["sst" := ["sea_surface_temperature"; "SST"; "K"; "sfc"] ]> (
  <["SST" := ["skin_temperature"; "SKT"; "K"; "sfc"] ]> ∅).

Definition abbreviation_table : gmap string (list string) :=
  <["2m_temperature" := ["K"; "sfc"; "T"] ]> (
  <["skin_temperature" := ["K"; "sfc"; "T"] ]> ∅).

(** The abbreviation the table of the analysis script gives a variable. *)
Definition abbreviation (era5 : gmap string (list string)) (vname : string)
  : option string :=
  match era5 !! vname with
  | Some entry => entry !! 2%nat
  | None => None
  end.

(** The days a window covers: its limits are the texts of two dates, the
    first [V] days before the first day of its month, and from the one to
    the other there are the days of the month and [2 * V] more. *)
Definition window_days (V : Z) (w : window) : Prop :=
  exists d_start d_end,
    valid_date d_start = true /\ valid_date d_end = true
    /\ w_start w = strftime_Ymd d_start /\ w_end w = strftime_Ymd d_end
    /\ toordinal d_start = toordinal (mkdate (w_year w) (w_month w) 1) - V
    /\ toordinal d_end - toordinal d_start + 1
       = days_in_month (w_year w) (w_month w) + 2 * V.

(** How a window and the next one meet: the next starts [2 * V - 1] days
    before the end of the first, that is the day after it when [V = 0]. *)
Definition windows_meet (V : Z) (w w' : window) : Prop :=
  exists d_end d_start',
    valid_date d_end = true /\ valid_date d_start' = true
    /\ w_end w = strftime_Ymd d_end /\ w_start w' = strftime_Ymd d_start'
    /\ toordinal d_start' = toordinal d_end - 2 * V + 1.

(** The keys a request dictionary can hold. *)
Definition option_keys : list string :=
  ["product_type"; "type"; "date"; "variable"; "levtype"; "area"; "format";
   "time"; "pressure_level"].

(** One call for each window and each variable, the windows in order and
    within a window the variables in order, each call assembled for its
    window and variable and answered by the client. *)
Definition one_call_each (request : window -> string -> result call)
    (retrieve : call -> result unit) (vs : list string) (ws : list window)
    (calls : list call) : Prop :=
  exists css : list (list call),
    Forall2 (fun w cs =>
               Forall2 (fun v c => request w v = Ok c /\ retrieve c = Ok tt) vs cs)
      ws css
    /\ calls = concat css.

(** The calls of a list were all answered, the first of them being made
    when [k] calls had been made before. *)
Definition answered (client : nat -> call -> result unit) (k : nat)
    (calls : list call) : Prop :=
  forall i c, calls !! i = Some c -> client (k + i)%nat c = Ok tt.

(** A run, started when [k] calls had been made, stops at the first call
    the client refuses: either every call made was answered, or all were
    but the last, and the exception of the last is the one the run ends
    on. *)
Definition stops_at_refusal (client : nat -> call -> result unit) (k : nat)
    (r : outcome call) : Prop :=
  answered client k r.1
  \/ exists good c e,
       r.1 = good ++ [c] /\ answered client k good
       /\ client (k + length good)%nat c = Raise e /\ r.2 = Some e.

(** * Properties *)

(** ** Calendar facts *)

Lemma month_cases (m : Z) :
  1 <= m <= 12 ->
  m = 1 \/ m = 2 \/ m = 3 \/ m = 4 \/ m = 5 \/ m = 6 \/
  m = 7 \/ m = 8 \/ m = 9 \/ m = 10 \/ m = 11 \/ m = 12.
Proof. lia. Qed.

Ltac each_month m H :=
  destruct (month_cases m H) as [?|[?|[?|[?|[?|[?|[?|[?|[?|[?|[?|?]]]]]]]]]]];
  subst m.

Lemma days_in_month_bounds (y m : Z) :
  1 <= m <= 12 -> 28 <= days_in_month y m <= 31.
Proof.
  intros H. unfold days_in_month.
  each_month m H; simpl; destruct (isleap y); simpl; lia.
Qed.

Lemma check_date_fields_spec (y m d : Z) :
  check_date_fields y m d = true <->
  (1 <= y <= 9999 /\ 1 <= m <= 12 /\ 1 <= d <= days_in_month y m).
Proof.
  unfold check_date_fields, MINYEAR, MAXYEAR.
  rewrite !andb_true_iff, !Z.leb_le. lia.
Qed.

Lemma check_date_fields_fits (y m d : Z) :
  check_date_fields y m d = true ->
  fits_int y && fits_int m && fits_int d = true.
Proof.
  intros H. apply check_date_fields_spec in H.
  pose proof (days_in_month_bounds y m ltac:(lia)).
  unfold fits_int, INT_MIN, INT_MAX.
  rewrite !andb_true_iff, !Z.leb_le. lia.
Qed.

(** The constructor, by the field check first: an argument that is not a C
    int is not a valid field either. *)
Lemma datetime_date_cases (y m d : Z) :
  datetime_date y m d =
  if check_date_fields y m d then Ok (mkdate y m d)
  else Raise (if fits_int y && fits_int m && fits_int d
              then ValueError else OverflowError).
Proof.
  unfold datetime_date.
  destruct (check_date_fields y m d) eqn:E.
  - rewrite (check_date_fields_fits _ _ _ E). reflexivity.
  - destruct (fits_int y && fits_int m && fits_int d); reflexivity.
Qed.

Lemma datetime_date_raises (y m d : Z) (e : exn) :
  datetime_date y m d = Raise e -> e = ValueError \/ e = OverflowError.
Proof.
  rewrite datetime_date_cases.
  destruct (check_date_fields y m d); [discriminate|].
  destruct (fits_int y && fits_int m && fits_int d); intros [= <-]; auto.
Qed.

Lemma monthrange_ndays_ok (y m : Z) :
  1 <= m <= 12 -> monthrange_ndays y m = Ok (days_in_month y m).
Proof.
  intros H. unfold monthrange_ndays.
  replace ((1 <=? m) && (m <=? 12)) with true; [reflexivity|].
  symmetry. apply andb_true_iff. rewrite !Z.leb_le. lia.
Qed.

Lemma addmonths4date_unfold (D : date) (n : Z) :
  Utilities.addmonths4date D n =
  datetime_date (year (advanced D n)) (month (advanced D n)) (day (advanced D n)).
Proof.
  unfold Utilities.addmonths4date, advanced. cbn [year month day].
  rewrite monthrange_ndays_ok; [reflexivity|].
  pose proof (Z.mod_pos_bound (month D - 1 + n) 12). lia.
Qed.

Lemma add_months_eq (D : date) (n : Z) :
  Analysis.add_months D n = Utilities.addmonths4date D n.
Proof. reflexivity. Qed.

Lemma advanced_index (D : date) (n : Z) :
  year (advanced D n) * 12 + month (advanced D n) = year D * 12 + month D + n
  /\ 1 <= month (advanced D n) <= 12.
Proof.
  unfold advanced. cbn [year month].
  pose proof (Z.div_mod (month D - 1 + n) 12).
  pose proof (Z.mod_pos_bound (month D - 1 + n) 12). lia.
Qed.

Lemma addmonths4date_ok (D : date) (n : Z) :
  valid_date D = true ->
  12 <= year D * 12 + (month D - 1) + n <= 9999 * 12 + 11 ->
  Utilities.addmonths4date D n = Ok (advanced D n)
  /\ valid_date (advanced D n) = true.
Proof.
  intros HD Hn. unfold valid_date in *.
  apply check_date_fields_spec in HD.
  pose proof (advanced_index D n) as [Hi Hm].
  assert (Hv : check_date_fields (year (advanced D n)) (month (advanced D n))
                 (day (advanced D n)) = true).
  { apply check_date_fields_spec.
    unfold advanced in *; cbn [year month day] in *.
    pose proof (days_in_month_bounds
      (year D + (month D - 1 + n) / 12) ((month D - 1 + n) mod 12 + 1) Hm).
    lia. }
  split; [|exact Hv].
  rewrite addmonths4date_unfold, datetime_date_cases, Hv.
  destruct (advanced D n); reflexivity.
Qed.

(** Past the supported years the constructor refuses the year: with
    [OverflowError] when it is not a C int, with [ValueError] otherwise. *)
Lemma addmonths4date_out_of_range (D : date) (n : Z) :
  valid_date D = true ->
  ~ (12 <= year D * 12 + (month D - 1) + n <= 9999 * 12 + 11) ->
  Utilities.addmonths4date D n
  = Raise (if fits_int (year (advanced D n)) then ValueError else OverflowError).
Proof.
  intros HD Hn. rewrite addmonths4date_unfold, datetime_date_cases.
  destruct (check_date_fields _ _ _) eqn:E.
  - apply check_date_fields_spec in E.
    pose proof (advanced_index D n). lia.
  - apply check_date_fields_spec in HD.
    pose proof (advanced_index D n) as [_ Hm].
    assert (Fm : fits_int (month (advanced D n)) = true).
    { unfold fits_int, INT_MIN, INT_MAX. rewrite andb_true_iff, !Z.leb_le. lia. }
    assert (Fd : fits_int (day (advanced D n)) = true).
    { pose proof (days_in_month_bounds (year (advanced D n))
                    (month (advanced D n)) Hm) as Hb.
      pose proof (days_in_month_bounds (year D) (month D) ltac:(lia)).
      unfold advanced in *. cbn [year month day] in *.
      unfold fits_int, INT_MIN, INT_MAX. rewrite andb_true_iff, !Z.leb_le. lia. }
    rewrite Fm, Fd, !andb_true_r. reflexivity.
Qed.

(** ** Ordinals *)

Lemma isleap_spec (y : Z) :
  isleap y = true <-> (y mod 4 = 0 /\ (y mod 100 <> 0 \/ y mod 400 = 0)).
Proof.
  unfold isleap.
  rewrite andb_true_iff, orb_true_iff, negb_true_iff, !Z.eqb_eq, Z.eqb_neq.
  reflexivity.
Qed.

Lemma year_parts (a b c e : Z) :
  0 <= b <= 3 -> 0 <= c <= 24 -> 0 <= e <= 3 ->
  days_before_year (400 * a + 100 * b + 4 * c + e + 1)
    = 146097 * a + 36524 * b + 1461 * c + 365 * e
  /\ isleap (400 * a + 100 * b + 4 * c + e + 1)
    = (e =? 3) && (negb (c =? 24) || (b =? 3)).
Proof.
  intros Hb Hc He. split.
  - unfold days_before_year.
    replace (400 * a + 100 * b + 4 * c + e + 1 - 1)
      with (400 * a + 100 * b + 4 * c + e) by lia.
    Z.div_mod_to_equations. lia.
  - apply eq_true_iff_eq. rewrite isleap_spec.
    rewrite andb_true_iff, orb_true_iff, negb_true_iff, !Z.eqb_eq, Z.eqb_neq.
    Z.div_mod_to_equations. lia.
Qed.

Lemma ord2ymd_spec (n : Z) :
  let '(y, m, d) := ord2ymd n in
  1 <= m <= 12 /\ 1 <= d <= days_in_month y m /\ ymd2ord y m d = n.
Proof.
  unfold ord2ymd, DI400Y, DI100Y, DI4Y.
  pose proof (Z.div_mod (n - 1) 146097 ltac:(lia)) as E1.
  pose proof (Z.mod_pos_bound (n - 1) 146097 ltac:(lia)) as B1.
  set (n400 := (n - 1) / 146097) in *. set (r1 := (n - 1) mod 146097) in *.
  pose proof (Z.div_mod r1 36524 ltac:(lia)) as E2.
  pose proof (Z.mod_pos_bound r1 36524 ltac:(lia)) as B2.
  set (n100 := r1 / 36524) in *. set (r2 := r1 mod 36524) in *.
  pose proof (Z.div_mod r2 1461 ltac:(lia)) as E3.
  pose proof (Z.mod_pos_bound r2 1461 ltac:(lia)) as B3.
  set (n4 := r2 / 1461) in *. set (r3 := r2 mod 1461) in *.
  pose proof (Z.div_mod r3 365 ltac:(lia)) as E4.
  pose proof (Z.mod_pos_bound r3 365 ltac:(lia)) as B4.
  set (n1 := r3 / 365) in *. set (r4 := r3 mod 365) in *.
  clearbody n400 r1 n100 r2 n4 r3 n1 r4.
  assert (H100 : 0 <= n100 <= 4) by lia.
  assert (H4 : 0 <= n4 <= 24) by lia.
  assert (H1 : 0 <= n1 <= 4) by lia.
  destruct ((n1 =? 4) || (n100 =? 4)) eqn:Especial.
  - apply orb_true_iff in Especial. rewrite !Z.eqb_eq in Especial.
    unfold ymd2ord, days_before_month, days_in_month. cbn [mdays DAYS_BEFORE_MONTH].
    destruct Especial as [-> | ->].
    + assert (n4 <> 24) by lia. assert (n100 <= 3) by lia.
      replace (n400 * 400 + 1 + (n100 * 100 + n4 * 4 + 4) - 1)
        with (400 * n400 + 100 * n100 + 4 * n4 + 3 + 1) by lia.
      destruct (year_parts n400 n100 n4 3) as [-> ->]; try lia.
      replace (n4 =? 24) with false by (symmetry; apply Z.eqb_neq; lia).
      simpl. lia.
    + assert (n4 = 0 /\ n1 = 0) as [-> ->] by lia.
      replace (n400 * 400 + 1 + (4 * 100 + 0 * 4 + 0) - 1)
        with (400 * n400 + 100 * 3 + 4 * 24 + 3 + 1) by lia.
      destruct (year_parts n400 3 24 3) as [-> ->]; try lia.
      simpl. lia.
  - apply orb_false_iff in Especial. rewrite !Z.eqb_neq in Especial.
    destruct Especial as [N1 N100].
    set (leapyear := (n1 =? 3) && (negb (n4 =? 24) || (n100 =? 3))).
    replace (n400 * 400 + 1 + (n100 * 100 + n4 * 4 + n1))
      with (400 * n400 + 100 * n100 + 4 * n4 + n1 + 1) by lia.
    destruct (year_parts n400 n100 n4 n1) as [Hdby Hleap]; try lia.
    fold leapyear in Hleap.
    rewrite Z.shiftr_div_pow2 by lia. change (2 ^ 5) with 32.
    pose proof (Z.div_mod (r4 + 50) 32 ltac:(lia)) as E5.
    pose proof (Z.mod_pos_bound (r4 + 50) 32 ltac:(lia)) as B5.
    set (k := (r4 + 50) / 32) in *. set (r5 := (r4 + 50) mod 32) in *.
    clearbody k r5.
    assert (Hk : 1 <= k <= 12) by lia.
    unfold ymd2ord, days_before_month, days_in_month.
    clearbody leapyear.
    each_month k Hk; cbn [mdays DAYS_BEFORE_MONTH Z.ltb Z.eqb Z.compare Pos.compare Pos.compare_cont andb Z.sub Z.add Z.opp Z.pos_sub Pos.add Z.succ_double Z.pred_double Z.double Pos.pred_double Pos.succ];
      destruct leapyear; cbn [andb];
      match goal with
      | |- context [?a <? ?b] => destruct (Z.ltb_spec a b)
      end;
      rewrite ?Hdby, ?Hleap; simpl; try lia.
Qed.

Lemma days_before_year_succ (y : Z) :
  days_before_year (y + 1)
    = days_before_year y + 365 + (if isleap y then 1 else 0).
Proof.
  unfold days_before_year. replace (y + 1 - 1) with (y - 1 + 1) by lia.
  destruct (isleap y) eqn:E.
  - apply isleap_spec in E. Z.div_mod_to_equations. lia.
  - assert (N : ~ (y mod 4 = 0 /\ (y mod 100 <> 0 \/ y mod 400 = 0))).
    { rewrite <- isleap_spec. congruence. }
    Z.div_mod_to_equations. lia.
Qed.

Lemma days_before_year_mono (y1 y2 : Z) :
  y1 <= y2 -> days_before_year y1 <= days_before_year y2.
Proof.
  intros H. replace y2 with (y1 + Z.of_nat (Z.to_nat (y2 - y1))) by lia.
  induction (Z.to_nat (y2 - y1)) as [|k IH].
  - rewrite Z.add_0_r. lia.
  - replace (y1 + Z.of_nat (S k)) with (y1 + Z.of_nat k + 1) by lia.
    rewrite days_before_year_succ. destruct (isleap _); lia.
Qed.

(** Within its year a day has a rank between 1 and the length of the year. *)
Lemma day_of_year_bounds (y m d : Z) :
  1 <= m <= 12 -> 1 <= d <= days_in_month y m ->
  1 <= days_before_month y m + d <= 365 + (if isleap y then 1 else 0).
Proof.
  intros Hm. unfold days_before_month, days_in_month.
  each_month m Hm; simpl; destruct (isleap y); simpl; lia.
Qed.

Lemma ymd2ord_bounds (y m d : Z) :
  1 <= m <= 12 -> 1 <= d <= days_in_month y m ->
  days_before_year y + 1 <= ymd2ord y m d <= days_before_year (y + 1).
Proof.
  intros Hm Hd. unfold ymd2ord. rewrite days_before_year_succ.
  pose proof (day_of_year_bounds y m d Hm Hd). lia.
Qed.

Lemma day_of_year_inj (y m1 d1 m2 d2 : Z) :
  1 <= m1 <= 12 -> 1 <= d1 <= days_in_month y m1 ->
  1 <= m2 <= 12 -> 1 <= d2 <= days_in_month y m2 ->
  days_before_month y m1 + d1 = days_before_month y m2 + d2 ->
  m1 = m2 /\ d1 = d2.
Proof.
  intros H1 Hd1 H2 Hd2. revert Hd1 Hd2. unfold days_before_month, days_in_month.
  destruct (isleap y);
    each_month m1 H1; each_month m2 H2; simpl; lia.
Qed.

Lemma ymd2ord_inj (y1 m1 d1 y2 m2 d2 : Z) :
  1 <= m1 <= 12 -> 1 <= d1 <= days_in_month y1 m1 ->
  1 <= m2 <= 12 -> 1 <= d2 <= days_in_month y2 m2 ->
  ymd2ord y1 m1 d1 = ymd2ord y2 m2 d2 ->
  y1 = y2 /\ m1 = m2 /\ d1 = d2.
Proof.
  intros Hm1 Hd1 Hm2 Hd2 E.
  pose proof (ymd2ord_bounds y1 m1 d1 Hm1 Hd1) as B1.
  pose proof (ymd2ord_bounds y2 m2 d2 Hm2 Hd2) as B2.
  assert (y1 = y2) as ->.
  { destruct (Z.lt_trichotomy y1 y2) as [L | [? | L]]; [|assumption|].
    - pose proof (days_before_year_mono (y1 + 1) y2 ltac:(lia)). lia.
    - pose proof (days_before_year_mono (y2 + 1) y1 ltac:(lia)). lia. }
  split; [reflexivity|].
  unfold ymd2ord in E. apply (day_of_year_inj y2); try assumption. lia.
Qed.

Lemma ord2ymd_ymd2ord (y m d : Z) :
  1 <= m <= 12 -> 1 <= d <= days_in_month y m ->
  ord2ymd (ymd2ord y m d) = (y, m, d).
Proof.
  intros Hm Hd. pose proof (ord2ymd_spec (ymd2ord y m d)) as S.
  destruct (ord2ymd (ymd2ord y m d)) as [[y' m'] d'].
  destruct S as (Hm' & Hd' & E).
  destruct (ymd2ord_inj y' m' d' y m d Hm' Hd' Hm Hd E) as (-> & -> & ->).
  reflexivity.
Qed.

Lemma MAXORDINAL_eq : days_before_year 10000 = MAXORDINAL.
Proof. reflexivity. Qed.

(** [fromordinal], by the ordinals it goes on with. *)
Lemma fromordinal_cases (n : Z) :
  fromordinal n =
  if (1 <=? n) && (n <=? INT_MAX)
  then let '(y, m, d) := ord2ymd n in datetime_date y m d
  else Raise (if fits_int n then ValueError else OverflowError).
Proof.
  unfold fromordinal, fits_int, INT_MIN, INT_MAX.
  destruct (Z.leb_spec (-2147483648) n), (Z.leb_spec n 2147483647),
    (Z.ltb_spec n 1), (Z.leb_spec 1 n); cbn; try reflexivity; lia.
Qed.

Lemma fits_int_spec (n : Z) :
  fits_int n = true <-> -2147483648 <= n <= 2147483647.
Proof.
  unfold fits_int, INT_MIN, INT_MAX. rewrite andb_true_iff, !Z.leb_le. lia.
Qed.

Lemma MAXORDINAL_fits : MAXORDINAL < INT_MAX.
Proof. reflexivity. Qed.

(** [fromordinal] answers exactly on the ordinals 1 .. [MAXORDINAL]. *)
Lemma fromordinal_ok (n : Z) :
  1 <= n <= MAXORDINAL ->
  exists D, fromordinal n = Ok D /\ valid_date D = true /\ toordinal D = n.
Proof.
  intros Hn. rewrite fromordinal_cases.
  pose proof MAXORDINAL_fits.
  replace ((1 <=? n) && (n <=? INT_MAX)) with true
    by (symmetry; apply andb_true_iff; rewrite !Z.leb_le; lia).
  pose proof (ord2ymd_spec n) as S.
  destruct (ord2ymd n) as [[y m] d]. destruct S as (Hm & Hd & E).
  pose proof (ymd2ord_bounds y m d Hm Hd) as B.
  assert (1 <= y <= 9999).
  { split.
    - destruct (Z_lt_le_dec y 1) as [L|]; [|assumption].
      pose proof (days_before_year_mono (y + 1) 1 ltac:(lia)).
      change (days_before_year 1) with 0 in *. lia.
    - destruct (Z_lt_le_dec 9999 y) as [L|]; [|assumption].
      pose proof (days_before_year_mono 10000 y ltac:(lia)).
      rewrite MAXORDINAL_eq in *. lia. }
  assert (V : check_date_fields y m d = true)
    by (apply check_date_fields_spec; lia).
  exists (mkdate y m d). rewrite datetime_date_cases. unfold valid_date, toordinal.
  cbn [year month day]. rewrite V. auto.
Qed.

(** Outside them it raises: [OverflowError] when the ordinal is not a C int,
    [ValueError] otherwise. *)
Lemma fromordinal_out_of_range (n : Z) :
  ~ (1 <= n <= MAXORDINAL) ->
  fromordinal n = Raise (if fits_int n then ValueError else OverflowError).
Proof.
  intros Hn. rewrite fromordinal_cases.
  destruct ((1 <=? n) && (n <=? INT_MAX)) eqn:R; [|reflexivity].
  apply andb_true_iff in R. rewrite !Z.leb_le in R. unfold INT_MAX in R.
  pose proof (ord2ymd_spec n) as S.
  destruct (ord2ymd n) as [[y m] d]. destruct S as (Hm & Hd & E).
  pose proof (ymd2ord_bounds y m d Hm Hd) as B.
  rewrite datetime_date_cases.
  destruct (check_date_fields y m d) eqn:V.
  - apply check_date_fields_spec in V.
    pose proof (days_before_year_mono (y + 1) 10000 ltac:(lia)).
    rewrite MAXORDINAL_eq in *. lia.
  - assert (Fn : fits_int n = true) by (apply fits_int_spec; lia).
    assert (Fy : fits_int y = true).
    { apply fits_int_spec. split.
      - destruct (Z_lt_le_dec y 1) as [L|]; [|lia].
        pose proof (days_before_year_mono (y + 1) 1 ltac:(lia)).
        change (days_before_year 1) with 0 in *. lia.
      - destruct (Z_lt_le_dec 2147483647 y) as [L|]; [|assumption].
        pose proof (days_before_year_mono 2147483648 y ltac:(lia)) as M.
        change (days_before_year 2147483648) with 784352295939 in M. lia. }
    assert (Fm : fits_int m = true) by (apply fits_int_spec; lia).
    assert (Fd : fits_int d = true).
    { pose proof (days_in_month_bounds y m Hm). apply fits_int_spec; lia. }
    rewrite Fn, Fy, Fm, Fd. reflexivity.
Qed.

Lemma valid_date_spec (D : date) :
  valid_date D = true <->
  (1 <= year D <= 9999 /\ 1 <= month D <= 12
   /\ 1 <= day D <= days_in_month (year D) (month D)).
Proof. apply check_date_fields_spec. Qed.

Lemma toordinal_range (D : date) :
  valid_date D = true -> 1 <= toordinal D <= MAXORDINAL.
Proof.
  intros V. apply valid_date_spec in V. destruct V as (Hy & Hm & Hd).
  pose proof (ymd2ord_bounds _ _ _ Hm Hd) as B. fold (toordinal D) in B.
  pose proof (days_before_year_mono 1 (year D) ltac:(lia)).
  pose proof (days_before_year_mono (year D + 1) 10000 ltac:(lia)).
  change (days_before_year 1) with 0 in *. rewrite MAXORDINAL_eq in *. lia.
Qed.

Lemma fromordinal_toordinal (D : date) :
  valid_date D = true -> fromordinal (toordinal D) = Ok D.
Proof.
  intros V. pose proof (toordinal_range D V) as R.
  apply valid_date_spec in V. destruct V as (Hy & Hm & Hd).
  rewrite fromordinal_cases. pose proof MAXORDINAL_fits.
  replace ((1 <=? toordinal D) && (toordinal D <=? INT_MAX)) with true
    by (symmetry; apply andb_true_iff; rewrite !Z.leb_le; lia).
  unfold toordinal. rewrite ord2ymd_ymd2ord by assumption.
  rewrite datetime_date_cases.
  replace (check_date_fields _ _ _) with true
    by (symmetry; apply check_date_fields_spec; lia).
  destruct D; reflexivity.
Qed.

(** ** One day forward, one day back *)

Lemma days_before_month_succ (y m : Z) :
  1 <= m <= 11 ->
  days_before_month y (m + 1) = days_before_month y m + days_in_month y m.
Proof.
  intros Hm. unfold days_before_month, days_in_month.
  assert (Hm' : 1 <= m <= 12) by lia.
  each_month m Hm'; simpl; destruct (isleap y); simpl; lia.
Qed.

Lemma next_day_some (D D' : date) :
  valid_date D = true -> next_day D = Some D' ->
  valid_date D' = true /\ toordinal D' = toordinal D + 1.
Proof.
  intros V. apply valid_date_spec in V. destruct V as (Hy & Hm & Hd).
  unfold next_day, MAXYEAR.
  destruct (Z.ltb_spec (day D) (days_in_month (year D) (month D))).
  { intros [= <-]. rewrite valid_date_spec. unfold toordinal, ymd2ord.
    cbn [year month day]. lia. }
  destruct (Z.ltb_spec (month D) 12).
  { intros [= <-]. rewrite valid_date_spec. unfold toordinal, ymd2ord.
    cbn [year month day].
    pose proof (days_in_month_bounds (year D) (month D + 1) ltac:(lia)).
    rewrite days_before_month_succ by lia. lia. }
  destruct (Z.ltb_spec (year D) 9999); [|discriminate].
  intros [= <-]. rewrite valid_date_spec. unfold toordinal, ymd2ord.
  cbn [year month day]. rewrite days_before_year_succ.
  assert (month D = 12) as Em by lia. rewrite Em in *.
  unfold days_before_month, days_in_month in *. simpl in *.
  destruct (isleap (year D)), (isleap (year D + 1)); simpl; lia.
Qed.

Lemma next_day_none (D : date) :
  valid_date D = true -> next_day D = None -> toordinal D = MAXORDINAL.
Proof.
  intros V. apply valid_date_spec in V. destruct V as (Hy & Hm & Hd).
  unfold next_day, MAXYEAR.
  destruct (Z.ltb_spec (day D) (days_in_month (year D) (month D))); [discriminate|].
  destruct (Z.ltb_spec (month D) 12); [discriminate|].
  destruct (Z.ltb_spec (year D) 9999); [discriminate|].
  intros _. unfold toordinal.
  assert (year D = 9999) as Ey by lia. assert (month D = 12) as Em by lia.
  rewrite Ey, Em in *. change (days_in_month 9999 12) with 31 in *.
  assert (day D = 31) as -> by lia. reflexivity.
Qed.

Lemma prev_day_some (D D' : date) :
  valid_date D = true -> prev_day D = Some D' ->
  valid_date D' = true /\ toordinal D' = toordinal D - 1.
Proof.
  intros V. apply valid_date_spec in V. destruct V as (Hy & Hm & Hd).
  unfold prev_day, MINYEAR.
  destruct (Z.ltb_spec 1 (day D)).
  { intros [= <-]. rewrite valid_date_spec. unfold toordinal, ymd2ord.
    cbn [year month day]. lia. }
  destruct (Z.ltb_spec 1 (month D)).
  { intros [= <-]. rewrite valid_date_spec. unfold toordinal, ymd2ord.
    cbn [year month day].
    pose proof (days_in_month_bounds (year D) (month D - 1) ltac:(lia)).
    pose proof (days_before_month_succ (year D) (month D - 1) ltac:(lia)) as S.
    replace (month D - 1 + 1) with (month D) in S by lia. lia. }
  destruct (Z.ltb_spec 1 (year D)); [|discriminate].
  intros [= <-]. rewrite valid_date_spec. unfold toordinal, ymd2ord.
  cbn [year month day].
  pose proof (days_before_year_succ (year D - 1)) as S.
  replace (year D - 1 + 1) with (year D) in S by lia.
  assert (month D = 1) as Em by lia. rewrite Em in *.
  unfold days_before_month, days_in_month in *. simpl in *.
  destruct (isleap (year D - 1)), (isleap (year D)); simpl; lia.
Qed.

Lemma prev_day_none (D : date) :
  valid_date D = true -> prev_day D = None -> toordinal D = 1.
Proof.
  intros V. apply valid_date_spec in V. destruct V as (Hy & Hm & Hd).
  unfold prev_day, MINYEAR.
  destruct (Z.ltb_spec 1 (day D)); [discriminate|].
  destruct (Z.ltb_spec 1 (month D)); [discriminate|].
  destruct (Z.ltb_spec 1 (year D)); [discriminate|].
  intros _. unfold toordinal.
  assert (year D = 1) as -> by lia. assert (month D = 1) as -> by lia.
  assert (day D = 1) as -> by lia. reflexivity.
Qed.

Lemma fromordinal_later (k : nat) (D : date) :
  valid_date D = true ->
  fromordinal (toordinal D + Z.of_nat k)
    = match days_later k D with
      | Some D' => Ok D'
      | None => Raise (if fits_int (toordinal D + Z.of_nat k)
                       then ValueError else OverflowError)
      end.
Proof.
  revert D. induction k as [|k IH]; intros D V.
  - cbn [days_later]. rewrite Z.add_0_r. apply fromordinal_toordinal, V.
  - cbn [days_later]. destruct (next_day D) as [D'|] eqn:E.
    + destruct (next_day_some D D' V E) as [V' T'].
      replace (toordinal D + Z.of_nat (S k)) with (toordinal D' + Z.of_nat k)
        by lia.
      apply IH, V'.
    + pose proof (next_day_none D V E).
      apply fromordinal_out_of_range. lia.
Qed.

Lemma fromordinal_earlier (k : nat) (D : date) :
  valid_date D = true ->
  fromordinal (toordinal D - Z.of_nat k)
    = match days_earlier k D with
      | Some D' => Ok D'
      | None => Raise (if fits_int (toordinal D - Z.of_nat k)
                       then ValueError else OverflowError)
      end.
Proof.
  revert D. induction k as [|k IH]; intros D V.
  - cbn [days_earlier]. rewrite Z.sub_0_r. apply fromordinal_toordinal, V.
  - cbn [days_earlier]. destruct (prev_day D) as [D'|] eqn:E.
    + destruct (prev_day_some D D' V E) as [V' T'].
      replace (toordinal D - Z.of_nat (S k)) with (toordinal D' - Z.of_nat k)
        by lia.
      apply IH, V'.
    + pose proof (prev_day_none D V E).
      apply fromordinal_out_of_range. lia.
Qed.

(** An ordinal [fromordinal] answers on lies in 1 .. [MAXORDINAL]. *)
Lemma fromordinal_Ok_range (n : Z) (D : date) :
  fromordinal n = Ok D -> 1 <= n <= MAXORDINAL.
Proof.
  intros E. destruct (Z_le_dec 1 n); [destruct (Z_le_dec n MAXORDINAL)|];
    try lia; rewrite fromordinal_out_of_range in E by lia; discriminate.
Qed.

(** ** The padded limits of a month *)

(** With an overlap that is not negative the two limits are the days of the
    reference window; when that window does not exist the exception is the
    one of the ordinal of the first limit: [OverflowError] when it is not a C
    int, [ValueError] otherwise. *)
Lemma datestr_overlap_eq (V y m : Z) :
  1 <= y <= 9999 -> 1 <= m <= 12 -> 0 <= V ->
  Request.datestr_overlap V y m
    = match reference_window V y m with
      | Some w => Ok (w_start w, w_end w)
      | None => Raise (if fits_int (ymd2ord y m 1 - V)
                       then ValueError else OverflowError)
      end.
Proof.
  intros Hy Hm HV. unfold Request.datestr_overlap, reference_window.
  rewrite monthrange_ndays_ok by assumption. cbn [bind].
  pose proof (days_in_month_bounds y m Hm) as Hd.
  assert (V1 : valid_date (mkdate y m 1) = true)
    by (apply valid_date_spec; cbn [year month day]; lia).
  assert (V2 : valid_date (mkdate y m (days_in_month y m)) = true)
    by (apply valid_date_spec; cbn [year month day]; lia).
  rewrite !datetime_date_cases.
  pose proof V1 as C1. pose proof V2 as C2.
  unfold valid_date in C1, C2. cbn [year month day] in C1, C2.
  rewrite C1, C2. cbn [bind].
  fold (valid_date (mkdate y m 1)) in V1.
  fold (valid_date (mkdate y m (days_in_month y m))) in V2.
  pose proof (fromordinal_earlier (Z.to_nat V) _ V1) as E1.
  pose proof (fromordinal_later (Z.to_nat V) _ V2) as E2.
  rewrite Z2Nat.id in E1, E2 by assumption.
  pose proof (toordinal_range _ V1) as R1.
  pose proof (toordinal_range _ V2) as R2.
  rewrite E1. destruct (days_earlier _ _); [|reflexivity].
  apply fromordinal_Ok_range in E1. unfold MAXORDINAL in E1, R1, R2.
  cbn [bind]. rewrite E2. destruct (days_later _ _); [reflexivity|].
  change (ymd2ord y m 1) with (toordinal (mkdate y m 1)).
  replace (fits_int (toordinal (mkdate y m 1) - V)) with true
    by (symmetry; apply fits_int_spec; lia).
  replace (fits_int (toordinal (mkdate y m (days_in_month y m)) + V)) with true
    by (symmetry; apply fits_int_spec; lia).
  reflexivity.
Qed.

Lemma date_overlap_eq (V y m : Z) :
  Analysis.date_overlap V y m = Request.datestr_overlap V y m.
Proof. reflexivity. Qed.

Lemma datestr_overlap_inv (V y m : Z) (s e : string) :
  1 <= y <= 9999 -> 1 <= m <= 12 -> 0 <= V ->
  Request.datestr_overlap V y m = Ok (s, e) ->
  reference_window V y m = Some (mkwindow y m s e).
Proof.
  intros Hy Hm HV. rewrite datestr_overlap_eq by assumption.
  unfold reference_window.
  destruct (days_earlier _ _); [|discriminate].
  destruct (days_later _ _); [|discriminate].
  cbn [w_start w_end]. intros [= <- <-]. reflexivity.
Qed.

(** ** The month cursor *)

Lemma addmonths4date_inv (D D' : date) (n : Z) :
  Utilities.addmonths4date D n = Ok D' ->
  D' = advanced D n /\ valid_date D' = true.
Proof.
  rewrite addmonths4date_unfold, datetime_date_cases. unfold valid_date.
  destruct (check_date_fields _ _ _) eqn:E; [|discriminate].
  intros [= <-]. cbn [year month day]. split; [reflexivity|exact E].
Qed.

Lemma advanced_first_day (D : date) (n : Z) :
  day D = 1 -> day (advanced D n) = 1.
Proof.
  intros E. unfold advanced. cbn [day]. rewrite E.
  pose proof (advanced_index D n) as [_ Hm].
  unfold advanced in Hm. cbn [month] in Hm.
  pose proof (days_in_month_bounds
    (year D + (month D - 1 + n) / 12) ((month D - 1 + n) mod 12 + 1) Hm). lia.
Qed.

Lemma advanced_rank (D : date) (n : Z) :
  month_rank (year (advanced D n)) (month (advanced D n))
    = month_rank (year D) (month D) + n.
Proof. unfold month_rank. pose proof (advanced_index D n). lia. Qed.

Lemma rank_order (y1 m1 y2 m2 : Z) :
  1 <= m1 <= 12 -> 1 <= m2 <= 12 ->
  month_rank y1 m1 <= month_rank y2 m2 ->
  y1 < y2 \/ (y1 = y2 /\ m1 <= m2).
Proof. unfold month_rank. lia. Qed.

Lemma first_ord_mono (y1 m1 y2 m2 : Z) :
  1 <= m1 <= 12 -> 1 <= m2 <= 12 ->
  month_rank y1 m1 <= month_rank y2 m2 ->
  ymd2ord y1 m1 1 <= ymd2ord y2 m2 1.
Proof.
  intros H1 H2 R.
  pose proof (days_in_month_bounds y1 m1 H1).
  pose proof (days_in_month_bounds y2 m2 H2).
  destruct (rank_order _ _ _ _ H1 H2 R) as [L | [<- L]].
  - pose proof (ymd2ord_bounds y1 m1 1 H1 ltac:(lia)).
    pose proof (ymd2ord_bounds y2 m2 1 H2 ltac:(lia)).
    pose proof (days_before_year_mono (y1 + 1) y2 ltac:(lia)). lia.
  - clear R. revert L. unfold ymd2ord, days_before_month.
    destruct (isleap y1); each_month m1 H1; each_month m2 H2; simpl; lia.
Qed.

Lemma last_ord_mono (y1 m1 y2 m2 : Z) :
  1 <= m1 <= 12 -> 1 <= m2 <= 12 ->
  month_rank y1 m1 <= month_rank y2 m2 ->
  ymd2ord y1 m1 (days_in_month y1 m1) <= ymd2ord y2 m2 (days_in_month y2 m2).
Proof.
  intros H1 H2 R.
  pose proof (days_in_month_bounds y1 m1 H1).
  pose proof (days_in_month_bounds y2 m2 H2).
  destruct (rank_order _ _ _ _ H1 H2 R) as [L | [<- L]].
  - pose proof (ymd2ord_bounds y1 m1 (days_in_month y1 m1) H1 ltac:(lia)).
    pose proof (ymd2ord_bounds y2 m2 (days_in_month y2 m2) H2 ltac:(lia)).
    pose proof (days_before_year_mono (y1 + 1) y2 ltac:(lia)). lia.
  - clear R H H0. revert L. unfold ymd2ord, days_before_month, days_in_month.
    destruct (isleap y1); each_month m1 H1; each_month m2 H2; simpl; lia.
Qed.

Lemma datestr_overlap_ok (V y m : Z) :
  1 <= y <= 9999 -> 1 <= m <= 12 -> 0 <= V ->
  V < ymd2ord y m 1 ->
  ymd2ord y m (days_in_month y m) + V <= MAXORDINAL ->
  exists s e, Request.datestr_overlap V y m = Ok (s, e).
Proof.
  intros Hy Hm HV Hlo Hhi.
  pose proof (days_in_month_bounds y m Hm) as Hd.
  assert (V1 : valid_date (mkdate y m 1) = true)
    by (apply valid_date_spec; cbn [year month day]; lia).
  assert (V2 : valid_date (mkdate y m (days_in_month y m)) = true)
    by (apply valid_date_spec; cbn [year month day]; lia).
  pose proof (toordinal_range _ V1) as R1.
  pose proof (toordinal_range _ V2) as R2.
  unfold toordinal in R1, R2. cbn [year month day] in R1, R2.
  unfold Request.datestr_overlap.
  rewrite monthrange_ndays_ok by assumption. cbn [bind].
  rewrite !datetime_date_cases.
  unfold valid_date in V1, V2. cbn [year month day] in V1, V2.
  rewrite V1, V2. cbn [bind]. unfold toordinal. cbn [year month day].
  destruct (fromordinal_ok (ymd2ord y m 1 - V) ltac:(lia)) as (D1 & -> & _).
  cbn [bind].
  destruct (fromordinal_ok (ymd2ord y m (days_in_month y m) + V) ltac:(lia))
    as (D2 & -> & _).
  cbn [bind]. eauto.
Qed.

(** ** The loop over the months *)

Section MonthlyLoop.

Variable cfg : Request.config.
Hypothesis overlap_nonneg : 0 <= Request.n_overlap cfg.

Local Abbreviation V := (Request.n_overlap cfg).


(** The [i]-th window handed out is for the [i]-th month after the cursor. *)
Lemma windows_loop_lookup (j : nat) (d : date) (i : nat) (w : window) :
  valid_date d = true ->
  (Request.monthly_loop cfg (fun w => ([w], None)) j d).1 !! i = Some w ->
  month_rank (w_year w) (w_month w)
    = month_rank (year d) (month d) + Z.of_nat i
  /\ 1 <= w_year w <= 9999 /\ 1 <= w_month w <= 12
  /\ reference_window V (w_year w) (w_month w) = Some w.
Proof.
  revert d i. induction j as [|j IH]; intros d i Vd; cbn [Request.monthly_loop].
  { cbn. discriminate. }
  pose proof Vd as Vd0.
  apply valid_date_spec in Vd. destruct Vd as (Hy & Hm & Hd).
  destruct (Request.datestr_overlap _ _ _) as [[s e]|] eqn:E.
  2:{ cbn. discriminate. }
  apply datestr_overlap_inv in E; try assumption.
  assert (Hhead : forall w0, Some (mkwindow (year d) (month d) s e) = Some w0 ->
    month_rank (w_year w0) (w_month w0) = month_rank (year d) (month d) + 0
    /\ 1 <= w_year w0 <= 9999 /\ 1 <= w_month w0 <= 12
    /\ reference_window V (w_year w0) (w_month w0) = Some w0).
  { intros w0 [= <-]. cbn [w_year w_month]. repeat split; try lia. exact E. }
  destruct (Utilities.addmonths4date d 1) as [d'|] eqn:Ad; cbn [fst].
  2:{ destruct i as [|i]; cbn; [apply Hhead | discriminate]. }
  apply addmonths4date_inv in Ad. destruct Ad as [-> Vd'].
  specialize (IH (advanced d 1)).
  destruct (Request.monthly_loop cfg _ j (advanced d 1)) as [outs exc'].
  cbn [fst] in *. destruct i as [|i]; cbn.
  { apply Hhead. }
  intros H. destruct (IH i Vd' H) as (R & ?).
  rewrite advanced_rank in R. split; [lia | assumption].
Qed.

(** When the first padded start and the last padded end are dates, every
    month of the range gets its window. *)
Lemma windows_loop_length (j : nat) (d : date) (ey em : Z) :
  valid_date d = true -> day d = 1 ->
  V < toordinal d ->
  1 <= ey <= 9999 -> 1 <= em <= 12 ->
  month_rank ey em = month_rank (year d) (month d) + Z.of_nat j - 1 ->
  ymd2ord ey em (days_in_month ey em) + V <= MAXORDINAL ->
  length (Request.monthly_loop cfg (fun w => ([w], None)) j d).1 = j
  /\ (month_rank ey em < month_rank 9999 12 ->
      (Request.monthly_loop cfg (fun w => ([w], None)) j d).2 = None).
Proof.
  revert d. induction j as [|j IH]; intros d Vd Dd Hlo Hey Hem Hrank Hhi;
    cbn [Request.monthly_loop].
  { cbn. auto. }
  pose proof Vd as Vd0.
  apply valid_date_spec in Vd. destruct Vd as (Hy & Hm & Hd).
  assert (Td : toordinal d = ymd2ord (year d) (month d) 1)
    by (unfold toordinal; rewrite Dd; reflexivity).
  pose proof (last_ord_mono (year d) (month d) ey em Hm Hem ltac:(lia)) as Hlast.
  destruct (datestr_overlap_ok V (year d) (month d) Hy Hm overlap_nonneg
              ltac:(lia) ltac:(lia)) as (s & e & E).
  rewrite E.
  destruct j as [|j].
  { destruct (Utilities.addmonths4date d 1) as [d'|] eqn:Ad; cbn.
    - auto.
    - split; [reflexivity|]. intros Hr.
      destruct (addmonths4date_ok d 1 Vd0) as [Ad' _].
      { unfold month_rank in *. lia. }
      rewrite Ad' in Ad. discriminate. }
  assert (Hr : month_rank (year d) (month d) + 1 <= month_rank ey em) by lia.
  destruct (addmonths4date_ok d 1 Vd0) as [Ad Vd'].
  { unfold month_rank in *. lia. }
  rewrite Ad.
  specialize (IH (advanced d 1) Vd' (advanced_first_day d 1 Dd)).
  pose proof (advanced_rank d 1) as R.
  pose proof (advanced_index d 1) as [_ Hm'].
  assert (Hlo' : V < toordinal (advanced d 1)).
  { unfold toordinal at 1. rewrite (advanced_first_day d 1 Dd).
    pose proof (first_ord_mono (year d) (month d)
      (year (advanced d 1)) (month (advanced d 1)) Hm Hm' ltac:(lia)). lia. }
  destruct (IH Hlo' Hey Hem ltac:(lia) Hhi) as [L N].
  destruct (Request.monthly_loop cfg _ (S j) (advanced d 1)) as [outs exc'].
  cbn [fst snd length app] in *. split; [lia | exact N].
Qed.

End MonthlyLoop.

(** The analysis script runs the same loop over the months. *)
Lemma mdates_loop_eq {A : Type} (c : Analysis.config)
    (consume : window -> outcome A) (j : nat) (d : date) :
  Analysis.mdates_loop c consume j d
    = Request.monthly_loop (as_request c) consume j d.
Proof. reflexivity. Qed.

Lemma mdates_eq {A : Type} (c : Analysis.config) (consume : window -> outcome A) :
  Analysis.mdates c consume = Request.monthly_dates (as_request c) consume.
Proof. reflexivity. Qed.

Lemma analysis_date_windows_eq (c : Analysis.config) :
  Analysis.date_windows c = Request.date_windows (as_request c).
Proof. reflexivity. Qed.

Lemma first_of_month_valid (y m : Z) :
  valid_month y m -> check_date_fields y m 1 = true.
Proof.
  intros [Hy Hm]. apply check_date_fields_spec.
  pose proof (days_in_month_bounds y m Hm). lia.
Qed.

Lemma monthly_dates_unfold {A : Type} (cfg : Request.config)
    (consume : window -> outcome A) :
  valid_month (Request.year_start cfg) (Request.month_start cfg) ->
  valid_month (Request.year_end cfg) (Request.month_end cfg) ->
  Request.monthly_dates cfg consume
    = Request.monthly_loop cfg consume
        (Z.to_nat ((Request.year_end cfg - Request.year_start cfg) * 12
                   + (Request.month_end cfg - Request.month_start cfg) + 1))
        (mkdate (Request.year_start cfg) (Request.month_start cfg) 1).
Proof.
  intros Hs He. unfold Request.monthly_dates.
  rewrite !datetime_date_cases.
  rewrite (first_of_month_valid _ _ Hs), (first_of_month_valid _ _ He).
  reflexivity.
Qed.

(** ** File names *)

Lemma list_ascii_of_app (a b : string) :
  list_ascii_of_string (a +:+ b)
    = list_ascii_of_string a ++ list_ascii_of_string b.
Proof.
  induction a as [|c a IH]; [reflexivity|].
  change (String c a +:+ b) with (String c (a +:+ b)).
  cbn [list_ascii_of_string]. rewrite IH. reflexivity.
Qed.

Lemma list_ascii_of_string_inj (a b : string) :
  list_ascii_of_string a = list_ascii_of_string b -> a = b.
Proof.
  intros H. rewrite <- (string_of_list_ascii_of_string a),
    <- (string_of_list_ascii_of_string b), H. reflexivity.
Qed.

(** Two lists cut at a mark that occurs in neither front part agree part by
    part. *)
Lemma split_at_mark {A : Type} (y : A) (a1 a2 b1 b2 : list A) :
  y ∉ a1 -> y ∉ a2 -> a1 ++ y :: b1 = a2 ++ y :: b2 -> a1 = a2 /\ b1 = b2.
Proof.
  revert a2. induction a1 as [|x a1 IH]; intros [|x' a2] N1 N2 E; cbn in E.
  - injection E as ->. auto.
  - injection E as -> _. exfalso. apply N2. left.
  - injection E as -> _. exfalso. apply N1. left.
  - injection E as -> E.
    destruct (IH a2) as [-> ->]; auto.
    + intros H. apply N1. right. exact H.
    + intros H. apply N2. right. exact H.
Qed.

Lemma uint_digits (d : Decimal.uint) :
  Forall (fun c => is_digit c = true)
    (list_ascii_of_string (NilEmpty.string_of_uint d)).
Proof. induction d; cbn; constructor; auto. Qed.

Lemma str_int_pos (p : positive) :
  str_int (Z.pos p) = NilEmpty.string_of_uint (Pos.to_uint p).
Proof.
  unfold str_int. cbn [Z.to_int NilZero.string_of_int].
  pose proof (DecimalPos.Unsigned.to_uint_nonnil p) as N.
  unfold NilZero.string_of_uint. destruct (Pos.to_uint p); congruence.
Qed.

Lemma str_int_digits (y : Z) :
  1 <= y -> Forall (fun c => is_digit c = true) (list_ascii_of_string (str_int y)).
Proof.
  intros H. destruct y as [|p|p]; try lia.
  rewrite str_int_pos. apply uint_digits.
Qed.

Lemma str_int_inj (y1 y2 : Z) :
  1 <= y1 -> 1 <= y2 -> str_int y1 = str_int y2 -> y1 = y2.
Proof.
  intros H1 H2. destruct y1 as [|p1|p1], y2 as [|p2|p2]; try lia.
  rewrite !str_int_pos. intros E.
  assert (E' : Some (Pos.to_uint p1) = Some (Pos.to_uint p2))
    by (rewrite <- !NilEmpty.usu, E; reflexivity).
  injection E' as E'. apply DecimalPos.Unsigned.to_uint_inj in E'. congruence.
Qed.

Lemma month_digits (m : Z) :
  1 <= m <= 12 ->
  length (list_ascii_of_string (zfill 2 (str_int m))) = 2%nat
  /\ Forall (fun c => is_digit c = true)
       (list_ascii_of_string (zfill 2 (str_int m))).
Proof.
  intros H. each_month m H; (split; [reflexivity | repeat constructor]).
Qed.

Lemma month_digits_inj (m1 m2 : Z) :
  1 <= m1 <= 12 -> 1 <= m2 <= 12 ->
  zfill 2 (str_int m1) = zfill 2 (str_int m2) -> m1 = m2.
Proof.
  intros H1 H2. each_month m1 H1; each_month m2 H2;
    intros E; try reflexivity; vm_compute in E; discriminate E.
Qed.

(** The name of a file tells the label of the variable, the year and the
    month it was made from. *)
Lemma fname_inj (a1 a2 : string) (y1 m1 y2 m2 : Z) :
  1 <= y1 -> 1 <= m1 <= 12 -> 1 <= y2 -> 1 <= m2 <= 12 ->
  Analysis.fname a1 y1 m1 = Analysis.fname a2 y2 m2 ->
  a1 = a2 /\ y1 = y2 /\ m1 = m2.
Proof.
  intros Hy1 Hm1 Hy2 Hm2 E. unfold Analysis.fname in E.
  apply (f_equal list_ascii_of_string) in E.
  rewrite !list_ascii_of_app in E.
  apply app_inv_head in E.
  change (list_ascii_of_string "_Y") with (["_"; "Y"]%char : list ascii) in E.
  change (list_ascii_of_string "M") with (["M"]%char : list ascii) in E.
  destruct (month_digits m1 Hm1) as [L1 _].
  destruct (month_digits m2 Hm2) as [L2 _].
  set (v1 := list_ascii_of_string a1) in *.
  set (v2 := list_ascii_of_string a2) in *.
  set (d1 := list_ascii_of_string (str_int y1)) in *.
  set (d2 := list_ascii_of_string (str_int y2)) in *.
  set (t1 := list_ascii_of_string (zfill 2 (str_int m1))) in *.
  set (t2 := list_ascii_of_string (zfill 2 (str_int m2))) in *.
  set (nc := list_ascii_of_string ".nc") in *.
  assert (E' : (v1 ++ "_"%char :: "Y"%char :: d1) ++ ("M"%char :: t1 ++ nc)
             = (v2 ++ "_"%char :: "Y"%char :: d2) ++ ("M"%char :: t2 ++ nc)).
  { rewrite <- !app_assoc. cbn. cbn in E. exact E. }
  apply app_inj_2 in E'; [|cbn; rewrite !length_app, L1, L2; reflexivity].
  destruct E' as [Eh Et].
  injection Et as Et. apply app_inv_tail in Et.
  apply (f_equal reverse) in Eh.
  rewrite !reverse_app, !reverse_cons, <- !app_assoc in Eh. cbn in Eh.
  apply split_at_mark in Eh.
  - destruct Eh as [Ed Ev]. injection Ev as Ev.
    apply (inj reverse) in Ed. apply (inj reverse) in Ev.
    repeat split.
    + apply list_ascii_of_string_inj. exact Ev.
    + apply str_int_inj; try assumption.
      apply list_ascii_of_string_inj. exact Ed.
    + apply month_digits_inj; try assumption.
      apply list_ascii_of_string_inj. exact Et.
  - rewrite elem_of_reverse. intros H.
    pose proof (str_int_digits y1 Hy1) as F. rewrite Forall_forall in F.
    specialize (F _ H). discriminate F.
  - rewrite elem_of_reverse. intros H.
    pose proof (str_int_digits y2 Hy2) as F. rewrite Forall_forall in F.
    specialize (F _ H). discriminate F.
Qed.

(** ** One request *)

Lemma request_inv (cfg : Request.config) (era5 : gmap string (list string))
    (w : window) (vname : string) (c : call) :
  Request.request cfg era5 w vname = Ok c ->
  exists entry vlong vlevt,
    era5 !! vname = Some entry
    /\ entry !! 0%nat = Some vlong /\ entry !! 3%nat = Some vlevt
    /\ c = mkcall (Request.product vlong)
             (Request.options (Request.vdate w) vlong vlevt
                (Request.varea cfg) (Request.time cfg))
             (Request.era5_dir cfg +:+ "/"
                +:+ Request.fname vname (w_year w) (w_month w)).
Proof.
  unfold Request.request, dict_getitem, getitem.
  destruct (era5 !! vname) as [entry|] eqn:E; [|discriminate]. cbn [bind].
  destruct (entry !! 0%nat) as [vlong|] eqn:E0; [|discriminate]. cbn [bind].
  destruct (entry !! 3%nat) as [vlevt|] eqn:E3; [|discriminate]. cbn [bind].
  intros [= <-]. exists entry, vlong, vlevt. repeat split; assumption.
Qed.

Lemma analysis_request_inv (cfg : Analysis.config)
    (era5 : gmap string (list string)) (w : window) (vname : string) (c : call) :
  Analysis.request cfg era5 w vname = Ok c ->
  exists entry vlevt vabbr,
    era5 !! vname = Some entry
    /\ entry !! 1%nat = Some vlevt /\ entry !! 2%nat = Some vabbr
    /\ c = mkcall (Analysis.product vname)
             (Analysis.options (Analysis.date w) vname vlevt
                (Analysis.area cfg) (Analysis.time cfg))
             (Analysis.era5_dir cfg +:+ "/"
                +:+ Analysis.fname vabbr (w_year w) (w_month w)).
Proof.
  unfold Analysis.request, dict_getitem, getitem.
  destruct (era5 !! vname) as [entry|] eqn:E; [|discriminate]. cbn [bind].
  destruct (entry !! 1%nat) as [vlevt|] eqn:E1; [|discriminate]. cbn [bind].
  destruct (entry !! 2%nat) as [vabbr|] eqn:E2; [|discriminate]. cbn [bind].
  intros [= <-]. exists entry, vlevt, vabbr. repeat split; assumption.
Qed.

Lemma options_eq (date vname vlevt : string) (area : list Z) (time : string) :
  Analysis.options date vname vlevt area time
    = Request.options date vname vlevt area time.
Proof. reflexivity. Qed.

Lemma product_eq (vname : string) :
  Analysis.product vname = Request.product vname.
Proof. reflexivity. Qed.

Lemma options_variable (vdate vlong vlevt : string) (varea : list Z) (time : string) :
  Request.options vdate vlong vlevt varea time !! "variable" = Some (PStr vlong).
Proof.
  unfold Request.options.
  destruct (String.eqb vlong "sea_surface_temperature");
    destruct (String.eqb vlong "specific_humidity" || String.eqb vlong "relative_humidity");
    by simplify_map_eq.
Qed.

Lemma options_levtype (vdate vlong vlevt : string) (varea : list Z) (time : string) :
  Request.options vdate vlong vlevt varea time !! "levtype" = Some (PStr vlevt).
Proof.
  unfold Request.options.
  destruct (String.eqb vlong "sea_surface_temperature");
    destruct (String.eqb vlong "specific_humidity" || String.eqb vlong "relative_humidity");
    by simplify_map_eq.
Qed.

Lemma options_time (vdate vlong vlevt : string) (varea : list Z) (time : string) :
  Request.options vdate vlong vlevt varea time !! "time"
    = Some (PStr (if String.eqb vlong "sea_surface_temperature"
                  then "12" else time)).
Proof.
  unfold Request.options.
  destruct (String.eqb vlong "sea_surface_temperature");
    destruct (String.eqb vlong "specific_humidity" || String.eqb vlong "relative_humidity");
    by simplify_map_eq.
Qed.

Lemma options_pressure_level (vdate vlong vlevt : string) (varea : list Z)
    (time : string) :
  Request.options vdate vlong vlevt varea time !! "pressure_level"
    = if (String.eqb vlong "specific_humidity"
          || String.eqb vlong "relative_humidity")%bool
      then Some (PStr "1000") else None.
Proof.
  unfold Request.options.
  destruct (String.eqb vlong "sea_surface_temperature");
    destruct (String.eqb vlong "specific_humidity" || String.eqb vlong "relative_humidity");
    by simplify_map_eq.
Qed.

Lemma options_date (vdate vlong vlevt : string) (varea : list Z) (time : string) :
  Request.options vdate vlong vlevt varea time !! "date" = Some (PStr vdate).
Proof.
  unfold Request.options.
  destruct (String.eqb vlong "sea_surface_temperature");
    destruct (String.eqb vlong "specific_humidity" || String.eqb vlong "relative_humidity");
    by simplify_map_eq.
Qed.

Lemma options_area (vdate vlong vlevt : string) (varea : list Z) (time : string) :
  Request.options vdate vlong vlevt varea time !! "area" = Some (PArea varea).
Proof.
  unfold Request.options.
  destruct (String.eqb vlong "sea_surface_temperature");
    destruct (String.eqb vlong "specific_humidity" || String.eqb vlong "relative_humidity");
    by simplify_map_eq.
Qed.

Lemma options_hours_rule (vdate vlong vlevt : string) (varea : list Z)
    (time product output : string) :
  hours_rule time vlong
    (mkcall product (Request.options vdate vlong vlevt varea time) output).
Proof.
  unfold hours_rule. cbn [c_options]. rewrite options_variable, options_time.
  split; [reflexivity|]. split.
  - intros ->. reflexivity.
  - intros N. apply String.eqb_neq in N. rewrite N. reflexivity.
Qed.

Lemma options_pressure_rule (vdate vlong vlevt : string) (varea : list Z)
    (time output : string) :
  pressure_rule vlong
    (mkcall (Request.product vlong)
       (Request.options vdate vlong vlevt varea time) output).
Proof.
  unfold pressure_rule. cbn [c_options c_product].
  rewrite options_variable, options_pressure_level. unfold Request.product.
  split; [reflexivity|]. split.
  - intros [-> | ->]; split; reflexivity.
  - intros N1 N2. apply String.eqb_neq in N1, N2. rewrite N1, N2.
    split; reflexivity.
Qed.

(** With an entry that has the fields the script reads, the request is
    assembled, from these fields. *)
Lemma request_assembled (cfg : Request.config) (era5 : gmap string (list string))
    (w : window) (vname : string) (entry : list string) (vlong vlevt : string) :
  era5 !! vname = Some entry ->
  entry !! 0%nat = Some vlong -> entry !! 3%nat = Some vlevt ->
  Request.request cfg era5 w vname
  = Ok (mkcall (Request.product vlong)
          (Request.options (Request.vdate w) vlong vlevt
             (Request.varea cfg) (Request.time cfg))
          (Request.era5_dir cfg +:+ "/"
             +:+ Request.fname vname (w_year w) (w_month w))).
Proof.
  intros E E0 E3. unfold Request.request, dict_getitem, getitem.
  rewrite E. cbn [bind]. rewrite E0. cbn [bind]. rewrite E3. reflexivity.
Qed.

Lemma analysis_request_assembled (cfg : Analysis.config)
    (era5 : gmap string (list string)) (w : window) (vname : string)
    (entry : list string) (vlevt vabbr : string) :
  era5 !! vname = Some entry ->
  entry !! 1%nat = Some vlevt -> entry !! 2%nat = Some vabbr ->
  Analysis.request cfg era5 w vname
  = Ok (mkcall (Analysis.product vname)
          (Analysis.options (Analysis.date w) vname vlevt
             (Analysis.area cfg) (Analysis.time cfg))
          (Analysis.era5_dir cfg +:+ "/"
             +:+ Analysis.fname vabbr (w_year w) (w_month w))).
Proof.
  intros E E1 E2. unfold Analysis.request, dict_getitem, getitem.
  rewrite E. cbn [bind]. rewrite E1. cbn [bind]. rewrite E2. reflexivity.
Qed.

(** ** The calls of a run *)

Lemma variables_loop_elem (cfg : Request.config) (era5 : gmap string (list string))
    (retrieve : call -> result unit) (w : window) (vs : list string) (c : call) :
  c ∈ (Request.variables_loop cfg era5 retrieve w vs).1 ->
  exists vname, vname ∈ vs /\ Request.request cfg era5 w vname = Ok c.
Proof.
  induction vs as [|v vs IH]; cbn [Request.variables_loop].
  { cbn. intros H. inversion H. }
  destruct (Request.request cfg era5 w v) as [c0|] eqn:E.
  2:{ cbn. intros H. inversion H. }
  assert (Hhead : c ∈ [c0] -> exists vname,
            vname ∈ v :: vs /\ Request.request cfg era5 w vname = Ok c).
  { intros H. apply list_elem_of_singleton in H. subst c0.
    exists v. split; [left | exact E]. }
  destruct (retrieve c0); [|exact Hhead].
  destruct (Request.variables_loop cfg era5 retrieve w vs) as [calls exc].
  cbn [fst] in *. intros H. apply elem_of_cons in H. destruct H as [-> | H].
  - apply Hhead. left.
  - destruct (IH H) as (vname & Hin & Er). exists vname. split; [right|]; auto.
Qed.

Lemma analysis_variables_loop_elem (cfg : Analysis.config)
    (era5 : gmap string (list string)) (retrieve : call -> result unit)
    (w : window) (vs : list string) (c : call) :
  c ∈ (Analysis.variables_loop cfg era5 retrieve w vs).1 ->
  exists vname, vname ∈ vs /\ Analysis.request cfg era5 w vname = Ok c.
Proof.
  induction vs as [|v vs IH]; cbn [Analysis.variables_loop].
  { cbn. intros H. inversion H. }
  destruct (Analysis.request cfg era5 w v) as [c0|] eqn:E.
  2:{ cbn. intros H. inversion H. }
  assert (Hhead : c ∈ [c0] -> exists vname,
            vname ∈ v :: vs /\ Analysis.request cfg era5 w vname = Ok c).
  { intros H. apply list_elem_of_singleton in H. subst c0.
    exists v. split; [left | exact E]. }
  destruct (retrieve c0); [|exact Hhead].
  destruct (Analysis.variables_loop cfg era5 retrieve w vs) as [calls exc].
  cbn [fst] in *. intros H. apply elem_of_cons in H. destruct H as [-> | H].
  - apply Hhead. left.
  - destruct (IH H) as (vname & Hin & Er). exists vname. split; [right|]; auto.
Qed.

(** Whatever a run leaves was left for a month the cursor went through. *)
Lemma monthly_loop_elem_rank {A : Type} (cfg : Request.config)
    (consume : window -> outcome A) (j : nat) (d : date) (x : A) :
  valid_date d = true ->
  x ∈ (Request.monthly_loop cfg consume j d).1 ->
  exists w, valid_month (w_year w) (w_month w)
    /\ month_rank (year d) (month d) <= month_rank (w_year w) (w_month w)
    /\ x ∈ (consume w).1.
Proof.
  revert d. induction j as [|j IH]; intros d Vd; cbn [Request.monthly_loop].
  { cbn. intros H. inversion H. }
  pose proof Vd as Vd0.
  apply valid_date_spec in Vd. destruct Vd as (Hy & Hm & Hd).
  destruct (Request.datestr_overlap _ _ _) as [[s e]|] eqn:E.
  2:{ cbn. intros H. inversion H. }
  set (w := mkwindow (year d) (month d) s e) in *.
  assert (Hw : x ∈ (consume w).1 ->
    exists w, valid_month (w_year w) (w_month w)
      /\ month_rank (year d) (month d) <= month_rank (w_year w) (w_month w)
      /\ x ∈ (consume w).1).
  { intros Hx. exists w. subst w. cbn [w_year w_month].
    split; [split; assumption|]. split; [lia | exact Hx]. }
  destruct (consume w) as [out [exc|]] eqn:C; cbn [fst] in *.
  { apply Hw. }
  destruct (Utilities.addmonths4date d 1) as [d'|] eqn:Ad; cbn [fst].
  2:{ apply Hw. }
  apply addmonths4date_inv in Ad. destruct Ad as [-> Vd'].
  specialize (IH (advanced d 1) Vd').
  destruct (Request.monthly_loop cfg consume j (advanced d 1)) as [outs exc'].
  cbn [fst] in *. rewrite elem_of_app. intros [H|H]; [auto|].
  destruct (IH H) as (w' & Hv & Hr & Hx). rewrite advanced_rank in Hr.
  exists w'. split; [exact Hv|]. split; [lia | exact Hx].
Qed.

Lemma monthly_dates_elem {A : Type} (cfg : Request.config)
    (consume : window -> outcome A) (x : A) :
  x ∈ (Request.monthly_dates cfg consume).1 ->
  exists w, valid_month (w_year w) (w_month w) /\ x ∈ (consume w).1.
Proof.
  unfold Request.monthly_dates.
  destruct (datetime_date (Request.year_start cfg) (Request.month_start cfg) 1)
    as [d0|] eqn:E0; [|cbn; intros H; inversion H].
  destruct (datetime_date (Request.year_end cfg) (Request.month_end cfg) 1)
    as [d1|]; [|cbn; intros H; inversion H].
  assert (Vd : valid_date d0 = true).
  { rewrite datetime_date_cases in E0.
    destruct (check_date_fields _ _ _) eqn:C in E0; [|discriminate].
    injection E0 as <-. exact C. }
  intros H. apply monthly_loop_elem_rank in H; [|exact Vd].
  destruct H as (w & Hv & _ & Hx). eauto.
Qed.

Lemma script_calls (cfg : Request.config) (era5 : gmap string (list string))
    (retrieve : call -> result unit) (c : call) :
  c ∈ (Request.script cfg era5 retrieve).1 ->
  exists w vname, valid_month (w_year w) (w_month w)
    /\ vname ∈ Request.variables cfg
    /\ Request.request cfg era5 w vname = Ok c.
Proof.
  intros H. apply monthly_dates_elem in H. destruct H as (w & Hv & H).
  apply variables_loop_elem in H. destruct H as (vname & Hin & E). eauto.
Qed.

Lemma analysis_script_calls (cfg : Analysis.config)
    (era5 : gmap string (list string)) (retrieve : call -> result unit) (c : call) :
  c ∈ (Analysis.script cfg era5 retrieve).1 ->
  exists w vname, valid_month (w_year w) (w_month w)
    /\ vname ∈ Analysis.variables cfg
    /\ Analysis.request cfg era5 w vname = Ok c.
Proof.
  unfold Analysis.script. rewrite mdates_eq.
  intros H. apply monthly_dates_elem in H. destruct H as (w & Hv & H).
  apply analysis_variables_loop_elem in H. destruct H as (vname & Hin & E). eauto.
Qed.

(** ** A variable the table does not have *)

Lemma request_unknown (cfg : Request.config) (era5 : gmap string (list string))
    (w : window) (vname : string) :
  era5 !! vname = None ->
  Request.request cfg era5 w vname = Raise (KeyError vname).
Proof.
  intros H. unfold Request.request, dict_getitem. rewrite H. reflexivity.
Qed.

Lemma analysis_request_unknown (cfg : Analysis.config)
    (era5 : gmap string (list string)) (w : window) (vname : string) :
  era5 !! vname = None ->
  Analysis.request cfg era5 w vname = Raise (KeyError vname).
Proof.
  intros H. unfold Analysis.request, dict_getitem. rewrite H. reflexivity.
Qed.

Lemma variables_loop_stops (cfg : Request.config)
    (era5 : gmap string (list string)) (retrieve : call -> result unit)
    (w : window) (pre post : list string) (vname : string)
    (calls : list call) (e : exn) :
  Request.variables_loop cfg era5 retrieve w pre = (calls, None) ->
  Request.request cfg era5 w vname = Raise e ->
  Request.variables_loop cfg era5 retrieve w (pre ++ vname :: post)
    = (calls, Some e).
Proof.
  intros Hpre Hv. revert calls Hpre.
  induction pre as [|v pre IH]; intros calls Hpre; cbn [app Request.variables_loop] in *.
  - injection Hpre as <-. rewrite Hv. reflexivity.
  - destruct (Request.request cfg era5 w v) as [c|]; [|discriminate].
    destruct (retrieve c); [|discriminate].
    destruct (Request.variables_loop cfg era5 retrieve w pre) as [cs [e'|]];
      [discriminate|].
    injection Hpre as <-. rewrite (IH cs eq_refl). reflexivity.
Qed.

Lemma analysis_variables_loop_stops (cfg : Analysis.config)
    (era5 : gmap string (list string)) (retrieve : call -> result unit)
    (w : window) (pre post : list string) (vname : string)
    (calls : list call) (e : exn) :
  Analysis.variables_loop cfg era5 retrieve w pre = (calls, None) ->
  Analysis.request cfg era5 w vname = Raise e ->
  Analysis.variables_loop cfg era5 retrieve w (pre ++ vname :: post)
    = (calls, Some e).
Proof.
  intros Hpre Hv. revert calls Hpre.
  induction pre as [|v pre IH]; intros calls Hpre; cbn [app Analysis.variables_loop] in *.
  - injection Hpre as <-. rewrite Hv. reflexivity.
  - destruct (Analysis.request cfg era5 w v) as [c|]; [|discriminate].
    destruct (retrieve c); [|discriminate].
    destruct (Analysis.variables_loop cfg era5 retrieve w pre) as [cs [e'|]];
      [discriminate|].
    injection Hpre as <-. rewrite (IH cs eq_refl). reflexivity.
Qed.

(** A run whose first month stops on an exception stops there. *)
Lemma monthly_dates_first_month {A : Type} (cfg : Request.config)
    (consume : window -> outcome A) (w0 : window) (out : list A) (e : exn) :
  valid_month (Request.year_start cfg) (Request.month_start cfg) ->
  valid_month (Request.year_end cfg) (Request.month_end cfg) ->
  month_rank (Request.year_start cfg) (Request.month_start cfg)
    <= month_rank (Request.year_end cfg) (Request.month_end cfg) ->
  0 <= Request.n_overlap cfg ->
  reference_window (Request.n_overlap cfg)
    (Request.year_start cfg) (Request.month_start cfg) = Some w0 ->
  consume w0 = (out, Some e) ->
  Request.monthly_dates cfg consume = (out, Some e).
Proof.
  intros Hs He Hr HV Hw Hc. rewrite monthly_dates_unfold by assumption.
  destruct (Z.to_nat _) as [|j] eqn:J; [unfold month_rank in Hr; lia|].
  cbn [Request.monthly_loop year month].
  destruct Hs as [Hy Hm]. rewrite datestr_overlap_eq by assumption.
  rewrite Hw.
  assert (Ew : mkwindow (Request.year_start cfg) (Request.month_start cfg)
                 (w_start w0) (w_end w0) = w0).
  { unfold reference_window in Hw.
    destruct (days_earlier _ _); [|discriminate].
    destruct (days_later _ _); [|discriminate].
    injection Hw as <-. reflexivity. }
  rewrite Ew, Hc. reflexivity.
Qed.

(** ** Output paths *)

Lemma string_app_inv_head (a b c : string) : a +:+ b = a +:+ c -> b = c.
Proof.
  intros E. apply list_ascii_of_string_inj.
  apply (f_equal list_ascii_of_string) in E.
  rewrite !list_ascii_of_app in E. apply app_inv_head in E. exact E.
Qed.

Lemma year_four_digits (y : Z) :
  1000 <= y <= 9999 -> String.length (str_int y) = 4%nat.
Proof.
  intros H.
  assert (A : forallb (fun k => Nat.eqb (String.length (str_int (1000 + Z.of_nat k))) 4)
                (seq 0 (Z.to_nat 9000)) = true) by (vm_compute; reflexivity).
  rewrite forallb_forall in A.
  specialize (A (Z.to_nat (y - 1000))).
  replace (1000 + Z.of_nat (Z.to_nat (y - 1000))) with y in A by lia.
  apply Nat.eqb_eq, A. apply in_seq. lia.
Qed.

Lemma request_output_inj (cfg : Request.config) (era5 : gmap string (list string))
    (w1 w2 : window) (v1 v2 : string) (c1 c2 : call) :
  Request.request cfg era5 w1 v1 = Ok c1 ->
  Request.request cfg era5 w2 v2 = Ok c2 ->
  valid_month (w_year w1) (w_month w1) ->
  valid_month (w_year w2) (w_month w2) ->
  c_output c1 = c_output c2 ->
  upper v1 = upper v2 /\ w_year w1 = w_year w2 /\ w_month w1 = w_month w2.
Proof.
  intros H1 H2 [Hy1 Hm1] [Hy2 Hm2] E.
  destruct (request_inv _ _ _ _ _ H1) as (? & ? & ? & _ & _ & _ & ->).
  destruct (request_inv _ _ _ _ _ H2) as (? & ? & ? & _ & _ & _ & ->).
  cbn [c_output] in E. do 2 apply string_app_inv_head in E.
  change (Analysis.fname (upper v1) (w_year w1) (w_month w1)
          = Analysis.fname (upper v2) (w_year w2) (w_month w2)) in E.
  apply fname_inj in E; try lia. exact E.
Qed.

Lemma analysis_request_output_inj (cfg : Analysis.config)
    (era5 : gmap string (list string))
    (w1 w2 : window) (v1 v2 : string) (c1 c2 : call) :
  Analysis.request cfg era5 w1 v1 = Ok c1 ->
  Analysis.request cfg era5 w2 v2 = Ok c2 ->
  valid_month (w_year w1) (w_month w1) ->
  valid_month (w_year w2) (w_month w2) ->
  c_output c1 = c_output c2 ->
  abbreviation era5 v1 = abbreviation era5 v2
  /\ w_year w1 = w_year w2 /\ w_month w1 = w_month w2.
Proof.
  intros H1 H2 [Hy1 Hm1] [Hy2 Hm2] E.
  destruct (analysis_request_inv _ _ _ _ _ H1)
    as (e1 & l1 & a1 & T1 & _ & A1 & ->).
  destruct (analysis_request_inv _ _ _ _ _ H2)
    as (e2 & l2 & a2 & T2 & _ & A2 & ->).
  cbn [c_output] in E. do 2 apply string_app_inv_head in E.
  apply fname_inj in E; try lia. destruct E as (-> & Ey & Em).
  unfold abbreviation. rewrite T1, T2, A1, A2. auto.
Qed.

(** Within a run, what is left for different months differs as soon as it
    tells its month, and what is left for one month has no repeat as soon
    as the consumer leaves none. *)
Lemma monthly_loop_NoDup {A B : Type} (cfg : Request.config) (key : A -> B)
    (consume : window -> outcome A) (j : nat) (d : date) :
  valid_date d = true ->
  (forall w, valid_month (w_year w) (w_month w) ->
     NoDup (key <$> (consume w).1)) ->
  (forall w1 w2 x1 x2,
     valid_month (w_year w1) (w_month w1) ->
     valid_month (w_year w2) (w_month w2) ->
     x1 ∈ (consume w1).1 -> x2 ∈ (consume w2).1 -> key x1 = key x2 ->
     month_rank (w_year w1) (w_month w1) = month_rank (w_year w2) (w_month w2)) ->
  NoDup (key <$> (Request.monthly_loop cfg consume j d).1).
Proof.
  intros Vd Hone Hmonth. revert d Vd.
  induction j as [|j IH]; intros d Vd; cbn [Request.monthly_loop].
  { cbn. constructor. }
  pose proof Vd as Vd0.
  apply valid_date_spec in Vd. destruct Vd as (Hy & Hm & Hd).
  destruct (Request.datestr_overlap _ _ _) as [[s e]|] eqn:E.
  2:{ cbn. constructor. }
  set (w := mkwindow (year d) (month d) s e) in *.
  assert (Hv : valid_month (w_year w) (w_month w)) by (split; assumption).
  pose proof (Hone w Hv) as Hw.
  destruct (consume w) as [out [exc|]] eqn:C; cbn [fst] in *; [exact Hw|].
  destruct (Utilities.addmonths4date d 1) as [d'|] eqn:Ad; cbn [fst];
    [|exact Hw].
  apply addmonths4date_inv in Ad. destruct Ad as [-> Vd'].
  specialize (IH (advanced d 1) Vd').
  pose proof (monthly_loop_elem_rank cfg consume j (advanced d 1)) as Hel.
  destruct (Request.monthly_loop cfg consume j (advanced d 1)) as [outs exc'].
  cbn [fst] in *. rewrite fmap_app. apply NoDup_app.
  split; [exact Hw|]. split; [|exact IH].
  intros k Hk1 Hk2.
  apply list_elem_of_fmap in Hk1. destruct Hk1 as (x1 & -> & Hx1).
  apply list_elem_of_fmap in Hk2. destruct Hk2 as (x2 & Ek & Hx2).
  destruct (Hel x2 Vd' Hx2) as (w2 & Hv2 & Hr & Hx2').
  rewrite advanced_rank in Hr.
  assert (Hx1' : x1 ∈ (consume w).1) by (rewrite C; exact Hx1).
  pose proof (Hmonth w w2 x1 x2 Hv Hv2 Hx1' Hx2' Ek) as R.
  subst w. cbn [w_year w_month] in R. lia.
Qed.

Lemma monthly_dates_NoDup {A B : Type} (cfg : Request.config) (key : A -> B)
    (consume : window -> outcome A) :
  (forall w, valid_month (w_year w) (w_month w) ->
     NoDup (key <$> (consume w).1)) ->
  (forall w1 w2 x1 x2,
     valid_month (w_year w1) (w_month w1) ->
     valid_month (w_year w2) (w_month w2) ->
     x1 ∈ (consume w1).1 -> x2 ∈ (consume w2).1 -> key x1 = key x2 ->
     month_rank (w_year w1) (w_month w1) = month_rank (w_year w2) (w_month w2)) ->
  NoDup (key <$> (Request.monthly_dates cfg consume).1).
Proof.
  intros Hone Hmonth. unfold Request.monthly_dates.
  destruct (datetime_date (Request.year_start cfg) (Request.month_start cfg) 1)
    as [d0|] eqn:E0; [|cbn; constructor].
  destruct (datetime_date (Request.year_end cfg) (Request.month_end cfg) 1)
    as [d1|]; [|cbn; constructor].
  apply monthly_loop_NoDup; try assumption.
  rewrite datetime_date_cases in E0.
  destruct (check_date_fields _ _ _) eqn:C in E0; [|discriminate].
  injection E0 as <-. exact C.
Qed.

Lemma variables_loop_NoDup (cfg : Request.config)
    (era5 : gmap string (list string)) (retrieve : call -> result unit)
    (w : window) (vs : list string) :
  valid_month (w_year w) (w_month w) ->
  NoDup (upper <$> vs) ->
  NoDup (c_output <$> (Request.variables_loop cfg era5 retrieve w vs).1).
Proof.
  intros Hv. induction vs as [|v vs IH]; intros N; cbn [Request.variables_loop].
  { cbn. constructor. }
  rewrite fmap_cons in N. apply NoDup_cons in N. destruct N as [Nv N].
  destruct (Request.request cfg era5 w v) as [c0|] eqn:E; [|cbn; constructor].
  destruct (retrieve c0); [|cbn; apply NoDup_singleton].
  specialize (IH N).
  pose proof (variables_loop_elem cfg era5 retrieve w vs) as Hel.
  destruct (Request.variables_loop cfg era5 retrieve w vs) as [calls exc].
  cbn [fst] in *. rewrite fmap_cons. apply NoDup_cons. split; [|exact IH].
  intros Hin. apply list_elem_of_fmap in Hin. destruct Hin as (c' & Ec & Hc').
  destruct (Hel c' Hc') as (v' & Hv' & E').
  destruct (request_output_inj _ _ _ _ _ _ _ _ E E' Hv Hv Ec) as (Eu & _).
  apply Nv. rewrite Eu. apply list_elem_of_fmap. eauto.
Qed.

Lemma analysis_variables_loop_NoDup (cfg : Analysis.config)
    (era5 : gmap string (list string)) (retrieve : call -> result unit)
    (w : window) (vs : list string) :
  valid_month (w_year w) (w_month w) ->
  NoDup (abbreviation era5 <$> vs) ->
  NoDup (c_output <$> (Analysis.variables_loop cfg era5 retrieve w vs).1).
Proof.
  intros Hv. induction vs as [|v vs IH]; intros N; cbn [Analysis.variables_loop].
  { cbn. constructor. }
  rewrite fmap_cons in N. apply NoDup_cons in N. destruct N as [Nv N].
  destruct (Analysis.request cfg era5 w v) as [c0|] eqn:E; [|cbn; constructor].
  destruct (retrieve c0); [|cbn; apply NoDup_singleton].
  specialize (IH N).
  pose proof (analysis_variables_loop_elem cfg era5 retrieve w vs) as Hel.
  destruct (Analysis.variables_loop cfg era5 retrieve w vs) as [calls exc].
  cbn [fst] in *. rewrite fmap_cons. apply NoDup_cons. split; [|exact IH].
  intros Hin. apply list_elem_of_fmap in Hin. destruct Hin as (c' & Ec & Hc').
  destruct (Hel c' Hc') as (v' & Hv' & E').
  destruct (analysis_request_output_inj _ _ _ _ _ _ _ _ E E' Hv Hv Ec) as (Eu & _).
  apply Nv. rewrite Eu. apply list_elem_of_fmap. eauto.
Qed.

(** ** Dates of a window *)

Lemma days_earlier_some (k : nat) (D D' : date) :
  valid_date D = true -> days_earlier k D = Some D' ->
  valid_date D' = true /\ toordinal D' = toordinal D - Z.of_nat k.
Proof.
  revert D. induction k as [|k IH]; intros D V; cbn [days_earlier].
  - intros [= <-]. split; [exact V | lia].
  - destruct (prev_day D) as [D1|] eqn:E; [|discriminate].
    destruct (prev_day_some D D1 V E) as [V1 T1]. intros H.
    destruct (IH D1 V1 H) as [V' T']. split; [exact V' | lia].
Qed.

Lemma days_later_some (k : nat) (D D' : date) :
  valid_date D = true -> days_later k D = Some D' ->
  valid_date D' = true /\ toordinal D' = toordinal D + Z.of_nat k.
Proof.
  revert D. induction k as [|k IH]; intros D V; cbn [days_later].
  - intros [= <-]. split; [exact V | lia].
  - destruct (next_day D) as [D1|] eqn:E; [|discriminate].
    destruct (next_day_some D D1 V E) as [V1 T1]. intros H.
    destruct (IH D1 V1 H) as [V' T']. split; [exact V' | lia].
Qed.

(** The two days of a window of the specification are dates, [V] days
    before the first day of the month and [V] days after its last day. *)
Lemma reference_window_dates (V y m : Z) (w : window) :
  valid_month y m -> 0 <= V -> reference_window V y m = Some w ->
  exists d_start d_end,
    valid_date d_start = true /\ valid_date d_end = true
    /\ toordinal d_start = toordinal (mkdate y m 1) - V
    /\ toordinal d_end = toordinal (mkdate y m (days_in_month y m)) + V
    /\ w = mkwindow y m (strftime_Ymd d_start) (strftime_Ymd d_end).
Proof.
  intros [Hy Hm] HV. unfold reference_window.
  pose proof (days_in_month_bounds y m Hm) as Hd.
  assert (V1 : valid_date (mkdate y m 1) = true)
    by (apply valid_date_spec; cbn [year month day]; lia).
  assert (V2 : valid_date (mkdate y m (days_in_month y m)) = true)
    by (apply valid_date_spec; cbn [year month day]; lia).
  destruct (days_earlier _ _) as [ds|] eqn:E1; [|discriminate].
  destruct (days_later _ _) as [de|] eqn:E2; [|discriminate].
  intros [= <-].
  destruct (days_earlier_some _ _ _ V1 E1) as [Vs Ts].
  destruct (days_later_some _ _ _ V2 E2) as [Ve Te].
  exists ds, de. repeat split; try assumption; lia.
Qed.

Lemma zfill_long (width : nat) (s : string) :
  (width <= String.length s)%nat -> zfill width s = s.
Proof.
  intros H. unfold zfill.
  replace (width - String.length s)%nat with 0%nat by lia.
  destruct s as [|c rest]; [reflexivity|].
  destruct (Ascii.eqb c "+" || Ascii.eqb c "-")%bool; reflexivity.
Qed.





(** ** The claims *)

(** C1, as amended.  For every valid date [D] and every count [n >= 0] of
    months for which the month reached is still within the years the date
    type has (up to December 9999), both month-advance functions return a
    valid date whose month rank [year * 12 + month] is that of [D] plus [n]
    and whose day is the smaller of the day of [D] and the length of the
    month reached; one month after a December is the January of the next
    year. *)
Theorem month_advance_within_years (D : date) (n : Z) :
  valid_date D = true -> 0 <= n ->
  year D * 12 + month D + n <= 9999 * 12 + 12 ->
  exists D',
    Utilities.addmonths4date D n = Ok D'
    /\ Analysis.add_months D n = Ok D'
    /\ valid_date D' = true
    /\ year D' * 12 + month D' = year D * 12 + month D + n
    /\ day D' = Z.min (day D) (days_in_month (year D') (month D'))
    /\ (month D = 12 -> n = 1 -> year D' = year D + 1 /\ month D' = 1).
Proof.
  intros V Hn Hmax.
  assert (Hy : 1 <= year D /\ 1 <= month D)
    by (apply valid_date_spec in V; lia).
  destruct (addmonths4date_ok D n V ltac:(lia)) as [E V'].
  pose proof (advanced_index D n) as [Hi Hm].
  exists (advanced D n). change (Analysis.add_months D n) with (Utilities.addmonths4date D n).
  repeat split; try assumption; try reflexivity; lia.
Qed.

Lemma month_advance_within_years_witness :
  exists D',
    Utilities.addmonths4date (mkdate 2020 1 31) 1 = Ok D'
    /\ Analysis.add_months (mkdate 2020 1 31) 1 = Ok D'
    /\ valid_date D' = true
    /\ year D' * 12 + month D' = 2020 * 12 + 1 + 1
    /\ day D' = Z.min 31 (days_in_month (year D') (month D'))
    /\ (1 = 12 -> 1 = 1 -> year D' = 2020 + 1 /\ month D' = 1).
Proof.
  apply (month_advance_within_years (mkdate 2020 1 31) 1);
    [reflexivity | lia | simpl; lia].
Defined.

(** C1 fails as stated: 9999-12-01 is a valid date and 1 is a non-negative
    count, yet neither function returns a date; the constructor refuses the
    year 10000. *)
Lemma month_advance_past_last_year :
  valid_date (mkdate 9999 12 1) = true
  /\ 0 <= 1
  /\ Utilities.addmonths4date (mkdate 9999 12 1) 1 = Raise ValueError
  /\ Analysis.add_months (mkdate 9999 12 1) 1 = Raise ValueError
  /\ ~ (exists D', Utilities.addmonths4date (mkdate 9999 12 1) 1 = Ok D').
Proof.
  repeat split; try reflexivity; try lia.
  intros [D' H]. discriminate H.
Qed.

(** C2, as amended.  For every configuration whose start month is not after
    its end month and whose first padded start date and last padded end date
    are dates of the calendar 0001-01-01 .. 9999-12-31, the generator of
    windows hands out exactly
    [(end_year - start_year) * 12 + (end_month - start_month) + 1] windows,
    and the [i]-th of them, counted from 0, is for the [i]-th month after
    the start month: one window per month from the start month through the
    end month, in increasing order, none missing and none twice. *)
Theorem one_window_per_month (sy sm ey em V : Z) :
  valid_month sy sm -> valid_month ey em ->
  month_rank sy sm <= month_rank ey em ->
  0 <= V ->
  V < ymd2ord sy sm 1 ->
  ymd2ord ey em (days_in_month ey em) + V <= MAXORDINAL ->
  forall t a vs dir,
    let ws := (Request.date_windows (Request.mkconfig sy sm ey em V t a vs dir)).1 in
    (Analysis.date_windows (Analysis.mkconfig sy sm ey em V t a vs dir)).1 = ws
    /\ Z.of_nat (length ws) = (ey - sy) * 12 + (em - sm) + 1
    /\ (forall (i : nat) (w : window), ws !! i = Some w ->
         month_rank (w_year w) (w_month w) = month_rank sy sm + Z.of_nat i
         /\ 1 <= w_month w <= 12)
    /\ (forall (i j : nat) (wi wj : window),
         ws !! i = Some wi -> ws !! j = Some wj -> (i < j)%nat ->
         month_rank (w_year wi) (w_month wi) < month_rank (w_year wj) (w_month wj)).
Proof.
  intros Hs He Hr HV Hlo Hhi t a vs dir ws.
  set (cfg := Request.mkconfig sy sm ey em V t a vs dir) in *.
  assert (E : ws = (Request.monthly_loop cfg (fun w => ([w], None))
                      (Z.to_nat ((ey - sy) * 12 + (em - sm) + 1))
                      (mkdate sy sm 1)).1).
  { subst ws. unfold Request.date_windows.
    rewrite monthly_dates_unfold by assumption. reflexivity. }
  assert (Vd : valid_date (mkdate sy sm 1) = true)
    by (apply first_of_month_valid; assumption).
  assert (Hlook : forall (i : nat) (w : window), ws !! i = Some w ->
         month_rank (w_year w) (w_month w) = month_rank sy sm + Z.of_nat i
         /\ 1 <= w_month w <= 12).
  { intros i w Hi. rewrite E in Hi.
    destruct (windows_loop_lookup cfg HV _ _ _ _ Vd Hi) as (R & _ & Hm & _).
    cbn [year month] in R. auto. }
  split; [reflexivity|]. split; [|split].
  - rewrite E.
    destruct (windows_loop_length cfg HV
                (Z.to_nat ((ey - sy) * 12 + (em - sm) + 1)) (mkdate sy sm 1)
                ey em Vd eq_refl Hlo (proj1 He) (proj2 He)) as [L _].
    + cbn [year month]. unfold month_rank in *. lia.
    + exact Hhi.
    + rewrite L. unfold month_rank in *. lia.
  - exact Hlook.
  - intros i j wi wj Hi Hj Hij.
    destruct (Hlook i wi Hi) as [Ri _]. destruct (Hlook j wj Hj) as [Rj _]. lia.
Qed.

Lemma one_window_per_month_witness :
  let ws := (Request.date_windows
               (Request.mkconfig 2020 11 2021 2 1 "00/12" [] ["sst"] "")).1 in
  (Analysis.date_windows
     (Analysis.mkconfig 2020 11 2021 2 1 "00/12" [] ["sst"] "")).1 = ws
  /\ Z.of_nat (length ws) = (2021 - 2020) * 12 + (2 - 11) + 1
  /\ (forall (i : nat) (w : window), ws !! i = Some w ->
       month_rank (w_year w) (w_month w) = month_rank 2020 11 + Z.of_nat i
       /\ 1 <= w_month w <= 12)
  /\ (forall (i j : nat) (wi wj : window),
       ws !! i = Some wi -> ws !! j = Some wj -> (i < j)%nat ->
       month_rank (w_year wi) (w_month wi) < month_rank (w_year wj) (w_month wj)).
Proof.
  apply (one_window_per_month 2020 11 2021 2 1);
    unfold valid_month, month_rank, MAXORDINAL; try lia; vm_compute; congruence.
Defined.

(** C2 fails as stated: with January of year 1 as start and end month and
    one day of overlap the start is not after the end and one window is
    due, yet the generator hands out none: the day before 0001-01-01 has
    no ordinal that [fromordinal] accepts. *)
Lemma no_window_before_first_day :
  month_rank 1 1 <= month_rank 1 1
  /\ (1 - 1) * 12 + (1 - 1) + 1 = 1
  /\ Request.date_windows (Request.mkconfig 1 1 1 1 1 "" [] [] "")
     = ([], Some ValueError)
  /\ Analysis.date_windows (Analysis.mkconfig 1 1 1 1 1 "" [] [] "")
     = ([], Some ValueError)
  /\ Z.of_nat (length (Request.date_windows
                         (Request.mkconfig 1 1 1 1 1 "" [] [] "")).1)
     <> (1 - 1) * 12 + (1 - 1) + 1.
Proof.
  repeat split; try reflexivity; try lia. vm_compute. discriminate.
Qed.




(** C4.  In both scripts the request assembled for a variable obeys the
    rule on the sampling hours, on the canonical name of that variable: the
    first field of its entry in the table for the main script, the
    identifier itself for the analysis script.  The request carries this
    name under "variable"; when the name is "sea_surface_temperature" its
    field "time" is the single hour "12", whatever the configured hours are,
    and for every other name it is the configured hours.  A request is
    assembled whenever the table has the fields the script reads, and every
    call of a run is one of these requests, for a variable of the
    configured list. *)
Theorem sampling_hours :
  (forall cfg era5 w vname entry vlong vlevt,
     era5 !! vname = Some entry ->
     entry !! 0%nat = Some vlong -> entry !! 3%nat = Some vlevt ->
     exists c, Request.request cfg era5 w vname = Ok c
       /\ hours_rule (Request.time cfg) vlong c)
  /\ (forall cfg era5 w vname entry vlevt vabbr,
       era5 !! vname = Some entry ->
       entry !! 1%nat = Some vlevt -> entry !! 2%nat = Some vabbr ->
       exists c, Analysis.request cfg era5 w vname = Ok c
         /\ hours_rule (Analysis.time cfg) vname c)
  /\ (forall cfg era5 w vname c,
       Request.request cfg era5 w vname = Ok c ->
       exists entry vlong,
         era5 !! vname = Some entry /\ entry !! 0%nat = Some vlong
         /\ hours_rule (Request.time cfg) vlong c)
  /\ (forall cfg era5 w vname c,
       Analysis.request cfg era5 w vname = Ok c ->
       hours_rule (Analysis.time cfg) vname c)
  /\ (forall cfg era5 retrieve c,
       c ∈ (Request.script cfg era5 retrieve).1 ->
       exists vname entry vlong,
         vname ∈ Request.variables cfg
         /\ era5 !! vname = Some entry /\ entry !! 0%nat = Some vlong
         /\ hours_rule (Request.time cfg) vlong c)
  /\ (forall cfg era5 retrieve c,
       c ∈ (Analysis.script cfg era5 retrieve).1 ->
       exists vname,
         vname ∈ Analysis.variables cfg
         /\ hours_rule (Analysis.time cfg) vname c)
  /\ (let cfg := Request.mkconfig 2020 11 2020 11 1 "00/06/12/18" [] ["sst"; "q"] "" in
      c_options <$> (Request.script cfg example_table (fun _ => Ok tt)).1
      = [Request.options "2020-10-31/2020-12-01" "sea_surface_temperature"
           "sfc" [] "12";
         Request.options "2020-10-31/2020-12-01" "specific_humidity"
           "pl" [] "00/06/12/18"]
      /\ Request.options "2020-10-31/2020-12-01" "sea_surface_temperature"
           "sfc" [] "12" !! "time" = Some (PStr "12")
      /\ Request.options "2020-10-31/2020-12-01" "specific_humidity"
           "pl" [] "00/06/12/18" !! "time" = Some (PStr "00/06/12/18")).
Proof.
  assert (HR : forall cfg era5 w vname c,
     Request.request cfg era5 w vname = Ok c ->
     exists entry vlong,
       era5 !! vname = Some entry /\ entry !! 0%nat = Some vlong
       /\ hours_rule (Request.time cfg) vlong c).
  { intros cfg era5 w vname c H.
    destruct (request_inv _ _ _ _ _ H) as (entry & vlong & vlevt & E & E0 & _ & ->).
    exists entry, vlong. split; [exact E|]. split; [exact E0|].
    apply options_hours_rule. }
  assert (HA : forall cfg era5 w vname c,
     Analysis.request cfg era5 w vname = Ok c ->
     hours_rule (Analysis.time cfg) vname c).
  { intros cfg era5 w vname c H.
    destruct (analysis_request_inv _ _ _ _ _ H)
      as (entry & vlevt & vabbr & _ & _ & _ & ->).
    rewrite options_eq. apply options_hours_rule. }
  split.
  { intros cfg era5 w vname entry vlong vlevt E E0 E3.
    rewrite (request_assembled cfg era5 w vname entry vlong vlevt E E0 E3).
    eexists. split; [reflexivity|]. apply options_hours_rule. }
  split.
  { intros cfg era5 w vname entry vlevt vabbr E E1 E2.
    rewrite (analysis_request_assembled cfg era5 w vname entry vlevt vabbr E E1 E2).
    eexists. split; [reflexivity|]. rewrite options_eq. apply options_hours_rule. }
  split; [exact HR|]. split; [exact HA|].
  split.
  { intros cfg era5 retrieve c H.
    destruct (script_calls _ _ _ _ H) as (w & vname & _ & Hin & E).
    destruct (HR _ _ _ _ _ E) as (entry & vlong & T & T0 & R).
    exists vname, entry, vlong.
    split; [exact Hin|]. split; [exact T|]. split; [exact T0|exact R]. }
  split.
  { intros cfg era5 retrieve c H.
    destruct (analysis_script_calls _ _ _ _ H) as (w & vname & _ & Hin & E).
    exists vname. split; [exact Hin|]. eapply HA, E. }
  cbv zeta. split; [vm_compute; reflexivity|].
  split; apply options_time.
Qed.

(** C5.  In both scripts the request assembled for a variable obeys the
    rule on the pressure level, on the canonical name of that variable (the
    first field of its entry in the table for the main script, the
    identifier itself for the analysis script): when the name is
    "specific_humidity" or "relative_humidity" the options carry
    "pressure_level" = "1000" and the product is
    "reanalysis-era5-pressure-levels"; for every other name the options
    carry no "pressure_level" and the product is
    "reanalysis-era5-single-levels".  A request is assembled whenever the
    table has the fields the script reads, and every call of a run is one
    of these requests, for a variable of the configured list. *)
Theorem pressure_level_and_product :
  (forall cfg era5 w vname entry vlong vlevt,
     era5 !! vname = Some entry ->
     entry !! 0%nat = Some vlong -> entry !! 3%nat = Some vlevt ->
     exists c, Request.request cfg era5 w vname = Ok c
       /\ pressure_rule vlong c)
  /\ (forall cfg era5 w vname entry vlevt vabbr,
       era5 !! vname = Some entry ->
       entry !! 1%nat = Some vlevt -> entry !! 2%nat = Some vabbr ->
       exists c, Analysis.request cfg era5 w vname = Ok c
         /\ pressure_rule vname c)
  /\ (forall cfg era5 w vname c,
       Request.request cfg era5 w vname = Ok c ->
       exists entry vlong,
         era5 !! vname = Some entry /\ entry !! 0%nat = Some vlong
         /\ pressure_rule vlong c)
  /\ (forall cfg era5 w vname c,
       Analysis.request cfg era5 w vname = Ok c -> pressure_rule vname c)
  /\ (forall cfg era5 retrieve c,
       c ∈ (Request.script cfg era5 retrieve).1 ->
       exists vname entry vlong,
         vname ∈ Request.variables cfg
         /\ era5 !! vname = Some entry /\ entry !! 0%nat = Some vlong
         /\ pressure_rule vlong c)
  /\ (forall cfg era5 retrieve c,
       c ∈ (Analysis.script cfg era5 retrieve).1 ->
       exists vname,
         vname ∈ Analysis.variables cfg /\ pressure_rule vname c)
  /\ (let cfg := Request.mkconfig 2020 11 2020 11 1 "00/12" [] ["sst"; "q"] "" in
      (fun c => (c_product c, c_options c !! "pressure_level"))
        <$> (Request.script cfg example_table (fun _ => Ok tt)).1
      = [("reanalysis-era5-single-levels", None);
         ("reanalysis-era5-pressure-levels", Some (PStr "1000"))]).
Proof.
  assert (HR : forall cfg era5 w vname c,
     Request.request cfg era5 w vname = Ok c ->
     exists entry vlong,
       era5 !! vname = Some entry /\ entry !! 0%nat = Some vlong
       /\ pressure_rule vlong c).
  { intros cfg era5 w vname c H.
    destruct (request_inv _ _ _ _ _ H) as (entry & vlong & vlevt & E & E0 & _ & ->).
    exists entry, vlong. split; [exact E|]. split; [exact E0|].
    apply options_pressure_rule. }
  assert (HA : forall cfg era5 w vname c,
     Analysis.request cfg era5 w vname = Ok c -> pressure_rule vname c).
  { intros cfg era5 w vname c H.
    destruct (analysis_request_inv _ _ _ _ _ H)
      as (entry & vlevt & vabbr & _ & _ & _ & ->).
    rewrite options_eq, product_eq. apply options_pressure_rule. }
  split.
  { intros cfg era5 w vname entry vlong vlevt E E0 E3.
    rewrite (request_assembled cfg era5 w vname entry vlong vlevt E E0 E3).
    eexists. split; [reflexivity|]. apply options_pressure_rule. }
  split.
  { intros cfg era5 w vname entry vlevt vabbr E E1 E2.
    rewrite (analysis_request_assembled cfg era5 w vname entry vlevt vabbr E E1 E2).
    eexists. split; [reflexivity|].
    rewrite options_eq, product_eq. apply options_pressure_rule. }
  split; [exact HR|]. split; [exact HA|].
  split.
  { intros cfg era5 retrieve c H.
    destruct (script_calls _ _ _ _ H) as (w & vname & _ & Hin & E).
    destruct (HR _ _ _ _ _ E) as (entry & vlong & T & T0 & R).
    exists vname, entry, vlong.
    split; [exact Hin|]. split; [exact T|]. split; [exact T0|exact R]. }
  split.
  { intros cfg era5 retrieve c H.
    destruct (analysis_script_calls _ _ _ _ H) as (w & vname & _ & Hin & E).
    exists vname. split; [exact Hin|]. eapply HA, E. }
  vm_compute. reflexivity.
Qed.

(** C6, as amended.  The name of the output file is the prefix
    "ERA5_ecmwf_", the label of the variable (the identifier in upper case
    in the main script, the abbreviation of the table in the analysis
    script), "_Y", the year in decimal digits without padding (four digits
    for the years 1000 to 9999), "M", the month on two digits, and ".nc";
    the output path is the output directory, "/", and this name.  Two
    iterations of a run give the same path only if their labels, their
    years and their months agree; so a run whose variables have pairwise
    different labels never makes two calls with the same path.  For the
    main script this is stated for identifiers written in ASCII, on which
    [upper] is what [str.upper] does. *)
Theorem file_names :
  (forall vname y m,
     ascii_text vname = true ->
     Request.fname vname y m
       = "ERA5_ecmwf_" +:+ upper vname +:+ "_Y" +:+ str_int y +:+ "M"
           +:+ zfill 2 (str_int m) +:+ ".nc")
  /\ (forall vabbr y m,
       Analysis.fname vabbr y m
         = "ERA5_ecmwf_" +:+ vabbr +:+ "_Y" +:+ str_int y +:+ "M"
             +:+ zfill 2 (str_int m) +:+ ".nc")
  /\ (forall y, 1 <= y ->
       Forall (fun c => is_digit c = true) (list_ascii_of_string (str_int y))
       /\ (1000 <= y <= 9999 -> String.length (str_int y) = 4%nat))
  /\ (forall m, 1 <= m <= 12 ->
       length (list_ascii_of_string (zfill 2 (str_int m))) = 2%nat
       /\ Forall (fun c => is_digit c = true)
            (list_ascii_of_string (zfill 2 (str_int m))))
  /\ (forall cfg era5 w vname c,
       ascii_text vname = true ->
       Request.request cfg era5 w vname = Ok c ->
       c_output c = Request.era5_dir cfg +:+ "/"
                      +:+ Request.fname vname (w_year w) (w_month w))
  /\ (forall cfg era5 w vname c,
       Analysis.request cfg era5 w vname = Ok c ->
       exists vabbr, abbreviation era5 vname = Some vabbr
         /\ c_output c = Analysis.era5_dir cfg +:+ "/"
                          +:+ Analysis.fname vabbr (w_year w) (w_month w))
  /\ (forall cfg era5 w1 w2 v1 v2 c1 c2,
       ascii_text v1 = true -> ascii_text v2 = true ->
       Request.request cfg era5 w1 v1 = Ok c1 ->
       Request.request cfg era5 w2 v2 = Ok c2 ->
       valid_month (w_year w1) (w_month w1) ->
       valid_month (w_year w2) (w_month w2) ->
       c_output c1 = c_output c2 ->
       upper v1 = upper v2 /\ w_year w1 = w_year w2 /\ w_month w1 = w_month w2)
  /\ (forall cfg era5 w1 w2 v1 v2 c1 c2,
       Analysis.request cfg era5 w1 v1 = Ok c1 ->
       Analysis.request cfg era5 w2 v2 = Ok c2 ->
       valid_month (w_year w1) (w_month w1) ->
       valid_month (w_year w2) (w_month w2) ->
       c_output c1 = c_output c2 ->
       abbreviation era5 v1 = abbreviation era5 v2
       /\ w_year w1 = w_year w2 /\ w_month w1 = w_month w2)
  /\ (forall cfg era5 retrieve,
       Forall (fun v => ascii_text v = true) (Request.variables cfg) ->
       NoDup (upper <$> Request.variables cfg) ->
       NoDup (c_output <$> (Request.script cfg era5 retrieve).1))
  /\ (forall cfg era5 retrieve,
       NoDup (abbreviation era5 <$> Analysis.variables cfg) ->
       NoDup (c_output <$> (Analysis.script cfg era5 retrieve).1)).
Proof.
  split; [reflexivity|]. split; [reflexivity|].
  split.
  { intros y Hy. split; [apply str_int_digits, Hy | apply year_four_digits]. }
  split; [apply month_digits|].
  split.
  { intros cfg era5 w vname c _ H.
    destruct (request_inv _ _ _ _ _ H) as (? & ? & ? & _ & _ & _ & ->).
    reflexivity. }
  split.
  { intros cfg era5 w vname c H.
    destruct (analysis_request_inv _ _ _ _ _ H)
      as (e & l & vabbr & T & _ & Ab & ->).
    exists vabbr. unfold abbreviation. rewrite T. split; [exact Ab|reflexivity]. }
  split; [intros cfg era5 w1 w2 v1 v2 c1 c2 _ _; apply request_output_inj|].
  split; [apply analysis_request_output_inj|].
  split.
  - intros cfg era5 retrieve _ N. unfold Request.script.
    apply monthly_dates_NoDup.
    + intros w Hv. apply variables_loop_NoDup; assumption.
    + intros w1 w2 c1 c2 Hv1 Hv2 H1 H2 E.
      apply variables_loop_elem in H1. destruct H1 as (v1 & _ & R1).
      apply variables_loop_elem in H2. destruct H2 as (v2 & _ & R2).
      destruct (request_output_inj _ _ _ _ _ _ _ _ R1 R2 Hv1 Hv2 E)
        as (_ & -> & ->).
      reflexivity.
  - intros cfg era5 retrieve N. unfold Analysis.script. rewrite mdates_eq.
    apply monthly_dates_NoDup.
    + intros w Hv. apply analysis_variables_loop_NoDup; assumption.
    + intros w1 w2 c1 c2 Hv1 Hv2 H1 H2 E.
      apply analysis_variables_loop_elem in H1. destruct H1 as (v1 & _ & R1).
      apply analysis_variables_loop_elem in H2. destruct H2 as (v2 & _ & R2).
      destruct (analysis_request_output_inj _ _ _ _ _ _ _ _ R1 R2 Hv1 Hv2 E)
        as (_ & -> & ->).
      reflexivity.
Qed.

(** C6 fails as stated on both counts.  The year 999 is written with three
    digits.  And two distinct iterations of a run can write one and the same
    path: in the main script for the two distinct identifiers "sst" and
    "SST" of a table that has both, which have one upper case; in the
    analysis script for two distinct variables to which the table gives one
    abbreviation; and in either script when the list of variables names an
    identifier twice. *)
Lemma file_name_year_and_collision :
  Request.fname "sst" 999 1 = "ERA5_ecmwf_SST_Y999M01.nc"
  /\ String.length (str_int 999) <> 4%nat
  /\ "sst" <> "SST"
  /\ c_output <$>
       (Request.script
          (Request.mkconfig 2020 11 2020 11 1 "00/12" [] ["sst"; "SST"] "")
          case_table (fun _ => Ok tt)).1
     = ["/ERA5/ERA5_ecmwf_SST_Y2020M11.nc"; "/ERA5/ERA5_ecmwf_SST_Y2020M11.nc"]
  /\ ~ NoDup (c_output <$>
       (Request.script
          (Request.mkconfig 2020 11 2020 11 1 "00/12" [] ["sst"; "SST"] "")
          case_table (fun _ => Ok tt)).1)
  /\ "2m_temperature" <> "skin_temperature"
  /\ c_output <$>
       (Analysis.script
          (Analysis.mkconfig 2020 11 2020 11 1 "00/12" []
             ["2m_temperature"; "skin_temperature"] "")
          abbreviation_table (fun _ => Ok tt)).1
     = ["/ERA5_analysis/ERA5_ecmwf_T_Y2020M11.nc";
        "/ERA5_analysis/ERA5_ecmwf_T_Y2020M11.nc"]
  /\ ~ NoDup (c_output <$>
       (Analysis.script
          (Analysis.mkconfig 2020 11 2020 11 1 "00/12" []
             ["2m_temperature"; "skin_temperature"] "")
          abbreviation_table (fun _ => Ok tt)).1)
  /\ c_output <$>
       (Request.script
          (Request.mkconfig 2020 11 2020 11 1 "00/12" [] ["sst"; "sst"] "")
          example_table (fun _ => Ok tt)).1
     = ["/ERA5/ERA5_ecmwf_SST_Y2020M11.nc"; "/ERA5/ERA5_ecmwf_SST_Y2020M11.nc"].
Proof.
  assert (E : c_output <$>
       (Request.script
          (Request.mkconfig 2020 11 2020 11 1 "00/12" [] ["sst"; "SST"] "")
          case_table (fun _ => Ok tt)).1
     = ["/ERA5/ERA5_ecmwf_SST_Y2020M11.nc"; "/ERA5/ERA5_ecmwf_SST_Y2020M11.nc"])
    by (vm_compute; reflexivity).
  assert (EA : c_output <$>
       (Analysis.script
          (Analysis.mkconfig 2020 11 2020 11 1 "00/12" []
             ["2m_temperature"; "skin_temperature"] "")
          abbreviation_table (fun _ => Ok tt)).1
     = ["/ERA5_analysis/ERA5_ecmwf_T_Y2020M11.nc";
        "/ERA5_analysis/ERA5_ecmwf_T_Y2020M11.nc"])
    by (vm_compute; reflexivity).
  split; [reflexivity|]. split; [vm_compute; discriminate|].
  split; [discriminate|]. split; [exact E|].
  split.
  { rewrite E. intros N. apply NoDup_cons in N. destruct N as [N _].
    apply N. left. }
  split; [discriminate|]. split; [exact EA|].
  split.
  { rewrite EA. intros N. apply NoDup_cons in N. destruct N as [N _].
    apply N. left. }
  vm_compute. reflexivity.
Qed.

(** C7.  A variable identifier the table does not have makes the lookup
    raise [KeyError] with that identifier, a [LookupError], in both
    scripts: nothing is assembled for it; the loop over the variables stops
    on it after the calls of the variables before it; and a run that
    reaches it in its first month ends on this exception, having made only
    those calls.  No call of a run comes from an identifier the table does
    not have. *)
Theorem unknown_variable_raises (era5 : gmap string (list string))
    (vname : string) :
  era5 !! vname = None ->
  is_LookupError (KeyError vname) = true
  /\ (forall cfg w, Request.request cfg era5 w vname = Raise (KeyError vname))
  /\ (forall cfg w, Analysis.request cfg era5 w vname = Raise (KeyError vname))
  /\ (forall cfg retrieve w pre post calls,
       Request.variables_loop cfg era5 retrieve w pre = (calls, None) ->
       Request.variables_loop cfg era5 retrieve w (pre ++ vname :: post)
         = (calls, Some (KeyError vname)))
  /\ (forall cfg retrieve w pre post calls,
       Analysis.variables_loop cfg era5 retrieve w pre = (calls, None) ->
       Analysis.variables_loop cfg era5 retrieve w (pre ++ vname :: post)
         = (calls, Some (KeyError vname)))
  /\ (forall sy sm ey em V t a dir retrieve w0 pre post calls,
       valid_month sy sm -> valid_month ey em ->
       month_rank sy sm <= month_rank ey em -> 0 <= V ->
       reference_window V sy sm = Some w0 ->
       let cfg := Request.mkconfig sy sm ey em V t a (pre ++ vname :: post) dir in
       Request.variables_loop cfg era5 retrieve w0 pre = (calls, None) ->
       Request.script cfg era5 retrieve = (calls, Some (KeyError vname)))
  /\ (forall sy sm ey em V t a dir retrieve w0 pre post calls,
       valid_month sy sm -> valid_month ey em ->
       month_rank sy sm <= month_rank ey em -> 0 <= V ->
       reference_window V sy sm = Some w0 ->
       let cfg := Analysis.mkconfig sy sm ey em V t a (pre ++ vname :: post) dir in
       Analysis.variables_loop cfg era5 retrieve w0 pre = (calls, None) ->
       Analysis.script cfg era5 retrieve = (calls, Some (KeyError vname)))
  /\ (forall cfg retrieve c,
       c ∈ (Request.script cfg era5 retrieve).1 ->
       exists w v, v <> vname /\ Request.request cfg era5 w v = Ok c)
  /\ (forall cfg retrieve c,
       c ∈ (Analysis.script cfg era5 retrieve).1 ->
       exists w v, v <> vname /\ Analysis.request cfg era5 w v = Ok c).
Proof.
  intros H.
  split; [reflexivity|].
  split; [intros; apply request_unknown, H|].
  split; [intros; apply analysis_request_unknown, H|].
  split.
  { intros. eapply variables_loop_stops; [eassumption|].
    apply request_unknown, H. }
  split.
  { intros. eapply analysis_variables_loop_stops; [eassumption|].
    apply analysis_request_unknown, H. }
  split.
  { intros sy sm ey em V t a dir retrieve w0 pre post calls Hs He Hr HV Hw cfg Hpre.
    unfold Request.script.
    apply (monthly_dates_first_month cfg _ w0); try assumption.
    cbn [Request.variables cfg].
    eapply variables_loop_stops; [eassumption|]. apply request_unknown, H. }
  split.
  { intros sy sm ey em V t a dir retrieve w0 pre post calls Hs He Hr HV Hw cfg Hpre.
    unfold Analysis.script. rewrite mdates_eq.
    apply (monthly_dates_first_month (as_request cfg) _ w0); try assumption.
    cbn [Analysis.variables cfg].
    eapply analysis_variables_loop_stops; [eassumption|].
    apply analysis_request_unknown, H. }
  split.
  - intros cfg retrieve c Hc.
    destruct (script_calls _ _ _ _ Hc) as (w & v & _ & _ & E).
    exists w, v. split; [|exact E]. intros ->.
    rewrite request_unknown in E by exact H. discriminate.
  - intros cfg retrieve c Hc.
    destruct (analysis_script_calls _ _ _ _ Hc) as (w & v & _ & _ & E).
    exists w, v. split; [|exact E]. intros ->.
    rewrite analysis_request_unknown in E by exact H. discriminate.
Qed.

Lemma unknown_variable_raises_witness :
  Request.script
    (Request.mkconfig 2020 11 2020 12 1 "00/12" [] (["sst"] ++ "xx" :: ["q"]) "")
    example_table (fun _ => Ok tt)
  = ([mkcall "reanalysis-era5-single-levels"
        (Request.options "2020-10-31/2020-12-01" "sea_surface_temperature"
           "sfc" [] "00/12")
        "/ERA5/ERA5_ecmwf_SST_Y2020M11.nc"],
     Some (KeyError "xx")).
Proof.
  assert (H0 : example_table !! "xx" = None) by (vm_compute; reflexivity).
  pose proof (unknown_variable_raises example_table "xx" H0)
    as (_ & _ & _ & _ & _ & H & _).
  apply (H 2020 11 2020 12 1 "00/12" [] "" (fun _ => Ok tt)
           (mkwindow 2020 11 "2020-10-31" "2020-12-01") ["sst"] ["q"]);
    unfold valid_month, month_rank; try lia; vm_compute; reflexivity.
Defined.

(** C8.  When the end month comes before the start month the computed
    number of months is at most 0 and, in both scripts, the generator of
    windows hands out nothing and ends without an exception, and the script
    makes no call to the archive and ends without an exception. *)
Theorem end_before_start_nothing_requested (sy sm ey em : Z) :
  valid_month sy sm -> valid_month ey em ->
  month_rank ey em < month_rank sy sm ->
  (ey - sy) * 12 + (em - sm) + 1 <= 0
  /\ (forall V t a vs dir era5 retrieve,
       let cfg := Request.mkconfig sy sm ey em V t a vs dir in
       Request.date_windows cfg = ([], None)
       /\ Request.script cfg era5 retrieve = ([], None))
  /\ (forall V t a vs dir era5 retrieve,
       let cfg := Analysis.mkconfig sy sm ey em V t a vs dir in
       Analysis.date_windows cfg = ([], None)
       /\ Analysis.script cfg era5 retrieve = ([], None)).
Proof.
  intros Hs He Hr.
  assert (Hlen : (ey - sy) * 12 + (em - sm) + 1 <= 0)
    by (unfold month_rank in Hr; lia).
  assert (Hloop : forall (A : Type) V t a vs dir (consume : window -> outcome A),
    Request.monthly_dates (Request.mkconfig sy sm ey em V t a vs dir) consume
      = ([], None)).
  { intros. rewrite monthly_dates_unfold by assumption.
    cbn [Request.year_start Request.month_start Request.year_end
         Request.month_end].
    replace (Z.to_nat _) with 0%nat by lia. reflexivity. }
  split; [exact Hlen|]. split; intros; subst cfg.
  - split; apply Hloop.
  - unfold Analysis.date_windows, Analysis.script.
    rewrite !mdates_eq. split; apply Hloop.
Qed.

Lemma end_before_start_nothing_requested_witness :
  (2020 - 2021) * 12 + (12 - 1) + 1 <= 0
  /\ (forall V t a vs dir era5 retrieve,
       let cfg := Request.mkconfig 2021 1 2020 12 V t a vs dir in
       Request.date_windows cfg = ([], None)
       /\ Request.script cfg era5 retrieve = ([], None))
  /\ (forall V t a vs dir era5 retrieve,
       let cfg := Analysis.mkconfig 2021 1 2020 12 V t a vs dir in
       Analysis.date_windows cfg = ([], None)
       /\ Analysis.script cfg era5 retrieve = ([], None)).
Proof.
  apply (end_before_start_nothing_requested 2021 1 2020 12);
    unfold valid_month, month_rank; lia.
Defined.

(** C9.  The two scripts assemble their requests alike.  Take a variable
    that the table of the main script knows under an identifier, with a
    canonical name and a level type, and that the table of the analysis
    script knows under this canonical name with the same level type; take
    the same window, configured hours and area.  Then both scripts assemble
    a request, the two dictionaries of options are equal and hold this
    canonical name, level type, window, area and hours, and the two
    products are equal.  The output paths are built alike and differ in the
    directory ("/ERA5" against "/ERA5_analysis") and in the label of the
    variable (the identifier in upper case, for an identifier in ASCII,
    against the abbreviation of the table).  The code that fills the
    dictionary and chooses the product is the same in both. *)
Theorem assemblers_agree :
  (forall date vname vlevt area time,
     Request.options date vname vlevt area time
       = Analysis.options date vname vlevt area time
     /\ Request.product vname = Analysis.product vname)
  /\ (forall cfgR era5R cfgA era5A w ident vname vlevt vabbr eR eA,
       era5R !! ident = Some eR ->
       eR !! 0%nat = Some vname -> eR !! 3%nat = Some vlevt ->
       era5A !! vname = Some eA ->
       eA !! 1%nat = Some vlevt -> eA !! 2%nat = Some vabbr ->
       Request.time cfgR = Analysis.time cfgA ->
       Request.varea cfgR = Analysis.area cfgA ->
       exists cR cA,
         Request.request cfgR era5R w ident = Ok cR
         /\ Analysis.request cfgA era5A w vname = Ok cA
         /\ c_options cR = c_options cA
         /\ c_product cR = c_product cA
         /\ c_options cR !! "variable" = Some (PStr vname)
         /\ c_options cR !! "levtype" = Some (PStr vlevt)
         /\ c_options cR !! "date" = Some (PStr (w_start w +:+ "/" +:+ w_end w))
         /\ c_options cR !! "area" = Some (PArea (Request.varea cfgR))
         /\ hours_rule (Request.time cfgR) vname cR
         /\ pressure_rule vname cR
         /\ (exists label,
               c_output cR = (Request.main_dir cfgR +:+ "/ERA5") +:+ "/"
                               +:+ Analysis.fname label (w_year w) (w_month w)
               /\ (ascii_text ident = true -> label = upper ident))
         /\ c_output cA = (Analysis.main_dir cfgA +:+ "/ERA5_analysis") +:+ "/"
                            +:+ Analysis.fname vabbr (w_year w) (w_month w)).
Proof.
  split; [intros; split; reflexivity|].
  intros cfgR era5R cfgA era5A w ident vname vlevt vabbr eR eA
    HR HR0 HR3 HA HA1 HA2 Ht Ha.
  rewrite (request_assembled cfgR era5R w ident eR vname vlevt HR HR0 HR3).
  rewrite (analysis_request_assembled cfgA era5A w vname eA vlevt vabbr HA HA1 HA2).
  eexists. eexists. split; [reflexivity|]. split; [reflexivity|].
  cbn [c_options c_product c_output].
  rewrite <- Ht, <- Ha.
  split; [reflexivity|]. split; [reflexivity|].
  split; [apply options_variable|]. split; [apply options_levtype|].
  split; [apply options_date|]. split; [apply options_area|].
  split; [apply options_hours_rule|]. split; [apply options_pressure_rule|].
  split; [|reflexivity].
  exists (upper ident). split; [reflexivity|]. intros _. reflexivity.
Qed.

(** The two requests for the sea surface temperature of November 2020, one
    of each script. *)
Example assemblers_agree_example :
  Request.request
    (Request.mkconfig 2020 11 2020 11 1 "00/12" [(-30); (-80); (-40); (-70)]
       ["sst"] "/data")
    example_table (mkwindow 2020 11 "2020-10-31" "2020-12-01") "sst"
  = Ok (mkcall "reanalysis-era5-single-levels"
          (Request.options "2020-10-31/2020-12-01" "sea_surface_temperature"
             "sfc" [(-30); (-80); (-40); (-70)] "00/12")
          "/data/ERA5/ERA5_ecmwf_SST_Y2020M11.nc")
  /\ Analysis.request
      (Analysis.mkconfig 2020 11 2020 11 1 "00/12" [(-30); (-80); (-40); (-70)]
         ["sea_surface_temperature"] "/data")
      (<["sea_surface_temperature" := ["K"; "sfc"; "SST"] ]> ∅)
      (mkwindow 2020 11 "2020-10-31" "2020-12-01") "sea_surface_temperature"
    = Ok (mkcall "reanalysis-era5-single-levels"
            (Request.options "2020-10-31/2020-12-01" "sea_surface_temperature"
               "sfc" [(-30); (-80); (-40); (-70)] "00/12")
            "/data/ERA5_analysis/ERA5_ecmwf_SST_Y2020M11.nc").
Proof. split; vm_compute; reflexivity. Qed.

(** C10, as amended.  For every valid date [D] and every integer count [n],
    negative ones included, floor division and modulo give a month in 1..12
    and a year with [year * 12 + month] equal to that of [D] plus [n]; when
    that year is one the date type has (1..9999) both functions return this
    month of this year, the day cut down to the length of the month, and
    otherwise they raise: [ValueError] when the year is a C int (from -2^31
    to 2^31 - 1), [OverflowError] when it is not. *)
Theorem month_advance_any_count (D : date) (n : Z) :
  valid_date D = true ->
  let y := year D + (month D - 1 + n) / 12 in
  let m := (month D - 1 + n) mod 12 + 1 in
  1 <= m <= 12
  /\ y * 12 + m = year D * 12 + month D + n
  /\ (1 <= y <= 9999 ->
      Utilities.addmonths4date D n
        = Ok (mkdate y m (Z.min (day D) (days_in_month y m)))
      /\ Analysis.add_months D n
        = Ok (mkdate y m (Z.min (day D) (days_in_month y m)))
      /\ valid_date (mkdate y m (Z.min (day D) (days_in_month y m))) = true)
  /\ (~ 1 <= y <= 9999 ->
      Utilities.addmonths4date D n
        = Raise (if fits_int y then ValueError else OverflowError)
      /\ Analysis.add_months D n
        = Raise (if fits_int y then ValueError else OverflowError)).
Proof.
  intros V y m.
  pose proof (advanced_index D n) as [Hi Hm].
  unfold advanced in Hi, Hm. cbn [year month] in Hi, Hm. fold y m in Hi, Hm.
  split; [exact Hm|]. split; [exact Hi|]. split.
  - intros Hy. change (Analysis.add_months D n) with (Utilities.addmonths4date D n).
    destruct (addmonths4date_ok D n V ltac:(lia)) as [E V'].
    repeat split; assumption.
  - intros Hy. change (Analysis.add_months D n) with (Utilities.addmonths4date D n).
    split; apply addmonths4date_out_of_range; (assumption || lia).
Qed.

Lemma month_advance_any_count_witness :
  let y := 2020 + (3 - 1 + (-5)) / 12 in
  let m := (3 - 1 + (-5)) mod 12 + 1 in
  1 <= m <= 12
  /\ y * 12 + m = 2020 * 12 + 3 + (-5)
  /\ (1 <= y <= 9999 ->
      Utilities.addmonths4date (mkdate 2020 3 31) (-5)
        = Ok (mkdate y m (Z.min 31 (days_in_month y m)))
      /\ Analysis.add_months (mkdate 2020 3 31) (-5)
        = Ok (mkdate y m (Z.min 31 (days_in_month y m)))
      /\ valid_date (mkdate y m (Z.min 31 (days_in_month y m))) = true)
  /\ (~ 1 <= y <= 9999 ->
      Utilities.addmonths4date (mkdate 2020 3 31) (-5)
        = Raise (if fits_int y then ValueError else OverflowError)
      /\ Analysis.add_months (mkdate 2020 3 31) (-5)
        = Raise (if fits_int y then ValueError else OverflowError)).
Proof.
  apply (month_advance_any_count (mkdate 2020 3 31) (-5)). reflexivity.
Defined.

(** The two ways out of the calendar, on examples: a year past 9999 that is
    a C int, and a year that is not. *)
Example month_advance_raises :
  Utilities.addmonths4date (mkdate 2020 1 1) 120000 = Raise ValueError
  /\ Analysis.add_months (mkdate 2020 1 1) 120000 = Raise ValueError
  /\ Utilities.addmonths4date (mkdate 2020 1 1) 25769803776 = Raise OverflowError
  /\ Analysis.add_months (mkdate 2020 1 1) 25769803776 = Raise OverflowError.
Proof. repeat split; vm_compute; reflexivity. Qed.

(** C10 fails as stated: one month before 0001-01-01 the functions are not
    defined; the constructor refuses the year 0. *)
Lemma month_advance_before_first_year :
  valid_date (mkdate 1 1 1) = true
  /\ Utilities.addmonths4date (mkdate 1 1 1) (-1) = Raise ValueError
  /\ Analysis.add_months (mkdate 1 1 1) (-1) = Raise ValueError
  /\ ~ (exists D', Utilities.addmonths4date (mkdate 1 1 1) (-1) = Ok D').
Proof.
  repeat split; try reflexivity.
  intros [D' H]. discriminate H.
Qed.

(** ** Further properties of the code *)

Lemma rank_unique (y1 m1 y2 m2 : Z) :
  1 <= m1 <= 12 -> 1 <= m2 <= 12 ->
  y1 * 12 + m1 = y2 * 12 + m2 -> y1 = y2 /\ m1 = m2.
Proof. lia. Qed.

Lemma ymd2ord_rank_lt (y1 m1 d1 y2 m2 d2 : Z) :
  1 <= m1 <= 12 -> 1 <= d1 <= days_in_month y1 m1 ->
  1 <= m2 <= 12 -> 1 <= d2 <= days_in_month y2 m2 ->
  month_rank y1 m1 < month_rank y2 m2 ->
  ymd2ord y1 m1 d1 < ymd2ord y2 m2 d2.
Proof.
  intros H1 Hd1 H2 Hd2 R.
  destruct (rank_order y1 m1 y2 m2 H1 H2 ltac:(lia)) as [L | [<- L]].
  - pose proof (ymd2ord_bounds y1 m1 d1 H1 Hd1).
    pose proof (ymd2ord_bounds y2 m2 d2 H2 Hd2).
    pose proof (days_before_year_mono (y1 + 1) y2 ltac:(lia)). lia.
  - assert (Lt : m1 < m2) by (unfold month_rank in R; lia).
    clear R L. revert Hd1 Hd2 Lt.
    unfold ymd2ord, days_before_month, days_in_month.
    destruct (isleap y1); each_month m1 H1; each_month m2 H2; simpl; lia.
Qed.

(** X1.  Month advances compose on the year and the month: advancing a
    valid date by [a] months and the result by [b] months reaches the year
    and month that advancing by [a + b] at once reaches, with a day that is
    never later; when the day of the start is at most 28 no day is ever cut
    and the two ways give the same date. *)
Theorem month_advance_composes (D D1 D2 : date) (a b : Z) :
  valid_date D = true ->
  Utilities.addmonths4date D a = Ok D1 ->
  Utilities.addmonths4date D1 b = Ok D2 ->
  exists D3,
    Utilities.addmonths4date D (a + b) = Ok D3
    /\ year D2 = year D3 /\ month D2 = month D3 /\ day D2 <= day D3
    /\ (day D <= 28 -> D2 = D3).
Proof.
  intros V H1 H2.
  destruct (addmonths4date_inv _ _ _ H1) as [-> V1].
  destruct (addmonths4date_inv _ _ _ H2) as [-> V2].
  pose proof (advanced_index D a) as [I1 M1].
  pose proof (advanced_index (advanced D a) b) as [I2 M2].
  pose proof (advanced_index D (a + b)) as [I3 M3].
  assert (I23 : year (advanced (advanced D a) b) * 12 + month (advanced (advanced D a) b)
               = year (advanced D (a + b)) * 12 + month (advanced D (a + b))) by lia.
  destruct (rank_unique _ _ _ _ M2 M3 I23) as [Ey Em].
  apply valid_date_spec in V2. destruct V2 as (Hy2 & _ & Hd2).
  apply valid_date_spec in V1. destruct V1 as (Hy1 & _ & Hd1).
  pose proof V as V0. apply valid_date_spec in V. destruct V as (Hy & Hm & Hd).
  destruct (addmonths4date_ok D (a + b) V0) as [E3 V3]; [lia|].
  exists (advanced D (a + b)). split; [exact E3|].
  split; [exact Ey|]. split; [exact Em|].
  assert (Dd : day (advanced (advanced D a) b)
               = Z.min (day (advanced D a))
                   (days_in_month (year (advanced D (a + b)))
                      (month (advanced D (a + b))))).
  { rewrite <- Ey, <- Em. reflexivity. }
  assert (D3d : day (advanced D (a + b))
               = Z.min (day D) (days_in_month (year (advanced D (a + b)))
                                  (month (advanced D (a + b)))))
    by reflexivity.
  assert (D1d : day (advanced D a)
               = Z.min (day D) (days_in_month (year (advanced D a))
                                  (month (advanced D a))))
    by reflexivity.
  split; [lia|].
  intros H28.
  pose proof (days_in_month_bounds (year (advanced D a)) _ M1).
  pose proof (days_in_month_bounds (year (advanced D (a + b))) _ M3).
  assert (Ed : day (advanced (advanced D a) b) = day (advanced D (a + b))) by lia.
  destruct (advanced (advanced D a) b), (advanced D (a + b)).
  cbn [year month day] in *. congruence.
Qed.

Lemma month_advance_composes_witness :
  exists D3,
    Utilities.addmonths4date (mkdate 2020 1 31) (1 + 1) = Ok D3
    /\ year (mkdate 2020 3 29) = year D3 /\ month (mkdate 2020 3 29) = month D3
    /\ day (mkdate 2020 3 29) <= day D3
    /\ (day (mkdate 2020 1 31) <= 28 -> mkdate 2020 3 29 = D3).
Proof.
  apply (month_advance_composes (mkdate 2020 1 31) (mkdate 2020 2 29)
           (mkdate 2020 3 29) 1 1); reflexivity.
Defined.

(** X2.  Advancing a valid date by no month gives the date back, and
    advancing by [n] months and then by [-n] months gives back a date whose
    day is at most 28. *)
Theorem month_advance_round_trip (D : date) :
  valid_date D = true ->
  Utilities.addmonths4date D 0 = Ok D
  /\ (forall n D1,
        Utilities.addmonths4date D n = Ok D1 -> day D <= 28 ->
        Utilities.addmonths4date D1 (- n) = Ok D).
Proof.
  intros V. pose proof V as V0.
  apply valid_date_spec in V. destruct V as (Hy & Hm & Hd).
  assert (Z0 : advanced D 0 = D).
  { pose proof (advanced_index D 0) as [I M].
    assert (I0 : year (advanced D 0) * 12 + month (advanced D 0)
                 = year D * 12 + month D) by lia.
    destruct (rank_unique _ _ _ _ M Hm I0) as [Ey Em].
    assert (Ed : day (advanced D 0) = day D).
    { change (day (advanced D 0))
        with (Z.min (day D) (days_in_month (year (advanced D 0))
                               (month (advanced D 0)))).
      rewrite Ey, Em. lia. }
    destruct D, (advanced _ 0). cbn [year month day] in *. congruence. }
  split.
  - destruct (addmonths4date_ok D 0 V0) as [E _]; [lia|].
    rewrite E, Z0. reflexivity.
  - intros n D1 H1 H28.
    destruct (addmonths4date_inv _ _ _ H1) as [-> V1].
    pose proof (advanced_index D n) as [I1 M1].
    pose proof (advanced_index (advanced D n) (- n)) as [I2 M2].
    assert (I0 : year (advanced (advanced D n) (- n)) * 12
                 + month (advanced (advanced D n) (- n))
                 = year D * 12 + month D) by lia.
    destruct (rank_unique _ _ _ _ M2 Hm I0) as [Ey Em].
    destruct (addmonths4date_ok (advanced D n) (- n) V1) as [E2 _]; [lia|].
    rewrite E2. f_equal.
    pose proof (days_in_month_bounds (year (advanced D n)) _ M1).
    assert (Ed : day (advanced (advanced D n) (- n)) = day D).
    { change (day (advanced (advanced D n) (- n)))
        with (Z.min (day (advanced D n))
                (days_in_month (year (advanced (advanced D n) (- n)))
                   (month (advanced (advanced D n) (- n))))).
      change (day (advanced D n))
        with (Z.min (day D) (days_in_month (year (advanced D n))
                               (month (advanced D n)))).
      rewrite Ey, Em. lia. }
    destruct D, (advanced (advanced _ n) (- n)).
    cbn [year month day] in *. congruence.
Qed.

Lemma month_advance_round_trip_witness :
  Utilities.addmonths4date (mkdate 2020 11 15) 0 = Ok (mkdate 2020 11 15)
  /\ (forall n D1,
        Utilities.addmonths4date (mkdate 2020 11 15) n = Ok D1 ->
        day (mkdate 2020 11 15) <= 28 ->
        Utilities.addmonths4date D1 (- n) = Ok (mkdate 2020 11 15)).
Proof. apply (month_advance_round_trip (mkdate 2020 11 15)). reflexivity. Defined.

(** X3.  A larger count of months gives a later date: for a valid date and
    counts [a < b] that both give a date, the date for [a] is strictly
    before the date for [b]. *)
Theorem month_advance_increasing (D Da Db : date) (a b : Z) :
  valid_date D = true -> a < b ->
  Utilities.addmonths4date D a = Ok Da ->
  Utilities.addmonths4date D b = Ok Db ->
  toordinal Da < toordinal Db.
Proof.
  intros V Hab Ha Hb.
  destruct (addmonths4date_inv _ _ _ Ha) as [-> Va].
  destruct (addmonths4date_inv _ _ _ Hb) as [-> Vb].
  apply valid_date_spec in Va, Vb.
  destruct Va as (_ & Ma & Da). destruct Vb as (_ & Mb & Db).
  apply ymd2ord_rank_lt; try assumption.
  rewrite !advanced_rank. lia.
Qed.

Lemma month_advance_increasing_witness :
  toordinal (mkdate 2020 2 29) < toordinal (mkdate 2020 3 31).
Proof.
  apply (month_advance_increasing (mkdate 2020 1 31) _ _ 1 2);
    [reflexivity | lia | reflexivity | reflexivity].
Defined.

(** X4.  The padded limits for any overlap, negative ones included (the
    scripts do not check its sign): for a month of the calendar the start is
    the date of ordinal (first day) - V and the end the date of ordinal
    (last day) + V when both ordinals lie in 1 .. 3652059.  Otherwise the
    scripts raise on the first of the two ordinals that is out of this range,
    the start being computed first: [OverflowError] when that ordinal is not
    a C int, [ValueError] when it is. *)
Theorem padded_limits_any_overlap (V y m : Z) :
  valid_month y m ->
  let n_start := ymd2ord y m 1 - V in
  let n_end := ymd2ord y m (days_in_month y m) + V in
  ((1 <= n_start <= MAXORDINAL /\ 1 <= n_end <= MAXORDINAL) ->
     exists d_start d_end,
       Request.datestr_overlap V y m
         = Ok (strftime_Ymd d_start, strftime_Ymd d_end)
       /\ Analysis.date_overlap V y m
         = Ok (strftime_Ymd d_start, strftime_Ymd d_end)
       /\ valid_date d_start = true /\ valid_date d_end = true
       /\ toordinal d_start = n_start /\ toordinal d_end = n_end)
  /\ (~ (1 <= n_start <= MAXORDINAL /\ 1 <= n_end <= MAXORDINAL) ->
       let refused :=
         if (1 <=? n_start) && (n_start <=? MAXORDINAL) then n_end else n_start in
       Request.datestr_overlap V y m
         = Raise (if fits_int refused then ValueError else OverflowError)
       /\ Analysis.date_overlap V y m
         = Raise (if fits_int refused then ValueError else OverflowError)).
Proof.
  intros [Hy Hm] n_start n_end.
  pose proof (days_in_month_bounds y m Hm) as Hd.
  assert (C1 : check_date_fields y m 1 = true)
    by (apply check_date_fields_spec; lia).
  assert (C2 : check_date_fields y m (days_in_month y m) = true)
    by (apply check_date_fields_spec; lia).
  assert (U : Request.datestr_overlap V y m
            = match fromordinal n_start with
              | Ok d_start =>
                  match fromordinal n_end with
                  | Ok d_end => Ok (strftime_Ymd d_start, strftime_Ymd d_end)
                  | Raise e => Raise e
                  end
              | Raise e => Raise e
              end).
  { unfold Request.datestr_overlap.
    rewrite monthrange_ndays_ok by assumption. cbn [bind].
    rewrite !datetime_date_cases. rewrite C1, C2. cbn [bind].
    unfold toordinal. cbn [year month day]. fold n_start n_end.
    destruct (fromordinal n_start); [|reflexivity]. cbn [bind].
    destruct (fromordinal n_end); reflexivity. }
  change (Analysis.date_overlap V y m) with (Request.datestr_overlap V y m).
  rewrite U. split.
  - intros [R1 R2].
    destruct (fromordinal_ok n_start R1) as (ds & -> & Vs & Ts).
    destruct (fromordinal_ok n_end R2) as (de & -> & Ve & Te).
    exists ds, de. repeat split; assumption.
  - intros N. cbv zeta.
    destruct ((1 <=? n_start) && (n_start <=? MAXORDINAL)) eqn:R.
    + apply andb_true_iff in R. rewrite !Z.leb_le in R.
      destruct (fromordinal_ok n_start R) as (ds & -> & _).
      rewrite (fromordinal_out_of_range n_end) by lia. split; reflexivity.
    + assert (R' : ~ (1 <= n_start <= MAXORDINAL)).
      { intros [A B]. apply Z.leb_le in A, B. rewrite A, B in R. discriminate. }
      rewrite (fromordinal_out_of_range n_start) by assumption.
      split; reflexivity.
Qed.

Lemma padded_limits_any_overlap_witness :
  let n_start := ymd2ord 2020 11 1 - (-2) in
  let n_end := ymd2ord 2020 11 (days_in_month 2020 11) + (-2) in
  ((1 <= n_start <= MAXORDINAL /\ 1 <= n_end <= MAXORDINAL) ->
     exists d_start d_end,
       Request.datestr_overlap (-2) 2020 11
         = Ok (strftime_Ymd d_start, strftime_Ymd d_end)
       /\ Analysis.date_overlap (-2) 2020 11
         = Ok (strftime_Ymd d_start, strftime_Ymd d_end)
       /\ valid_date d_start = true /\ valid_date d_end = true
       /\ toordinal d_start = n_start /\ toordinal d_end = n_end)
  /\ (~ (1 <= n_start <= MAXORDINAL /\ 1 <= n_end <= MAXORDINAL) ->
       let refused :=
         if (1 <=? n_start) && (n_start <=? MAXORDINAL) then n_end else n_start in
       Request.datestr_overlap (-2) 2020 11
         = Raise (if fits_int refused then ValueError else OverflowError)
       /\ Analysis.date_overlap (-2) 2020 11
         = Raise (if fits_int refused then ValueError else OverflowError)).
Proof.
  apply (padded_limits_any_overlap (-2) 2020 11). unfold valid_month. lia.
Defined.

(** The limits on examples: an overlap of two days taken off, one that
    reaches before the first day of the calendar, and one whose ordinal is
    not a C int. *)
Example padded_limits_examples :
  Request.datestr_overlap (-2) 2020 11 = Ok ("2020-11-03", "2020-11-28")
  /\ Request.datestr_overlap 800000 2020 11 = Raise ValueError
  /\ Request.datestr_overlap 4294967296 2020 11 = Raise OverflowError
  /\ Analysis.date_overlap 4294967296 2020 11 = Raise OverflowError.
Proof. repeat split; vm_compute; reflexivity. Qed.

Lemma next_month_first_ord (y m y' m' : Z) :
  1 <= m <= 12 -> 1 <= m' <= 12 ->
  month_rank y' m' = month_rank y m + 1 ->
  ymd2ord y' m' 1 = ymd2ord y m (days_in_month y m) + 1.
Proof.
  intros Hm Hm' R. unfold month_rank in R.
  destruct (Z_lt_le_dec m 12) as [L|L].
  - assert (y' = y /\ m' = m + 1) as [-> ->] by lia.
    unfold ymd2ord. rewrite days_before_month_succ by lia. lia.
  - assert (y' = y + 1 /\ m' = 1 /\ m = 12) as (-> & -> & ->) by lia.
    unfold ymd2ord. rewrite days_before_year_succ.
    unfold days_before_month, days_in_month. simpl.
    destruct (isleap y), (isleap (y + 1)); simpl; lia.
Qed.

Lemma date_windows_lookup (cfg : Request.config) (i : nat) (w : window) :
  0 <= Request.n_overlap cfg ->
  (Request.date_windows cfg).1 !! i = Some w ->
  month_rank (w_year w) (w_month w)
    = month_rank (Request.year_start cfg) (Request.month_start cfg) + Z.of_nat i
  /\ valid_month (w_year w) (w_month w)
  /\ reference_window (Request.n_overlap cfg) (w_year w) (w_month w) = Some w.
Proof.
  intros HV. unfold Request.date_windows, Request.monthly_dates.
  destruct (datetime_date (Request.year_start cfg) (Request.month_start cfg) 1)
    as [d0|] eqn:E0; [|cbn; discriminate].
  destruct (datetime_date (Request.year_end cfg) (Request.month_end cfg) 1)
    as [d1|]; [|cbn; discriminate].
  rewrite datetime_date_cases in E0.
  destruct (check_date_fields _ _ _) eqn:C in E0; [|discriminate].
  injection E0 as <-. intros H.
  assert (Vd : valid_date (mkdate (Request.year_start cfg)
                             (Request.month_start cfg) 1) = true) by exact C.
  destruct (windows_loop_lookup cfg HV _ _ _ _ Vd H) as (R & Hy & Hm & Rw).
  cbn [year month] in R. split; [exact R|]. split; [split; assumption|exact Rw].
Qed.

Lemma reference_window_days (V : Z) (w : window) :
  valid_month (w_year w) (w_month w) -> 0 <= V ->
  reference_window V (w_year w) (w_month w) = Some w ->
  window_days V w.
Proof.
  intros Hv HV Hw.
  destruct (reference_window_dates V _ _ w Hv HV Hw)
    as (ds & de & Vs & Ve & Ts & Te & E).
  exists ds, de. rewrite E at 1 2. cbn [w_start w_end].
  repeat split; try assumption.
  rewrite Ts, Te. unfold toordinal, ymd2ord. cbn [year month day]. lia.
Qed.

(** X5.  Every window the generator hands out, in a run of either script
    with a non-negative overlap [V], covers the days of its month and
    [2 * V] more: its limits are the texts of two dates, the start [V] days
    before the first day of the month, with (days in the month) + 2 V days
    from start to end, both included. *)
Theorem window_covers_month (V : Z) :
  0 <= V ->
  (forall sy sm ey em t a vs dir w,
     w ∈ (Request.date_windows (Request.mkconfig sy sm ey em V t a vs dir)).1 ->
     window_days V w)
  /\ (forall sy sm ey em t a vs dir w,
       w ∈ (Analysis.date_windows (Analysis.mkconfig sy sm ey em V t a vs dir)).1 ->
       window_days V w).
Proof.
  intros HV.
  assert (H : forall sy sm ey em t a vs dir w,
     w ∈ (Request.date_windows (Request.mkconfig sy sm ey em V t a vs dir)).1 ->
     window_days V w).
  { intros sy sm ey em t a vs dir w Hin.
    apply list_elem_of_lookup in Hin. destruct Hin as [i Hi].
    apply date_windows_lookup in Hi; [|exact HV].
    destruct Hi as (_ & Hv & Hw). cbn [Request.n_overlap] in Hw.
    apply reference_window_days; assumption. }
  split; [exact H|]. intros sy sm ey em t a vs dir w Hin. eapply H.
  rewrite analysis_date_windows_eq in Hin. exact Hin.
Qed.

Lemma window_covers_month_witness :
  (forall sy sm ey em t a vs dir w,
     w ∈ (Request.date_windows (Request.mkconfig sy sm ey em 1 t a vs dir)).1 ->
     window_days 1 w)
  /\ (forall sy sm ey em t a vs dir w,
       w ∈ (Analysis.date_windows (Analysis.mkconfig sy sm ey em 1 t a vs dir)).1 ->
       window_days 1 w).
Proof. apply (window_covers_month 1). lia. Defined.

(** X6.  Consecutive windows of a run leave no day out: with a non-negative
    overlap [V], the start of each window after the first is the date
    [2 * V - 1] days before the end of the window before it (the next day
    when [V = 0], so that the windows then tile the days without gap or
    overlap). *)
Theorem consecutive_windows_meet (V : Z) :
  0 <= V ->
  (forall sy sm ey em t a vs dir i w w',
     let ws := (Request.date_windows
                  (Request.mkconfig sy sm ey em V t a vs dir)).1 in
     ws !! i = Some w -> ws !! S i = Some w' -> windows_meet V w w')
  /\ (forall sy sm ey em t a vs dir i w w',
       let ws := (Analysis.date_windows
                    (Analysis.mkconfig sy sm ey em V t a vs dir)).1 in
       ws !! i = Some w -> ws !! S i = Some w' -> windows_meet V w w').
Proof.
  intros HV.
  assert (H : forall sy sm ey em t a vs dir i w w',
     let ws := (Request.date_windows
                  (Request.mkconfig sy sm ey em V t a vs dir)).1 in
     ws !! i = Some w -> ws !! S i = Some w' -> windows_meet V w w').
  { intros sy sm ey em t a vs dir i w w' ws Hi Hi'.
    apply date_windows_lookup in Hi; [|exact HV].
    apply date_windows_lookup in Hi'; [|exact HV].
    cbn [Request.n_overlap Request.year_start Request.month_start] in Hi, Hi'.
    destruct Hi as (R & Hv & Hw). destruct Hi' as (R' & Hv' & Hw').
    destruct (reference_window_dates V _ _ w Hv HV Hw)
      as (ds & de & Vs & Ve & Ts & Te & E).
    destruct (reference_window_dates V _ _ w' Hv' HV Hw')
      as (ds' & de' & Vs' & Ve' & Ts' & Te' & E').
    exists de, ds'. rewrite E at 1. rewrite E' at 1. cbn [w_start w_end].
    repeat split; try assumption.
    rewrite Ts', Te. unfold toordinal. cbn [year month day].
    rewrite (next_month_first_ord (w_year w) (w_month w) (w_year w') (w_month w'));
      [lia | apply Hv | apply Hv' | lia]. }
  split; [exact H|].
  intros sy sm ey em t a vs dir i w w' ws. subst ws.
  rewrite analysis_date_windows_eq. apply H.
Qed.

Lemma consecutive_windows_meet_witness :
  (forall sy sm ey em t a vs dir i w w',
     let ws := (Request.date_windows
                  (Request.mkconfig sy sm ey em 0 t a vs dir)).1 in
     ws !! i = Some w -> ws !! S i = Some w' -> windows_meet 0 w w')
  /\ (forall sy sm ey em t a vs dir i w w',
       let ws := (Analysis.date_windows
                    (Analysis.mkconfig sy sm ey em 0 t a vs dir)).1 in
       ws !! i = Some w -> ws !! S i = Some w' -> windows_meet 0 w w').
Proof. apply (consecutive_windows_meet 0). lia. Defined.

(** ** Lookups in the table *)

Lemma getitem_spec {A : Type} (l : list A) (i : nat) :
  (exists x, getitem l i = Ok x /\ l !! i = Some x /\ (i < length l)%nat)
  \/ (getitem l i = Raise IndexError /\ (length l <= i)%nat).
Proof.
  unfold getitem. destruct (l !! i) as [x|] eqn:E.
  - left. exists x. repeat split; try reflexivity.
    apply lookup_lt_Some in E. exact E.
  - right. split; [reflexivity|]. apply lookup_ge_None in E. exact E.
Qed.

(** X7.  What the lookups of one variable need: the main script assembles a
    request exactly when the table has the identifier with at least four
    fields, the analysis script exactly when it has it with at least three;
    with fewer fields the indexing raises [IndexError], and whenever nothing
    is assembled the exception is a [LookupError] ([KeyError] or
    [IndexError]). *)
Theorem request_needs_fields (era5 : gmap string (list string)) (w : window)
    (vname : string) :
  (forall cfg,
     ((exists c, Request.request cfg era5 w vname = Ok c)
      <-> (exists entry, era5 !! vname = Some entry /\ (4 <= length entry)%nat))
     /\ (forall entry, era5 !! vname = Some entry -> (length entry < 4)%nat ->
         Request.request cfg era5 w vname = Raise IndexError)
     /\ (forall e, Request.request cfg era5 w vname = Raise e ->
         is_LookupError e = true))
  /\ (forall cfg,
       ((exists c, Analysis.request cfg era5 w vname = Ok c)
        <-> (exists entry, era5 !! vname = Some entry /\ (3 <= length entry)%nat))
       /\ (forall entry, era5 !! vname = Some entry -> (length entry < 3)%nat ->
           Analysis.request cfg era5 w vname = Raise IndexError)
       /\ (forall e, Analysis.request cfg era5 w vname = Raise e ->
           is_LookupError e = true)).
Proof.
  split; intros cfg.
  - unfold Request.request, dict_getitem.
    destruct (era5 !! vname) as [entry|] eqn:E; cbn [bind].
    2:{ split; [|split].
        - split; [intros [c H]; discriminate | intros (? & H & _); discriminate].
        - intros ? H; discriminate.
        - intros e [= <-]. reflexivity. }
    destruct (getitem_spec entry 0) as [(x0 & -> & _ & L0) | [-> L0]];
      destruct (getitem_spec entry 3) as [(x3 & -> & _ & L3) | [-> L3]];
      cbn [bind].
    + split; [|split].
      * split; [intros _; exists entry; split; [reflexivity|lia] | eauto].
      * intros ? [= <-] ?. lia.
      * intros e H. discriminate.
    + split; [|split].
      * split; [intros [c H]; discriminate|].
        intros (? & [= <-] & ?). lia.
      * reflexivity.
      * intros e [= <-]. reflexivity.
    + lia.
    + split; [|split].
      * split; [intros [c H]; discriminate|].
        intros (? & [= <-] & ?). lia.
      * reflexivity.
      * intros e [= <-]. reflexivity.
  - unfold Analysis.request, dict_getitem.
    destruct (era5 !! vname) as [entry|] eqn:E; cbn [bind].
    2:{ split; [|split].
        - split; [intros [c H]; discriminate | intros (? & H & _); discriminate].
        - intros ? H; discriminate.
        - intros e [= <-]. reflexivity. }
    destruct (getitem_spec entry 1) as [(x1 & -> & _ & L1) | [-> L1]];
      destruct (getitem_spec entry 2) as [(x2 & -> & _ & L2) | [-> L2]];
      cbn [bind].
    + split; [|split].
      * split; [intros _; exists entry; split; [reflexivity|lia] | eauto].
      * intros ? [= <-] ?. lia.
      * intros e H. discriminate.
    + split; [|split].
      * split; [intros [c H]; discriminate|].
        intros (? & [= <-] & ?). lia.
      * reflexivity.
      * intros e [= <-]. reflexivity.
    + lia.
    + split; [|split].
      * split; [intros [c H]; discriminate|].
        intros (? & [= <-] & ?). lia.
      * reflexivity.
      * intros e [= <-]. reflexivity.
Qed.

(** ** The dictionary of a request *)

Lemma options_keys (vdate vlong vlevt : string) (varea : list Z) (time : string)
    (k : string) (v : pyval) :
  Request.options vdate vlong vlevt varea time !! k = Some v -> k ∈ option_keys.
Proof.
  unfold Request.options, option_keys.
  destruct (String.eqb vlong "sea_surface_temperature");
    destruct (String.eqb vlong "specific_humidity" || String.eqb vlong "relative_humidity");
    intros H;
    repeat (apply lookup_insert_Some in H;
            destruct H as [[<- _] | [_ H]]; [set_solver|]);
    rewrite lookup_empty in H; discriminate.
Qed.

Lemma options_fixed (vdate vlong vlevt : string) (varea : list Z) (time : string) :
  let o := Request.options vdate vlong vlevt varea time in
  o !! "product_type" = Some (PStr "reanalysis")
  /\ o !! "type" = Some (PStr "an")
  /\ o !! "format" = Some (PStr "netcdf")
  /\ o !! "area" = Some (PArea varea)
  /\ o !! "date" = Some (PStr vdate).
Proof.
  unfold Request.options.
  destruct (String.eqb vlong "sea_surface_temperature");
    destruct (String.eqb vlong "specific_humidity" || String.eqb vlong "relative_humidity");
    cbv zeta; repeat split; by simplify_map_eq.
Qed.

(** X8.  Every request either script assembles carries the same fixed
    fields, "product_type" = "reanalysis", "type" = "an" and "format" =
    "netcdf", the configured area under "area", the two limits of the
    window joined by "/" under "date", the level type of the table under
    "levtype", and no key besides these, "variable", "time" and
    "pressure_level". *)
Theorem request_fields :
  (forall cfg era5 w vname c,
     Request.request cfg era5 w vname = Ok c ->
     c_options c !! "product_type" = Some (PStr "reanalysis")
     /\ c_options c !! "type" = Some (PStr "an")
     /\ c_options c !! "format" = Some (PStr "netcdf")
     /\ c_options c !! "area" = Some (PArea (Request.varea cfg))
     /\ c_options c !! "date" = Some (PStr (w_start w +:+ "/" +:+ w_end w))
     /\ (exists entry vlevt, era5 !! vname = Some entry
           /\ entry !! 3%nat = Some vlevt
           /\ c_options c !! "levtype" = Some (PStr vlevt))
     /\ (forall k v, c_options c !! k = Some v -> k ∈ option_keys))
  /\ (forall cfg era5 w vname c,
       Analysis.request cfg era5 w vname = Ok c ->
       c_options c !! "product_type" = Some (PStr "reanalysis")
       /\ c_options c !! "type" = Some (PStr "an")
       /\ c_options c !! "format" = Some (PStr "netcdf")
       /\ c_options c !! "area" = Some (PArea (Analysis.area cfg))
       /\ c_options c !! "date" = Some (PStr (w_start w +:+ "/" +:+ w_end w))
       /\ c_options c !! "variable" = Some (PStr vname)
       /\ (exists entry vlevt, era5 !! vname = Some entry
             /\ entry !! 1%nat = Some vlevt
             /\ c_options c !! "levtype" = Some (PStr vlevt))
       /\ (forall k v, c_options c !! k = Some v -> k ∈ option_keys)).
Proof.
  split.
  - intros cfg era5 w vname c H.
    destruct (request_inv _ _ _ _ _ H) as (entry & vlong & vlevt & T & _ & L & ->).
    cbn [c_options].
    destruct (options_fixed (Request.vdate w) vlong vlevt (Request.varea cfg)
                (Request.time cfg)) as (F1 & F2 & F3 & F4 & F5).
    repeat split; try assumption.
    + exists entry, vlevt. rewrite options_levtype. auto.
    + apply options_keys.
  - intros cfg era5 w vname c H.
    destruct (analysis_request_inv _ _ _ _ _ H)
      as (entry & vlevt & vabbr & T & L & _ & ->).
    cbn [c_options]. rewrite options_eq.
    destruct (options_fixed (Analysis.date w) vname vlevt (Analysis.area cfg)
                (Analysis.time cfg)) as (F1 & F2 & F3 & F4 & F5).
    repeat split; try assumption.
    + apply options_variable.
    + exists entry, vlevt. rewrite options_levtype. auto.
    + apply options_keys.
Qed.

(** ** How a run ends *)

Lemma fromordinal_raises (n : Z) (e : exn) :
  fromordinal n = Raise e -> e = ValueError \/ e = OverflowError.
Proof.
  unfold fromordinal. destruct (fits_int n); [|intros [= <-]; auto].
  destruct (n <? 1); [intros [= <-]; auto|].
  destruct (ord2ymd n) as [[y m] d]. apply datetime_date_raises.
Qed.

Lemma addmonths4date_raises (D : date) (n : Z) (e : exn) :
  Utilities.addmonths4date D n = Raise e -> e = ValueError \/ e = OverflowError.
Proof. rewrite addmonths4date_unfold. apply datetime_date_raises. Qed.

Lemma datestr_overlap_raises (V y m : Z) (e : exn) :
  1 <= m <= 12 ->
  Request.datestr_overlap V y m = Raise e -> e = ValueError \/ e = OverflowError.
Proof.
  intros Hm. unfold Request.datestr_overlap.
  rewrite monthrange_ndays_ok by assumption. cbn [bind].
  destruct (datetime_date y m 1) eqn:D1; cbn [bind];
    [|intros [= <-]; eapply datetime_date_raises; eassumption].
  destruct (datetime_date y m (days_in_month y m)) eqn:D2; cbn [bind];
    [|intros [= <-]; eapply datetime_date_raises; eassumption].
  destruct (fromordinal _) eqn:E1; cbn [bind];
    [|intros [= <-]; eapply fromordinal_raises; eassumption].
  destruct (fromordinal _) eqn:E2 in |- *; cbn [bind];
    [discriminate | intros [= <-]; eapply fromordinal_raises; eassumption].
Qed.

(** A run that ends without exception went through every month, and what
    it leaves is what was left for each month, in order. *)
Lemma monthly_loop_done {A : Type} (cfg : Request.config)
    (consume : window -> outcome A) (j : nat) (d : date) (outs : list A) :
  Request.monthly_loop cfg consume j d = (outs, None) ->
  exists ws outss,
    Request.monthly_loop cfg (fun w => ([w], None)) j d = (ws, None)
    /\ length ws = j
    /\ Forall2 (fun w out => consume w = (out, None)) ws outss
    /\ outs = concat outss.
Proof.
  revert d outs. induction j as [|j IH]; intros d outs; cbn [Request.monthly_loop].
  { intros [= <-]. exists [], []. repeat split. constructor. }
  destruct (Request.datestr_overlap _ _ _) as [[s e]|]; [|discriminate].
  destruct (consume _) as [out [exc|]] eqn:C; [discriminate|].
  destruct (Utilities.addmonths4date d 1) as [d'|]; [|discriminate].
  specialize (IH d').
  destruct (Request.monthly_loop cfg consume j d') as [outs' exc'].
  intros [= <- ->].
  destruct (IH outs' eq_refl) as (ws & outss & -> & L & F & ->).
  exists (mkwindow (year d) (month d) s e :: ws), (out :: outss).
  repeat split.
  - cbn. rewrite L. reflexivity.
  - constructor; assumption.
Qed.

(** With a consumer that never raises, a run leaves what the consumer
    leaves for each window the generator hands out, and ends as the
    generator ends. *)
Lemma monthly_loop_quiet {A : Type} (cfg : Request.config)
    (consume : window -> outcome A) (j : nat) (d : date) :
  (forall w, (consume w).2 = None) ->
  Request.monthly_loop cfg consume j d
    = (concat (map (fun w => (consume w).1)
                 (Request.monthly_loop cfg (fun w => ([w], None)) j d).1),
       (Request.monthly_loop cfg (fun w => ([w], None)) j d).2).
Proof.
  intros Q. revert d. induction j as [|j IH]; intros d; cbn [Request.monthly_loop].
  { reflexivity. }
  destruct (Request.datestr_overlap _ _ _) as [[s e]|]; [|reflexivity].
  pose proof (Q (mkwindow (year d) (month d) s e)) as Qw.
  destruct (consume _) as [out exc] eqn:C. cbn [snd] in Qw. subst exc.
  destruct (Utilities.addmonths4date d 1) as [d'|].
  2:{ cbn. rewrite C. cbn. rewrite app_nil_r. reflexivity. }
  rewrite (IH d').
  destruct (Request.monthly_loop cfg (fun w => ([w], None)) j d') as [ws exc'].
  cbn. rewrite C. reflexivity.
Qed.

(** A run that ends on an exception ends on [ValueError] or [OverflowError],
    raised by the dates, or on the exception its consumer raised for some
    month. *)
Lemma monthly_loop_exception {A : Type} (cfg : Request.config)
    (consume : window -> outcome A) (j : nat) (d : date) (outs : list A) (e : exn) :
  valid_date d = true ->
  Request.monthly_loop cfg consume j d = (outs, Some e) ->
  (e = ValueError \/ e = OverflowError)
  \/ exists w out, valid_month (w_year w) (w_month w)
       /\ consume w = (out, Some e) /\ (forall x, x ∈ out -> x ∈ outs).
Proof.
  revert d outs. induction j as [|j IH]; intros d outs Vd; cbn [Request.monthly_loop].
  { discriminate. }
  pose proof Vd as Vd0.
  apply valid_date_spec in Vd. destruct Vd as (Hy & Hm & Hd).
  destruct (Request.datestr_overlap _ _ _) as [[s e0]|e0] eqn:E.
  2:{ intros [= <- <-]. left. eapply datestr_overlap_raises; eassumption. }
  destruct (consume _) as [out [exc|]] eqn:C.
  { intros [= <- <-]. right.
    exists (mkwindow (year d) (month d) s e0), out.
    split; [split; assumption|]. auto. }
  destruct (Utilities.addmonths4date d 1) as [d'|e1] eqn:Ad.
  2:{ intros [= <- <-]. left. eapply addmonths4date_raises; eassumption. }
  apply addmonths4date_inv in Ad. destruct Ad as [-> Vd'].
  specialize (IH (advanced d 1)).
  destruct (Request.monthly_loop cfg consume j (advanced d 1)) as [outs' exc'].
  intros [= <- ->].
  destruct (IH outs' Vd' eq_refl) as [D | (w & o & Hv & Cw & Hin)]; [left; exact D|].
  right. exists w, o. split; [exact Hv|]. split; [exact Cw|].
  intros x Hx. apply elem_of_app. right. auto.
Qed.

Lemma retrieve_tt (retrieve : call -> result unit) (c : call) (u : unit) :
  retrieve c = Ok u -> retrieve c = Ok tt.
Proof. destruct u. auto. Qed.

Lemma variables_loop_cases (request : window -> string -> result call)
    (retrieve : call -> result unit) (w : window)
    (loop : list string -> outcome call) :
  (forall vs, loop vs =
     match vs with
     | [] => ([], None)
     | vname :: rest =>
         match request w vname with
         | Raise e => ([], Some e)
         | Ok c =>
             match retrieve c with
             | Raise e => ([c], Some e)
             | Ok _ => let '(calls, exc) := loop rest in (c :: calls, exc)
             end
         end
     end) ->
  forall vs,
    (forall calls, loop vs = (calls, None) ->
        Forall2 (fun v c => request w v = Ok c /\ retrieve c = Ok tt) vs calls)
    /\ (forall calls e, loop vs = (calls, Some e) ->
        (exists v, v ∈ vs /\ request w v = Raise e)
        \/ (exists c, c ∈ calls /\ retrieve c = Raise e))
    /\ ((forall v, v ∈ vs -> exists c, request w v = Ok c) ->
        (forall c, retrieve c = Ok tt) ->
        exists calls, loop vs = (calls, None)).
Proof.
  intros Hloop. induction vs as [|v vs (I2 & I3 & I4)]; rewrite Hloop.
  { repeat split.
    - intros calls [= <-]. constructor.
    - intros calls e H. discriminate.
    - intros _ _. eauto. }
  destruct (request w v) as [c|e0] eqn:R.
  2:{ repeat split.
      - intros calls H. discriminate.
      - intros calls e [= <- <-]. left. exists v. split; [left | exact R].
      - intros H _. destruct (H v) as [c Hc]; [left|]. congruence. }
  destruct (retrieve c) as [u|e1] eqn:T.
  2:{ repeat split.
      - intros calls H. discriminate.
      - intros calls e [= <- <-]. right. exists c. split; [left | exact T].
      - intros _ H. rewrite H in T. discriminate. }
  apply retrieve_tt in T.
  destruct (loop vs) as [calls exc] eqn:L. repeat split.
  - intros calls' [= <- ->]. constructor; [auto|]. apply I2. reflexivity.
  - intros calls' e [= <- ->].
    destruct (I3 calls e eq_refl) as [(v' & Hin & Hr) | (c' & Hin & Hr)].
    + left. exists v'. split; [right|]; assumption.
    + right. exists c'. split; [right|]; assumption.
  - intros Hv Hr. destruct I4 as [calls' E]; [|exact Hr|].
    + intros v' Hin. apply Hv. right. exact Hin.
    + injection E as <- ->. eauto.
Qed.

Lemma request_variables_loop (cfg : Request.config)
    (era5 : gmap string (list string)) (retrieve : call -> result unit)
    (w : window) (vs : list string) :
  Request.variables_loop cfg era5 retrieve w vs =
     match vs with
     | [] => ([], None)
     | vname :: rest =>
         match Request.request cfg era5 w vname with
         | Raise e => ([], Some e)
         | Ok c =>
             match retrieve c with
             | Raise e => ([c], Some e)
             | Ok _ =>
                 let '(calls, exc) := Request.variables_loop cfg era5 retrieve w rest in
                 (c :: calls, exc)
             end
         end
     end.
Proof. destruct vs; reflexivity. Qed.

Lemma analysis_variables_loop (cfg : Analysis.config)
    (era5 : gmap string (list string)) (retrieve : call -> result unit)
    (w : window) (vs : list string) :
  Analysis.variables_loop cfg era5 retrieve w vs =
     match vs with
     | [] => ([], None)
     | vname :: rest =>
         match Analysis.request cfg era5 w vname with
         | Raise e => ([], Some e)
         | Ok c =>
             match retrieve c with
             | Raise e => ([c], Some e)
             | Ok _ =>
                 let '(calls, exc) := Analysis.variables_loop cfg era5 retrieve w rest in
                 (c :: calls, exc)
             end
         end
     end.
Proof. destruct vs; reflexivity. Qed.

Lemma length_concat_uniform {A : Type} (n : nat) (xss : list (list A)) :
  Forall (fun xs => length xs = n) xss ->
  length (concat xss) = (length xss * n)%nat.
Proof.
  induction 1 as [|xs xss H _ IH]; [reflexivity|].
  cbn. rewrite length_app, IH, H. reflexivity.
Qed.

Lemma one_call_each_length (request : window -> string -> result call)
    (retrieve : call -> result unit) (vs : list string) (ws : list window)
    (calls : list call) :
  one_call_each request retrieve vs ws calls ->
  length calls = (length ws * length vs)%nat.
Proof.
  intros (css & F & ->).
  rewrite (length_concat_uniform (length vs)).
  - rewrite (Forall2_length _ _ _ F). reflexivity.
  - clear -F. induction F as [|w cs ws css H _ IH]; constructor; [|exact IH].
    symmetry. eapply Forall2_length. exact H.
Qed.

Lemma monthly_dates_cases {A : Type} (cfg : Request.config)
    (consume : window -> outcome A) :
  (valid_month (Request.year_start cfg) (Request.month_start cfg)
   /\ valid_month (Request.year_end cfg) (Request.month_end cfg)
   /\ Request.monthly_dates cfg consume
      = Request.monthly_loop cfg consume
          (Z.to_nat ((Request.year_end cfg - Request.year_start cfg) * 12
                     + (Request.month_end cfg - Request.month_start cfg) + 1))
          (mkdate (Request.year_start cfg) (Request.month_start cfg) 1))
  \/ (exists e, (e = ValueError \/ e = OverflowError)
        /\ forall (B : Type) (other : window -> outcome B),
             Request.monthly_dates cfg other = ([], Some e)).
Proof.
  destruct (check_date_fields (Request.year_start cfg) (Request.month_start cfg) 1)
    eqn:C1.
  - destruct (check_date_fields (Request.year_end cfg) (Request.month_end cfg) 1)
      eqn:C2.
    + left. apply check_date_fields_spec in C1, C2.
      assert (Hs : valid_month (Request.year_start cfg) (Request.month_start cfg))
        by (split; lia).
      assert (He : valid_month (Request.year_end cfg) (Request.month_end cfg))
        by (split; lia).
      split; [exact Hs|]. split; [exact He|].
      apply monthly_dates_unfold; assumption.
    + right.
      destruct (datetime_date (Request.year_end cfg) (Request.month_end cfg) 1)
        as [d|e] eqn:D2.
      { rewrite datetime_date_cases, C2 in D2. discriminate. }
      exists e. split; [eapply datetime_date_raises; eassumption|].
      intros B other. unfold Request.monthly_dates.
      rewrite datetime_date_cases, C1, D2. reflexivity.
  - right.
    destruct (datetime_date (Request.year_start cfg) (Request.month_start cfg) 1)
      as [d|e] eqn:D1.
    { rewrite datetime_date_cases, C1 in D1. discriminate. }
    exists e. split; [eapply datetime_date_raises; eassumption|].
    intros B other. unfold Request.monthly_dates. rewrite D1. reflexivity.
Qed.

Lemma script_complete (cfg : Request.config)
    (request : window -> string -> result call) (retrieve : call -> result unit)
    (loop : window -> list string -> outcome call) (vs : list string)
    (calls : list call) :
  (forall w vs', loop w vs' =
     match vs' with
     | [] => ([], None)
     | vname :: rest =>
         match request w vname with
         | Raise e => ([], Some e)
         | Ok c =>
             match retrieve c with
             | Raise e => ([c], Some e)
             | Ok _ => let '(calls, exc) := loop w rest in (c :: calls, exc)
             end
         end
     end) ->
  Request.monthly_dates cfg (fun w => loop w vs) = (calls, None) ->
  exists ws,
    Request.date_windows cfg = (ws, None)
    /\ Z.of_nat (length ws)
       = Z.max 0 ((Request.year_end cfg - Request.year_start cfg) * 12
                  + (Request.month_end cfg - Request.month_start cfg) + 1)
    /\ one_call_each request retrieve vs ws calls
    /\ length calls = (length ws * length vs)%nat.
Proof.
  intros Hloop H.
  destruct (monthly_dates_cases cfg (fun w => loop w vs)) as [(Hs & He & U) | (e0 & De0 & N)].
  2:{ rewrite N in H. discriminate. }
  rewrite U in H. apply monthly_loop_done in H.
  destruct H as (ws & outss & Y & L & F & ->).
  assert (O : one_call_each request retrieve vs ws (concat outss)).
  { exists outss. split; [|reflexivity].
    eapply Forall2_impl; [exact F|]. intros w out Hw. cbn beta in Hw.
    destruct (variables_loop_cases request retrieve w (loop w) (Hloop w) vs)
      as (I2 & _). apply I2. exact Hw. }
  exists ws. split; [|split; [|split]].
  - unfold Request.date_windows. rewrite monthly_dates_unfold by assumption.
    exact Y.
  - rewrite L. lia.
  - exact O.
  - apply (one_call_each_length _ _ _ _ _ O).
Qed.

(** X9.  A run that ends without exception has gone through every month
    of the range and, for each, through every variable: the window
    generator also ends without exception with one window per month, the
    calls are one per window and variable, the windows in order and within
    each the variables in order, every one answered by the client, and
    their number is the number of months times the number of variables. *)
Theorem complete_run :
  (forall cfg era5 retrieve calls,
     Request.script cfg era5 retrieve = (calls, None) ->
     exists ws,
       Request.date_windows cfg = (ws, None)
       /\ Z.of_nat (length ws)
          = Z.max 0 ((Request.year_end cfg - Request.year_start cfg) * 12
                     + (Request.month_end cfg - Request.month_start cfg) + 1)
       /\ one_call_each (Request.request cfg era5) retrieve
            (Request.variables cfg) ws calls
       /\ length calls = (length ws * length (Request.variables cfg))%nat)
  /\ (forall cfg era5 retrieve calls,
       Analysis.script cfg era5 retrieve = (calls, None) ->
       exists ws,
         Analysis.date_windows cfg = (ws, None)
         /\ Z.of_nat (length ws)
            = Z.max 0 ((Analysis.year_end cfg - Analysis.year_start cfg) * 12
                       + (Analysis.month_end cfg - Analysis.month_start cfg) + 1)
         /\ one_call_each (Analysis.request cfg era5) retrieve
              (Analysis.variables cfg) ws calls
         /\ length calls = (length ws * length (Analysis.variables cfg))%nat).
Proof.
  split.
  - intros cfg era5 retrieve calls H.
    apply (script_complete cfg (Request.request cfg era5) retrieve
             (Request.variables_loop cfg era5 retrieve)); [|exact H].
    intros w vs'. apply request_variables_loop.
  - intros cfg era5 retrieve calls H.
    unfold Analysis.script in H. rewrite mdates_eq in H.
    rewrite analysis_date_windows_eq.
    apply (script_complete (as_request cfg) (Analysis.request cfg era5) retrieve
             (Analysis.variables_loop cfg era5 retrieve)); [|exact H].
    intros w vs'. apply analysis_variables_loop.
Qed.

Lemma complete_run_witness :
  exists ws,
    Request.date_windows
      (Request.mkconfig 2020 11 2020 12 1 "00/12" [] ["sst"; "q"] "") = (ws, None)
    /\ Z.of_nat (length ws) = Z.max 0 ((2020 - 2020) * 12 + (12 - 11) + 1)
    /\ one_call_each
         (Request.request
            (Request.mkconfig 2020 11 2020 12 1 "00/12" [] ["sst"; "q"] "")
            example_table)
         (fun _ => Ok tt) ["sst"; "q"] ws
         (Request.script
            (Request.mkconfig 2020 11 2020 12 1 "00/12" [] ["sst"; "q"] "")
            example_table (fun _ => Ok tt)).1
    /\ length (Request.script
                 (Request.mkconfig 2020 11 2020 12 1 "00/12" [] ["sst"; "q"] "")
                 example_table (fun _ => Ok tt)).1
       = (length ws * 2)%nat.
Proof.
  apply (proj1 complete_run
           (Request.mkconfig 2020 11 2020 12 1 "00/12" [] ["sst"; "q"] "")
           example_table (fun _ => Ok tt)).
  vm_compute. reflexivity.
Defined.

(** *** A client that may change its answers *)

Lemma request_variables_run (cfg : Request.config)
    (era5 : gmap string (list string)) (client : nat -> call -> result unit)
    (w : window) (k : nat) (vs : list string) :
  Request.variables_run cfg era5 client k w vs =
     match vs with
     | [] => ([], None)
     | vname :: rest =>
         match Request.request cfg era5 w vname with
         | Raise e => ([], Some e)
         | Ok c =>
             match client k c with
             | Raise e => ([c], Some e)
             | Ok _ =>
                 let '(calls, exc) :=
                   Request.variables_run cfg era5 client (S k) w rest in
                 (c :: calls, exc)
             end
         end
     end.
Proof. destruct vs; reflexivity. Qed.

Lemma analysis_variables_run (cfg : Analysis.config)
    (era5 : gmap string (list string)) (client : nat -> call -> result unit)
    (w : window) (k : nat) (vs : list string) :
  Analysis.variables_run cfg era5 client k w vs =
     match vs with
     | [] => ([], None)
     | vname :: rest =>
         match Analysis.request cfg era5 w vname with
         | Raise e => ([], Some e)
         | Ok c =>
             match client k c with
             | Raise e => ([c], Some e)
             | Ok _ =>
                 let '(calls, exc) :=
                   Analysis.variables_run cfg era5 client (S k) w rest in
                 (c :: calls, exc)
             end
         end
     end.
Proof. destruct vs; reflexivity. Qed.

Lemma run_dates_eq (c : Analysis.config)
    (consume : nat -> window -> outcome call) :
  Analysis.run_dates c consume = Request.run_dates (as_request c) consume.
Proof. reflexivity. Qed.

Lemma answered_nil (client : nat -> call -> result unit) (k : nat) :
  answered client k [].
Proof. intros i c H. rewrite lookup_nil in H. discriminate. Qed.

Lemma answered_app (client : nat -> call -> result unit) (k : nat)
    (out outs : list call) :
  answered client k out ->
  answered client (k + length out) outs ->
  answered client k (out ++ outs).
Proof.
  intros Ha Hb i c H. apply lookup_app_Some in H.
  destruct H as [H | [L H]]; [apply Ha, H|].
  replace (k + i)%nat with (k + length out + (i - length out))%nat by lia.
  apply Hb, H.
Qed.

Lemma stops_at_refusal_app (client : nat -> call -> result unit) (k : nat)
    (out outs : list call) (exc : option exn) :
  answered client k out ->
  stops_at_refusal client (k + length out) (outs, exc) ->
  stops_at_refusal client k (out ++ outs, exc).
Proof.
  intros Ha [Hb | (good & c & e & E & Hg & R & X)]; cbn [fst snd] in *.
  - left. apply answered_app; assumption.
  - right. exists (out ++ good), c, e. cbn [fst snd].
    rewrite E, app_assoc. split; [reflexivity|].
    split; [apply answered_app; assumption|].
    split; [|exact X].
    rewrite length_app.
    replace (k + (length out + length good))%nat
      with (k + length out + length good)%nat by lia.
    exact R.
Qed.

Lemma stops_at_refusal_quiet (client : nat -> call -> result unit) (k : nat)
    (out : list call) :
  stops_at_refusal client k (out, None) -> answered client k out.
Proof.
  intros [G | (good & c & e' & _ & _ & _ & X)]; [exact G | discriminate X].
Qed.

Lemma monthly_run_stops (cfg : Request.config)
    (client : nat -> call -> result unit)
    (consume : nat -> window -> outcome call) (j : nat) :
  (forall k w, stops_at_refusal client k (consume k w)) ->
  forall k d, stops_at_refusal client k (Request.monthly_run cfg consume k j d).
Proof.
  intros Hc. induction j as [|j IH]; intros k d; cbn [Request.monthly_run].
  { left. apply answered_nil. }
  destruct (Request.datestr_overlap _ _ _) as [[s e]|];
    [|left; apply answered_nil].
  pose proof (Hc k (mkwindow (year d) (month d) s e)) as Hw.
  destruct (consume k _) as [out [exc|]] eqn:C; [exact Hw|].
  apply stops_at_refusal_quiet in Hw.
  destruct (Utilities.addmonths4date d 1) as [d'|]; [|left; exact Hw].
  specialize (IH (k + length out)%nat d').
  destruct (Request.monthly_run cfg consume (k + length out) j d') as [outs exc'].
  apply stops_at_refusal_app; assumption.
Qed.

(** The loop over the variables, for either script: it stops at the first
    refusal; the exception it ends on comes from a variable of the list
    that could not be assembled or from the client, on a call made; and
    every call made is the request of a variable of the list. *)
Lemma variables_run_cases (request : window -> string -> result call)
    (client : nat -> call -> result unit) (w : window)
    (loop : nat -> list string -> outcome call) :
  (forall k vs, loop k vs =
     match vs with
     | [] => ([], None)
     | vname :: rest =>
         match request w vname with
         | Raise e => ([], Some e)
         | Ok c =>
             match client k c with
             | Raise e => ([c], Some e)
             | Ok _ => let '(calls, exc) := loop (S k) rest in (c :: calls, exc)
             end
         end
     end) ->
  forall vs k,
    stops_at_refusal client k (loop k vs)
    /\ (forall calls e, loop k vs = (calls, Some e) ->
        (exists v, v ∈ vs /\ request w v = Raise e)
        \/ (exists i c, calls !! i = Some c /\ client (k + i)%nat c = Raise e)).
Proof.
  intros Hloop. induction vs as [|v vs IH]; intros k; rewrite Hloop.
  { split; [left; apply answered_nil | intros calls e H; discriminate]. }
  destruct (request w v) as [c|e0] eqn:R.
  2:{ split; [left; apply answered_nil|].
      intros calls e [= <- <-]. left. exists v. split; [left | exact R]. }
  destruct (client k c) as [u|e1] eqn:T.
  2:{ split.
      - right. exists [], c, e1. cbn [fst snd app length].
        rewrite Nat.add_0_r. split; [reflexivity|].
        split; [apply answered_nil|]. split; [exact T | reflexivity].
      - intros calls e [= <- <-]. right. exists 0%nat, c.
        rewrite Nat.add_0_r. split; [reflexivity | exact T]. }
  destruct u. destruct (IH (S k)) as (I1 & I2).
  destruct (loop (S k) vs) as [calls exc] eqn:L. split.
  - apply (stops_at_refusal_app client k [c] calls exc).
    + intros i c' H. destruct i as [|i]; [|cbn in H; discriminate H].
      injection H as <-. rewrite Nat.add_0_r. exact T.
    + cbn [length]. replace (k + 1)%nat with (S k) by lia. exact I1.
  - intros calls' e [= <- ->].
    destruct (I2 calls e eq_refl) as [(v' & Hin & Hr) | (i & c' & Hi & Hr)].
    + left. exists v'. split; [right|]; assumption.
    + right. exists (S i), c'. split; [exact Hi|].
      replace (k + S i)%nat with (S k + i)%nat by lia. exact Hr.
Qed.

(** A run that ends on an exception ends on [ValueError] or [OverflowError],
    raised by the dates, or on the exception with which the loop over the
    variables ended for some month, after the calls made before it. *)
Lemma monthly_run_exception (cfg : Request.config)
    (consume : nat -> window -> outcome call) (j : nat) :
  forall (k : nat) (d : date) (outs : list call) (e : exn),
  valid_date d = true ->
  Request.monthly_run cfg consume k j d = (outs, Some e) ->
  (e = ValueError \/ e = OverflowError)
  \/ exists k' w out pre,
       consume k' w = (out, Some e) /\ outs = pre ++ out
       /\ k' = (k + length pre)%nat.
Proof.
  induction j as [|j IH]; intros k d outs e Vd; cbn [Request.monthly_run].
  { discriminate. }
  pose proof Vd as Vd0.
  apply valid_date_spec in Vd. destruct Vd as (Hy & Hm & Hd).
  destruct (Request.datestr_overlap _ _ _) as [[s e0]|e0] eqn:E.
  2:{ intros [= <- <-]. left. eapply datestr_overlap_raises; eassumption. }
  destruct (consume k _) as [out [exc|]] eqn:C.
  { intros [= <- <-]. right.
    exists k, (mkwindow (year d) (month d) s e0), out, [].
    split; [exact C|]. split; [reflexivity|]. cbn [length]. lia. }
  destruct (Utilities.addmonths4date d 1) as [d'|e1] eqn:Ad.
  2:{ intros [= <- <-]. left. eapply addmonths4date_raises; eassumption. }
  apply addmonths4date_inv in Ad. destruct Ad as [-> Vd'].
  specialize (IH (k + length out)%nat (advanced d 1)).
  destruct (Request.monthly_run cfg consume (k + length out) j (advanced d 1))
    as [outs' exc'].
  intros [= <- ->].
  destruct (IH outs' e Vd' eq_refl) as [D | (k' & w & o & pre & Cw & -> & ->)];
    [left; exact D|].
  right. exists (k + length out + length pre)%nat, w, o, (out ++ pre).
  split; [exact Cw|]. split; [rewrite app_assoc; reflexivity|].
  rewrite length_app. lia.
Qed.

Lemma run_dates_cases (cfg : Request.config)
    (consume : nat -> window -> outcome call) :
  (valid_date (mkdate (Request.year_start cfg) (Request.month_start cfg) 1) = true
   /\ Request.run_dates cfg consume
      = Request.monthly_run cfg consume 0
          (Z.to_nat ((Request.year_end cfg - Request.year_start cfg) * 12
                     + (Request.month_end cfg - Request.month_start cfg) + 1))
          (mkdate (Request.year_start cfg) (Request.month_start cfg) 1))
  \/ (exists e, (e = ValueError \/ e = OverflowError)
        /\ Request.run_dates cfg consume = ([], Some e)).
Proof.
  unfold Request.run_dates.
  destruct (datetime_date (Request.year_start cfg) (Request.month_start cfg) 1)
    as [d0|e0] eqn:D1.
  2:{ right. exists e0. split; [eapply datetime_date_raises; eassumption|].
      reflexivity. }
  destruct (datetime_date (Request.year_end cfg) (Request.month_end cfg) 1)
    as [d1|e1] eqn:D2.
  2:{ right. exists e1. split; [eapply datetime_date_raises; eassumption|].
      reflexivity. }
  left. rewrite datetime_date_cases in D1, D2.
  destruct (check_date_fields (Request.year_start cfg) (Request.month_start cfg) 1)
    eqn:C1; [|discriminate].
  destruct (check_date_fields (Request.year_end cfg) (Request.month_end cfg) 1);
    [|discriminate].
  injection D1 as <-. injection D2 as <-. split; [exact C1 | reflexivity].
Qed.

(** A client that answers by the call alone gives the loops of the
    script. *)
Lemma monthly_run_pure (cfg : Request.config)
    (consume' : nat -> window -> outcome call) (consume : window -> outcome call)
    (j : nat) :
  (forall k w, consume' k w = consume w) ->
  forall k d,
    Request.monthly_run cfg consume' k j d = Request.monthly_loop cfg consume j d.
Proof.
  intros H. induction j as [|j IH]; intros k d;
    cbn [Request.monthly_run Request.monthly_loop]; [reflexivity|].
  destruct (Request.datestr_overlap _ _ _) as [[s e]|]; [|reflexivity].
  rewrite H. destruct (consume _) as [out [exc|]]; [reflexivity|].
  destruct (Utilities.addmonths4date d 1) as [d'|]; [|reflexivity].
  rewrite IH. reflexivity.
Qed.

Lemma run_dates_pure (cfg : Request.config)
    (consume' : nat -> window -> outcome call) (consume : window -> outcome call) :
  (forall k w, consume' k w = consume w) ->
  Request.run_dates cfg consume' = Request.monthly_dates cfg consume.
Proof.
  intros H. unfold Request.run_dates, Request.monthly_dates.
  destruct (datetime_date _ _ _); [|reflexivity].
  destruct (datetime_date _ _ _); [|reflexivity].
  apply monthly_run_pure, H.
Qed.

Lemma variables_run_pure (cfg : Request.config)
    (era5 : gmap string (list string)) (retrieve : call -> result unit)
    (w : window) (vs : list string) (k : nat) :
  Request.variables_run cfg era5 (fun _ => retrieve) k w vs
  = Request.variables_loop cfg era5 retrieve w vs.
Proof.
  revert k. induction vs as [|v vs IH]; intros k;
    cbn [Request.variables_run Request.variables_loop]; [reflexivity|].
  destruct (Request.request cfg era5 w v); [|reflexivity].
  destruct (retrieve _); [|reflexivity]. rewrite IH. reflexivity.
Qed.

Lemma analysis_variables_run_pure (cfg : Analysis.config)
    (era5 : gmap string (list string)) (retrieve : call -> result unit)
    (w : window) (vs : list string) (k : nat) :
  Analysis.variables_run cfg era5 (fun _ => retrieve) k w vs
  = Analysis.variables_loop cfg era5 retrieve w vs.
Proof.
  revert k. induction vs as [|v vs IH]; intros k;
    cbn [Analysis.variables_run Analysis.variables_loop]; [reflexivity|].
  destruct (Analysis.request cfg era5 w v); [|reflexivity].
  destruct (retrieve _); [|reflexivity]. rewrite IH. reflexivity.
Qed.

(** X10.  A run stops at the first call the client refuses, whatever the
    client answers and even when it answers the same call differently at
    different times: in both scripts, either every call made was answered,
    or every call but the last was and the exception the client raised on
    the last is the one the run ends on; no call is made after a refused
    one, and the calls made before it stay made.  The runs of a client that
    answers by the call alone are the runs of the script. *)
Theorem run_stops_at_first_failure :
  (forall cfg era5 client,
     stops_at_refusal client 0 (Request.run cfg era5 client))
  /\ (forall cfg era5 client,
       stops_at_refusal client 0 (Analysis.run cfg era5 client))
  /\ (forall cfg era5 retrieve,
       Request.run cfg era5 (fun _ => retrieve) = Request.script cfg era5 retrieve)
  /\ (forall cfg era5 retrieve,
       Analysis.run cfg era5 (fun _ => retrieve)
       = Analysis.script cfg era5 retrieve).
Proof.
  split; [|split; [|split]].
  - intros cfg era5 client. unfold Request.run.
    destruct (run_dates_cases cfg
                (fun k w => Request.variables_run cfg era5 client k w
                              (Request.variables cfg)))
      as [(_ & ->) | (e & _ & ->)]; [|left; apply answered_nil].
    apply monthly_run_stops. intros k w.
    apply (variables_run_cases (Request.request cfg era5) client w
             (fun k vs => Request.variables_run cfg era5 client k w vs)).
    intros k' vs. apply request_variables_run.
  - intros cfg era5 client. unfold Analysis.run. rewrite run_dates_eq.
    destruct (run_dates_cases (as_request cfg)
                (fun k w => Analysis.variables_run cfg era5 client k w
                              (Analysis.variables cfg)))
      as [(_ & ->) | (e & _ & ->)]; [|left; apply answered_nil].
    apply monthly_run_stops. intros k w.
    apply (variables_run_cases (Analysis.request cfg era5) client w
             (fun k vs => Analysis.variables_run cfg era5 client k w vs)).
    intros k' vs. apply analysis_variables_run.
  - intros cfg era5 retrieve. unfold Request.run, Request.script.
    apply run_dates_pure. intros k w. apply variables_run_pure.
  - intros cfg era5 retrieve. unfold Analysis.run, Analysis.script.
    rewrite run_dates_eq, mdates_eq.
    apply run_dates_pure. intros k w. apply analysis_variables_run_pure.
Qed.

(** A client that answers the first call and refuses the same call when it
    is made again: the run stops there. *)
Example run_stops_on_second_call :
  let client := fun (k : nat) (_ : call) =>
                  match k with O => Ok tt | S _ => Raise ClientError end in
  let r := Request.run
             (Request.mkconfig 2020 11 2020 12 1 "00/12" [] ["sst"; "sst"] "")
             example_table client in
  c_output <$> r.1
    = ["/ERA5/ERA5_ecmwf_SST_Y2020M11.nc"; "/ERA5/ERA5_ecmwf_SST_Y2020M11.nc"]
  /\ r.2 = Some ClientError.
Proof. split; vm_compute; reflexivity. Qed.

Lemma request_raise_cases (cfg : Request.config)
    (era5 : gmap string (list string)) (w : window) (vname : string) (e : exn) :
  Request.request cfg era5 w vname = Raise e ->
  (era5 !! vname = None /\ e = KeyError vname)
  \/ (exists entry, era5 !! vname = Some entry /\ (length entry < 4)%nat
       /\ e = IndexError).
Proof.
  unfold Request.request, dict_getitem.
  destruct (era5 !! vname) as [entry|]; cbn [bind].
  2:{ intros [= <-]. left. auto. }
  intros H. right. exists entry. split; [reflexivity|].
  destruct (getitem_spec entry 0) as [(x0 & E0 & _ & L0) | [E0 L0]];
    rewrite E0 in H; cbn [bind] in H.
  - destruct (getitem_spec entry 3) as [(x3 & E3 & _ & L3) | [E3 L3]];
      rewrite E3 in H; cbn [bind] in H; [discriminate|].
    injection H as <-. split; [lia | reflexivity].
  - injection H as <-. split; [lia | reflexivity].
Qed.

Lemma analysis_request_raise_cases (cfg : Analysis.config)
    (era5 : gmap string (list string)) (w : window) (vname : string) (e : exn) :
  Analysis.request cfg era5 w vname = Raise e ->
  (era5 !! vname = None /\ e = KeyError vname)
  \/ (exists entry, era5 !! vname = Some entry /\ (length entry < 3)%nat
       /\ e = IndexError).
Proof.
  unfold Analysis.request, dict_getitem.
  destruct (era5 !! vname) as [entry|]; cbn [bind].
  2:{ intros [= <-]. left. auto. }
  intros H. right. exists entry. split; [reflexivity|].
  destruct (getitem_spec entry 1) as [(x1 & E1 & _ & L1) | [E1 L1]];
    rewrite E1 in H; cbn [bind] in H.
  - destruct (getitem_spec entry 2) as [(x2 & E2 & _ & L2) | [E2 L2]];
      rewrite E2 in H; cbn [bind] in H; [discriminate|].
    injection H as <-. split; [lia | reflexivity].
  - injection H as <-. split; [lia | reflexivity].
Qed.

Lemma request_ok (cfg : Request.config) (era5 : gmap string (list string))
    (w : window) (vname : string) (entry : list string) :
  era5 !! vname = Some entry -> (4 <= length entry)%nat ->
  exists c, Request.request cfg era5 w vname = Ok c.
Proof.
  intros E L. destruct (Request.request cfg era5 w vname) as [c|e] eqn:R; [eauto|].
  destruct (request_raise_cases _ _ _ _ _ R) as [[N _] | (en & E' & L' & _)].
  - congruence.
  - rewrite E in E'. injection E' as <-. lia.
Qed.

Lemma analysis_request_ok (cfg : Analysis.config)
    (era5 : gmap string (list string)) (w : window) (vname : string)
    (entry : list string) :
  era5 !! vname = Some entry -> (3 <= length entry)%nat ->
  exists c, Analysis.request cfg era5 w vname = Ok c.
Proof.
  intros E L. destruct (Analysis.request cfg era5 w vname) as [c|e] eqn:R; [eauto|].
  destruct (analysis_request_raise_cases _ _ _ _ _ R) as [[N _] | (en & E' & L' & _)].
  - congruence.
  - rewrite E in E'. injection E' as <-. lia.
Qed.

(** X11.  The exceptions a run can end on, whatever the client answers:
    [ValueError] or [OverflowError], raised by the dates; [KeyError] with an
    identifier of the list of variables that the table does not have;
    [IndexError], for an identifier whose entry is too short (fewer than
    four fields in the main script, than three in the analysis script); or
    the exception the client raised on a call the run made. *)
Theorem run_exceptions :
  (forall cfg era5 client calls e,
     Request.run cfg era5 client = (calls, Some e) ->
     (e = ValueError \/ e = OverflowError)
     \/ (exists v, v ∈ Request.variables cfg /\ era5 !! v = None
          /\ e = KeyError v)
     \/ (exists v entry, v ∈ Request.variables cfg /\ era5 !! v = Some entry
          /\ (length entry < 4)%nat /\ e = IndexError)
     \/ (exists i c, calls !! i = Some c /\ client i c = Raise e))
  /\ (forall cfg era5 client calls e,
       Analysis.run cfg era5 client = (calls, Some e) ->
       (e = ValueError \/ e = OverflowError)
       \/ (exists v, v ∈ Analysis.variables cfg /\ era5 !! v = None
            /\ e = KeyError v)
       \/ (exists v entry, v ∈ Analysis.variables cfg /\ era5 !! v = Some entry
            /\ (length entry < 3)%nat /\ e = IndexError)
       \/ (exists i c, calls !! i = Some c /\ client i c = Raise e)).
Proof.
  split; intros cfg era5 client calls e H.
  - unfold Request.run in H.
    destruct (run_dates_cases cfg
                (fun k w => Request.variables_run cfg era5 client k w
                              (Request.variables cfg)))
      as [(Vs & U) | (e0 & De0 & N)].
    2:{ rewrite N in H. injection H as _ <-. left. exact De0. }
    rewrite U in H. apply monthly_run_exception in H; [|exact Vs].
    destruct H as [D | (k' & w & out & pre & Hw & -> & ->)]; [left; exact D|].
    destruct (variables_run_cases (Request.request cfg era5) client w
                (fun k vs => Request.variables_run cfg era5 client k w vs)
                (fun k vs => request_variables_run cfg era5 client w k vs)
                (Request.variables cfg) (0 + length pre)%nat) as (_ & I2).
    destruct (I2 out e Hw) as [(v & Hv & R) | (i & c & Hc & R)].
    + destruct (request_raise_cases _ _ _ _ _ R) as [[N ->] | (en & E & L & ->)].
      * right. left. exists v. repeat split; assumption.
      * right. right. left. exists v, en. repeat split; assumption.
    + right. right. right. exists (length pre + i)%nat, c.
      split; [|exact R].
      rewrite lookup_app_r by lia.
      replace (length pre + i - length pre)%nat with i by lia. exact Hc.
  - unfold Analysis.run in H. rewrite run_dates_eq in H.
    destruct (run_dates_cases (as_request cfg)
                (fun k w => Analysis.variables_run cfg era5 client k w
                              (Analysis.variables cfg)))
      as [(Vs & U) | (e0 & De0 & N)].
    2:{ rewrite N in H. injection H as _ <-. left. exact De0. }
    rewrite U in H. apply monthly_run_exception in H; [|exact Vs].
    destruct H as [D | (k' & w & out & pre & Hw & -> & ->)]; [left; exact D|].
    destruct (variables_run_cases (Analysis.request cfg era5) client w
                (fun k vs => Analysis.variables_run cfg era5 client k w vs)
                (fun k vs => analysis_variables_run cfg era5 client w k vs)
                (Analysis.variables cfg) (0 + length pre)%nat) as (_ & I2).
    destruct (I2 out e Hw) as [(v & Hv & R) | (i & c & Hc & R)].
    + destruct (analysis_request_raise_cases _ _ _ _ _ R)
        as [[N ->] | (en & E & L & ->)].
      * right. left. exists v. repeat split; assumption.
      * right. right. left. exists v, en. repeat split; assumption.
    + right. right. right. exists (length pre + i)%nat, c.
      split; [|exact R].
      rewrite lookup_app_r by lia.
      replace (length pre + i - length pre)%nat with i by lia. exact Hc.
Qed.

Lemma script_quiet (cfg : Request.config)
    (request : window -> string -> result call) (retrieve : call -> result unit)
    (loop : window -> list string -> outcome call) (vs : list string) :
  (forall w vs', loop w vs' =
     match vs' with
     | [] => ([], None)
     | vname :: rest =>
         match request w vname with
         | Raise e => ([], Some e)
         | Ok c =>
             match retrieve c with
             | Raise e => ([c], Some e)
             | Ok _ => let '(calls, exc) := loop w rest in (c :: calls, exc)
             end
         end
     end) ->
  (forall w v, v ∈ vs -> exists c, request w v = Ok c) ->
  (forall c, retrieve c = Ok tt) ->
  exists calls,
    Request.monthly_dates cfg (fun w => loop w vs)
      = (calls, (Request.date_windows cfg).2)
    /\ one_call_each request retrieve vs (Request.date_windows cfg).1 calls.
Proof.
  intros Hloop Hreq Hret.
  assert (Q : forall w, exists cs, loop w vs = (cs, None)
            /\ Forall2 (fun v c => request w v = Ok c /\ retrieve c = Ok tt) vs cs).
  { intros w.
    destruct (variables_loop_cases request retrieve w (loop w) (Hloop w) vs)
      as (I2 & _ & I4).
    destruct I4 as [cs E]; [intros v Hv; apply Hreq, Hv | exact Hret |].
    exists cs. split; [exact E | apply I2, E]. }
  unfold Request.date_windows.
  destruct (monthly_dates_cases cfg (fun w => loop w vs)) as [(Hs & He & U) | (e0 & De0 & N)].
  2:{ exists []. rewrite !N. split; [reflexivity|].
      exists []. split; [constructor | reflexivity]. }
  rewrite U, (monthly_dates_unfold cfg (fun w => ([w], None))) by assumption.
  rewrite monthly_loop_quiet.
  2:{ intros w. destruct (Q w) as (cs & -> & _). reflexivity. }
  eexists. split; [reflexivity|].
  exists (map (fun w => (loop w vs).1)
            (Request.monthly_loop cfg (fun w => ([w], None))
               (Z.to_nat ((Request.year_end cfg - Request.year_start cfg) * 12
                          + (Request.month_end cfg - Request.month_start cfg) + 1))
               (mkdate (Request.year_start cfg) (Request.month_start cfg) 1)).1).
  split; [|reflexivity].
  induction (Request.monthly_loop cfg _ _ _).1 as [|w ws IH]; constructor;
    [|exact IH].
  destruct (Q w) as (cs & -> & F). exact F.
Qed.

(** X12.  When the table has every variable of the list with enough fields
    (four in the main script, three in the analysis script) and the client
    answers every call, the run makes exactly one call per window of the
    generator and per variable, in order, and ends as the window generator
    ends. *)
Theorem run_succeeds :
  (forall cfg era5 retrieve,
     (forall v, v ∈ Request.variables cfg ->
        exists entry, era5 !! v = Some entry /\ (4 <= length entry)%nat) ->
     (forall c, retrieve c = Ok tt) ->
     exists calls,
       Request.script cfg era5 retrieve = (calls, (Request.date_windows cfg).2)
       /\ one_call_each (Request.request cfg era5) retrieve
            (Request.variables cfg) (Request.date_windows cfg).1 calls)
  /\ (forall cfg era5 retrieve,
       (forall v, v ∈ Analysis.variables cfg ->
          exists entry, era5 !! v = Some entry /\ (3 <= length entry)%nat) ->
       (forall c, retrieve c = Ok tt) ->
       exists calls,
         Analysis.script cfg era5 retrieve = (calls, (Analysis.date_windows cfg).2)
         /\ one_call_each (Analysis.request cfg era5) retrieve
              (Analysis.variables cfg) (Analysis.date_windows cfg).1 calls).
Proof.
  split; intros cfg era5 retrieve Htab Hret.
  - apply (script_quiet cfg (Request.request cfg era5) retrieve
             (Request.variables_loop cfg era5 retrieve)); try assumption.
    + intros w vs'. apply request_variables_loop.
    + intros w v Hv. destruct (Htab v Hv) as (entry & E & L).
      eapply request_ok; eassumption.
  - unfold Analysis.script. rewrite mdates_eq, analysis_date_windows_eq.
    apply (script_quiet (as_request cfg) (Analysis.request cfg era5) retrieve
             (Analysis.variables_loop cfg era5 retrieve)); try assumption.
    + intros w vs'. apply analysis_variables_loop.
    + intros w v Hv. destruct (Htab v Hv) as (entry & E & L).
      eapply analysis_request_ok; eassumption.
Qed.

Lemma concat_map_nil {A B : Type} (l : list A) :
  concat (map (fun _ => @nil B) l) = [].
Proof. induction l; [reflexivity | exact IHl]. Qed.

(** X13.  With an empty list of variables a run makes no call, whatever the
    table and the client are, yet it still walks the months: it ends as the
    window generator ends, so it can still stop on an exception of the
    dates. *)
Theorem no_variable_no_call :
  (forall cfg era5 retrieve,
     Request.variables cfg = [] ->
     Request.script cfg era5 retrieve = ([], (Request.date_windows cfg).2))
  /\ (forall cfg era5 retrieve,
       Analysis.variables cfg = [] ->
       Analysis.script cfg era5 retrieve = ([], (Analysis.date_windows cfg).2)).
Proof.
  assert (H : forall cfg,
    Request.monthly_dates cfg (fun _ : window => (@nil call, @None exn))
      = ([], (Request.date_windows cfg).2)).
  { intros cfg. unfold Request.date_windows.
    destruct (monthly_dates_cases cfg (fun _ : window => (@nil call, @None exn)))
      as [(Hs & He & U) | (e0 & De0 & N)].
    - rewrite U, (monthly_dates_unfold cfg (fun w => ([w], None))) by assumption.
      rewrite monthly_loop_quiet by reflexivity. cbn [fst].
      rewrite concat_map_nil. reflexivity.
    - rewrite !N. reflexivity. }
  split; intros cfg era5 retrieve E.
  - unfold Request.script. rewrite E. apply H.
  - unfold Analysis.script. rewrite E, mdates_eq, analysis_date_windows_eq.
    apply (H (as_request cfg)).
Qed.

Lemma windows_loop_length_le (cfg : Request.config) (j : nat) (d : date) :
  (length (Request.monthly_loop cfg (fun w => ([w], None)) j d).1 <= j)%nat.
Proof.
  revert d. induction j as [|j IH]; intros d; cbn [Request.monthly_loop].
  { cbn. lia. }
  destruct (Request.datestr_overlap _ _ _) as [[s e]|]; [|cbn; lia].
  destruct (Utilities.addmonths4date d 1) as [d'|]; [|cbn; lia].
  specialize (IH d').
  destruct (Request.monthly_loop cfg _ j d') as [ws exc]. cbn in *. lia.
Qed.

Lemma fromordinal_value_error (n : Z) (e : exn) :
  fits_int n = true -> fromordinal n = Raise e -> e = ValueError.
Proof.
  intros F H.
  destruct (Z_le_dec 1 n) as [L1|L1]; [destruct (Z_le_dec n MAXORDINAL) as [L2|L2]|].
  - destruct (fromordinal_ok n ltac:(lia)) as (D & E & _). congruence.
  - rewrite fromordinal_out_of_range, F in H by lia. congruence.
  - rewrite fromordinal_out_of_range, F in H by lia. congruence.
Qed.

(** With an overlap of at most 2^30 days either way, the limits of a month
    of the calendar have ordinals that are C ints. *)
Lemma datestr_overlap_value_error (V y m : Z) (e : exn) :
  valid_month y m -> -1073741824 <= V <= 1073741824 ->
  Request.datestr_overlap V y m = Raise e -> e = ValueError.
Proof.
  intros [Hy Hm] HV. unfold Request.datestr_overlap.
  rewrite monthrange_ndays_ok by assumption. cbn [bind].
  pose proof (days_in_month_bounds y m Hm) as Hd.
  assert (V1 : valid_date (mkdate y m 1) = true)
    by (apply valid_date_spec; cbn [year month day]; lia).
  assert (V2 : valid_date (mkdate y m (days_in_month y m)) = true)
    by (apply valid_date_spec; cbn [year month day]; lia).
  pose proof (toordinal_range _ V1) as R1.
  pose proof (toordinal_range _ V2) as R2.
  unfold MAXORDINAL in R1, R2.
  rewrite !datetime_date_cases.
  unfold valid_date in V1, V2. cbn [year month day] in V1, V2.
  rewrite V1, V2. cbn [bind].
  destruct (fromordinal _) eqn:E1; cbn [bind].
  2:{ intros [= <-]. eapply fromordinal_value_error; [|exact E1].
      apply fits_int_spec. lia. }
  destruct (fromordinal _) eqn:E2 in |- *; cbn [bind]; [discriminate|].
  intros [= <-]. eapply fromordinal_value_error; [|exact E2].
  apply fits_int_spec. lia.
Qed.

Lemma next_month_value_error (D : date) (e : exn) :
  valid_date D = true ->
  Utilities.addmonths4date D 1 = Raise e -> e = ValueError.
Proof.
  intros V H. pose proof V as V0. apply valid_date_spec in V.
  destruct (Z_le_dec (year D * 12 + (month D - 1) + 1) (9999 * 12 + 11)) as [L|L].
  - destruct (addmonths4date_ok D 1 V0 ltac:(lia)) as [E _]. congruence.
  - rewrite addmonths4date_out_of_range in H by (assumption || lia).
    pose proof (advanced_index D 1) as [Hi Hm].
    replace (fits_int (year (advanced D 1))) with true in H; [congruence|].
    symmetry. apply fits_int_spec. lia.
Qed.

Lemma windows_loop_value_error (cfg : Request.config) (j : nat) (d : date)
    (ws : list window) (e : exn) :
  -1073741824 <= Request.n_overlap cfg <= 1073741824 ->
  valid_date d = true ->
  Request.monthly_loop cfg (fun w => ([w], None)) j d = (ws, Some e) ->
  e = ValueError.
Proof.
  intros HV. revert d ws.
  induction j as [|j IH]; intros d ws Vd; cbn [Request.monthly_loop].
  { discriminate. }
  pose proof Vd as Vd0.
  apply valid_date_spec in Vd. destruct Vd as (Hy & Hm & Hd).
  destruct (Request.datestr_overlap _ _ _) as [[s e0]|e0] eqn:E.
  2:{ intros [= <- <-].
      eapply datestr_overlap_value_error; [split; eassumption | exact HV | exact E]. }
  destruct (Utilities.addmonths4date d 1) as [d'|e1] eqn:Ad.
  2:{ intros [= <- <-]. eapply next_month_value_error; eassumption. }
  apply addmonths4date_inv in Ad. destruct Ad as [-> Vd'].
  specialize (IH (advanced d 1)).
  destruct (Request.monthly_loop cfg _ j (advanced d 1)) as [ws' exc'].
  intros [= <- ->]. eapply IH; [exact Vd' | reflexivity].
Qed.

(** X14.  What the window generator can do, whatever the configuration:
    it ends without exception, on [ValueError] or on [OverflowError], never
    on another exception, and not on [OverflowError] when the configured
    years and months are C ints and the overlap is at most 2^30 days either
    way; it never hands out more windows than the range has months, and
    hands out exactly that many when it ends without exception; and, the
    overlap being non-negative, the windows it hands out before it stops
    are for the consecutive months from the start month on. *)
Theorem generator_invariants :
  (forall cfg,
     let months := Z.max 0 ((Request.year_end cfg - Request.year_start cfg) * 12
                     + (Request.month_end cfg - Request.month_start cfg) + 1) in
     let ws := (Request.date_windows cfg).1 in
     let exc := (Request.date_windows cfg).2 in
     (exc = None \/ exc = Some ValueError \/ exc = Some OverflowError)
     /\ (fits_int (Request.year_start cfg) = true ->
         fits_int (Request.month_start cfg) = true ->
         fits_int (Request.year_end cfg) = true ->
         fits_int (Request.month_end cfg) = true ->
         -1073741824 <= Request.n_overlap cfg <= 1073741824 ->
         exc <> Some OverflowError)
     /\ Z.of_nat (length ws) <= months
     /\ (exc = None -> Z.of_nat (length ws) = months)
     /\ (0 <= Request.n_overlap cfg ->
         forall (i : nat) (w : window), ws !! i = Some w ->
           month_rank (w_year w) (w_month w)
             = month_rank (Request.year_start cfg) (Request.month_start cfg)
               + Z.of_nat i
           /\ valid_month (w_year w) (w_month w)))
  /\ (forall cfg, Analysis.date_windows cfg = Request.date_windows (as_request cfg)).
Proof.
  split; [|intros cfg; reflexivity].
  intros cfg months ws exc. subst months ws exc.
  split; [|split; [|split; [|split]]].
  - destruct (Request.date_windows cfg) as [ws [e|]] eqn:E; [|left; reflexivity].
    right. cbn [snd]. unfold Request.date_windows in E.
    assert (D : e = ValueError \/ e = OverflowError).
    { destruct (monthly_dates_cases cfg (fun w : window => ([w], @None exn)))
        as [(Hs & _ & U) | (e0 & De0 & N)].
      + rewrite U in E. apply monthly_loop_exception in E;
          [|apply first_of_month_valid, Hs].
        destruct E as [D | (w & out & _ & Hw & _)]; [exact D | discriminate].
      + rewrite N in E. injection E as _ <-. exact De0. }
    destruct D as [-> | ->]; auto.
  - intros F1 F2 F3 F4 HV. unfold Request.date_windows, Request.monthly_dates.
    assert (F0 : fits_int 1 = true) by reflexivity.
    rewrite !datetime_date_cases, F0, F1, F2, F3, F4. cbn [andb].
    destruct (check_date_fields (Request.year_start cfg) (Request.month_start cfg) 1)
      eqn:C1; [|cbn; discriminate].
    destruct (check_date_fields (Request.year_end cfg) (Request.month_end cfg) 1);
      [|cbn; discriminate].
    cbn [year month].
    destruct (Request.monthly_loop cfg _ _ _) as [ws [e|]] eqn:E;
      [|cbn; discriminate].
    apply windows_loop_value_error in E; [|exact HV|exact C1].
    subst e. cbn. discriminate.
  - unfold Request.date_windows.
    destruct (monthly_dates_cases cfg (fun w : window => ([w], @None exn)))
      as [(_ & _ & ->) | (e0 & _ & ->)].
    + pose proof (windows_loop_length_le cfg
        (Z.to_nat ((Request.year_end cfg - Request.year_start cfg) * 12
                   + (Request.month_end cfg - Request.month_start cfg) + 1))
        (mkdate (Request.year_start cfg) (Request.month_start cfg) 1)). lia.
    + cbn. lia.
  - unfold Request.date_windows.
    destruct (monthly_dates_cases cfg (fun w : window => ([w], @None exn)))
      as [(_ & _ & ->) | (e0 & _ & ->)]; [|discriminate].
    destruct (Request.monthly_loop cfg _ _ _) as [ws exc] eqn:E.
    cbn [fst snd]. intros ->.
    pose proof (monthly_loop_done _ _ _ _ _ E) as (ws' & _ & E' & L & _).
    rewrite E in E'. injection E' as <-. lia.
  - intros HV i w Hi.
    destruct (date_windows_lookup cfg i w HV Hi) as (R & Hv & _). auto.
Qed.

(** The three ways the generator ends, on examples: a range within the
    calendar, an overlap that reaches before its first day, and an overlap
    whose ordinal is not a C int. *)
Example generator_ends :
  (Request.date_windows (Request.mkconfig 2020 11 2021 1 1 "" [] [] "")).2 = None
  /\ Request.date_windows (Request.mkconfig 2020 11 2021 1 800000 "" [] [] "")
     = ([], Some ValueError)
  /\ Request.date_windows
       (Request.mkconfig 2020 11 2021 1 (-4294967296) "" [] [] "")
     = ([], Some OverflowError)
  /\ Request.date_windows (Request.mkconfig 4294967296 1 2021 1 0 "" [] [] "")
     = ([], Some OverflowError).
Proof. repeat split; vm_compute; reflexivity. Qed.
